(** * rag-groq: guardrails pipeline and retrieval/routing engine

    A shallow embedding of [src/guardrails/policies.js] (class [Guardrails])
    and of the [RAGEngine] class, followed by the properties of the query
    pipeline that the specification states about them.

    Conventions of the embedding.
    - A JavaScript string is a [string]. The embedding is exact on ASCII
      text, which is all that the regular expressions and keyword tables of
      the source mention; a character outside ASCII is carried as its UTF-8
      bytes, none of which is a letter with a case, a word character or a
      whitespace character here.
    - A JavaScript number that counts or indexes is a [nat] or a [Z]; a
      timestamp ([Date.now()]) is a [Z], passed to the function that reads
      the clock; a similarity score is a rational ([Q]).
    - A method that mutates [this] returns the new object next to its
      result. An exception is the [Throw] case of [completion]. *)

From Stdlib Require Import ZArith QArith List Bool Ascii String Lia.
From Stdlib Require Import Sorting.Sorted DecimalString.
From stdpp Require Import gmap strings list fin_maps sorting.

Local Open Scope string_scope.

(** ** JavaScript strings *)

Module JsString.

Definition code (c : ascii) : nat := nat_of_ascii c.

Definition between (lo hi : nat) (c : ascii) : bool :=
  Nat.leb lo (code c) && Nat.leb (code c) hi.

Definition is_upper : ascii -> bool := between 65 90.
Definition is_lower : ascii -> bool := between 97 122.
Definition is_digit : ascii -> bool := between 48 57.

(** The class [\w]: letters, digits and the underscore. *)
Definition is_word (c : ascii) : bool :=
  is_upper c || is_lower c || is_digit c || Nat.eqb (code c) 95.

(** The class [\s], also the characters that [trim] strips: tab, line
    feed, vertical tab, form feed, carriage return and space. *)
Definition is_space (c : ascii) : bool :=
  between 9 13 c || Nat.eqb (code c) 32.

Definition lower_char (c : ascii) : ascii :=
  if is_upper c then ascii_of_nat (code c + 32) else c.

(** [String.prototype.toLowerCase]. *)
Fixpoint toLowerCase (s : string) : string :=
  match s with
  | EmptyString => EmptyString
  | String c s' => String (lower_char c) (toLowerCase s')
  end.

Fixpoint drop (n : nat) (s : string) : string :=
  match n, s with
  | O, _ => s
  | S _, EmptyString => EmptyString
  | S n', String _ s' => drop n' s'
  end.

(** [p] is a prefix of [s], compared after case folding; [p] is given in
    lower case. This is how a literal of an [/i] pattern matches. *)
Fixpoint prefix_ci (p s : string) : bool :=
  match p, s with
  | EmptyString, _ => true
  | String _ _, EmptyString => false
  | String a p', String b s' => Ascii.eqb a (lower_char b) && prefix_ci p' s'
  end.

(** [String.prototype.includes]: [t] occurs in [s]. *)
Fixpoint includes (s t : string) : bool :=
  String.prefix t s
  || match s with
     | EmptyString => false
     | String _ s' => includes s' t
     end.

(** Offset of the first character satisfying [p]. *)
Fixpoint find_char (p : ascii -> bool) (s : string) : option nat :=
  match s with
  | EmptyString => None
  | String c s' => if p c then Some O else option_map S (find_char p s')
  end.

(** Offset of the first occurrence of the lower-case literal [p],
    compared after case folding. *)
Fixpoint find_ci (p s : string) : option nat :=
  if prefix_ci p s then Some O
  else match s with
       | EmptyString => None
       | String _ s' => option_map S (find_ci p s')
       end.

(** Length of the longest prefix whose characters all satisfy [p]: what a
    greedy [c*] consumes. *)
Fixpoint span (p : ascii -> bool) (s : string) : nat :=
  match s with
  | EmptyString => O
  | String c s' => if p c then S (span p s') else O
  end.

(** [s.replace(re, rep)] for a global pattern [re] that never matches the
    empty string. [m s] is the length of the match of [re] that starts at
    the head of [s], if there is one. The scan goes left to right; after a
    match it resumes behind the match, which [skip] counts down. *)
Fixpoint replace_from (m : string -> option nat) (rep : string)
    (skip : nat) (s : string) : string :=
  match s with
  | EmptyString => EmptyString
  | String c s' =>
      match skip with
      | S k => replace_from m rep k s'
      | O =>
          match m s with
          | Some (S k) => rep ++ replace_from m rep k s'
          | _ => String c (replace_from m rep O s')
          end
      end
  end.

Definition replace (m : string -> option nat) (rep s : string) : string :=
  replace_from m rep O s.

(** A pattern that is a plain string, as in [/&lt;br&gt;/g]. *)
Definition literal (p : string) (s : string) : option nat :=
  if String.prefix p s then Some (String.length p) else None.

(** A pattern that is a plain string under the [/i] flag; [p] in lower
    case. *)
Definition literal_ci (p : string) (s : string) : option nat :=
  if prefix_ci p s then Some (String.length p) else None.

(** A pattern that is one character class. *)
Definition one_of (p : ascii -> bool) (s : string) : option nat :=
  match s with
  | String c _ => if p c then Some 1 else None
  | EmptyString => None
  end.

(** [/\s+/]: a maximal run of whitespace. *)
Definition spaces (s : string) : option nat :=
  match span is_space s with
  | O => None
  | n => Some n
  end.

(** [/<script[^>]*>[\s\S]*?<\/script>/i]. After the opening literal the
    class [[^>]*] runs exactly to the first [>]; the lazy [[\s\S]*?] then
    stops at the first closing tag behind it. Without a [>] or without
    a closing tag nothing matches. *)
Definition script_block (s : string) : option nat :=
  if prefix_ci "<script" s then
    let r := drop 7 s in
    match find_char (Ascii.eqb ">") r with
    | None => None
    | Some i =>
        match find_ci "</script>" (drop (S i) r) with
        | None => None
        | Some j => Some (7 + S i + j + 9)
        end
    end
  else None.

(** [/on\w+\s*=/i]. Both quantifiers are greedy and the classes [\w],
    [\s] and [=] are disjoint, so the match, if any, takes the whole run
    of word characters and the whole run of whitespace. *)
Definition event_handler (s : string) : option nat :=
  if prefix_ci "on" s then
    let r := drop 2 s in
    match span is_word r with
    | O => None
    | w =>
        let r' := drop w r in
        let sp := span is_space r' in
        match drop sp r' with
        | String c _ =>
            if Ascii.eqb c "=" then Some (2 + w + sp + 1) else None
        | EmptyString => None
        end
    end
  else None.

Fixpoint trimStart (s : string) : string :=
  match s with
  | EmptyString => EmptyString
  | String c s' => if is_space c then trimStart s' else s
  end.

Fixpoint trimEnd (s : string) : string :=
  match s with
  | EmptyString => EmptyString
  | String c s' =>
      match trimEnd s' with
      | EmptyString => if is_space c then EmptyString else String c EmptyString
      | t => String c t
      end
  end.

(** [String.prototype.trim]. *)
Definition trim (s : string) : string := trimEnd (trimStart s).

(** Decimal rendering of an integer, as a template literal prints it. *)
Definition of_Z (z : Z) : string := NilZero.string_of_int (Z.to_int z).

(** [s.substring(0, n)]. *)
Definition take (n : nat) (s : string) : string := String.substring 0 n s.

Fixpoint join (sep : string) (l : list string) : string :=
  match l with
  | [] => EmptyString
  | [x] => x
  | x :: l' => x ++ sep ++ join sep l'
  end.

(** ** Predicates on strings used in the statements *)

(** Every character of [s] satisfies [p]. *)
Fixpoint every (p : ascii -> bool) (s : string) : bool :=
  match s with
  | EmptyString => true
  | String c s' => p c && every p s'
  end.

Definition starts_with_space (s : string) : bool :=
  match s with
  | String c _ => is_space c
  | EmptyString => false
  end.

Fixpoint ends_with_space (s : string) : bool :=
  match s with
  | EmptyString => false
  | String c s' =>
      match s' with
      | EmptyString => is_space c
      | _ => ends_with_space s'
      end
  end.

(** Every whitespace character of [s] is a blank that no whitespace
    follows. *)
Fixpoint single_spaced (s : string) : bool :=
  match s with
  | EmptyString => true
  | String c s' =>
      (if is_space c then Ascii.eqb c " " && negb (starts_with_space s')
       else true)
      && single_spaced s'
  end.

(** Whitespace in normal form: single blanks between other characters,
    none at either end. *)
Definition tidy (s : string) : bool :=
  single_spaced s && negb (starts_with_space s) && negb (ends_with_space s).

End JsString.

(** ** Results of a method *)

(** What a call ends in: a returned value or a thrown error. *)
Inductive completion (A : Type) : Type :=
| Return (a : A)
| Throw (message : string).
Arguments Return {A} a.
Arguments Throw {A} message.

(** [x || d] on strings: the empty string is falsy. *)
Definition str_or (x : option string) (d : string) : string :=
  match x with
  | Some (String c s) => String c s
  | _ => d
  end.

(** How a template literal prints an optional string. *)
Definition interpolate (x : option string) : string :=
  match x with
  | Some s => s
  | None => "undefined"
  end.

(** ** Guardrails ([src/guardrails/policies.js]) *)

Module Guardrails.

Record RateLimit := { requests : Z; window : Z }.

Record ContentModeration :=
  { blockExplicit : bool; blockViolence : bool; blockHateSpeech : bool }.

Record ResponsePolicies :=
  { noMedicalDiagnosis : bool; noLegalAdvice : bool;
    noFinancialAdvice : bool; citeSources : bool }.

Module Policies.
Record t :=
  { blockedTerms : list string;
    sensitiveTopics : list string;
    contentModeration : option ContentModeration;
    responsePolicies : option ResponsePolicies }.
End Policies.

(** The fields that the constructor sets on [this]. [requestCounts] is the
    [Map] from user id to the timestamps of that user's recorded requests,
    oldest first. *)
Record t :=
  { enabled : bool;
    blockedTerms : list string;
    sensitiveTopics : list string;
    maxQueryLength : Z;
    maxResponseLength : Z;
    rateLimit : option RateLimit;
    requestCounts : gmap string (list Z);
    policies : Policies.t }.

Definition set_requestCounts (g : t) (m : gmap string (list Z)) : t :=
  {| enabled := enabled g; blockedTerms := blockedTerms g;
     sensitiveTopics := sensitiveTopics g;
     maxQueryLength := maxQueryLength g;
     maxResponseLength := maxResponseLength g;
     rateLimit := rateLimit g; requestCounts := m;
     policies := policies g |}.

Definition getDefaultPolicies : Policies.t :=
  {| Policies.blockedTerms :=
       ["hack"; "exploit"; "malware"; "virus"; "phishing";
        "illegal"; "unlawful"; "harmful"; "dangerous"];
     Policies.sensitiveTopics :=
       ["medical advice"; "legal advice"; "financial advice";
        "personal information"; "private data"];
     Policies.contentModeration :=
       Some {| blockExplicit := true; blockViolence := true;
               blockHateSpeech := true |};
     Policies.responsePolicies :=
       Some {| noMedicalDiagnosis := true; noLegalAdvice := true;
               noFinancialAdvice := true; citeSources := true |} |}.

(** The argument of the constructor; [None] is a key that is absent. *)
Record Config :=
  { cfg_enabled : option bool;
    cfg_blockedTerms : option (list string);
    cfg_sensitiveTopics : option (list string);
    cfg_maxQueryLength : option Z;
    cfg_maxResponseLength : option Z;
    cfg_rateLimit : option RateLimit;
    cfg_policies : option Policies.t }.

(** [new Guardrails()]: every key absent. *)
Definition no_config : Config :=
  {| cfg_enabled := None; cfg_blockedTerms := None;
     cfg_sensitiveTopics := None; cfg_maxQueryLength := None;
     cfg_maxResponseLength := None; cfg_rateLimit := None;
     cfg_policies := None |}.

(** [x || d] on numbers: zero is falsy. *)
Definition num_or (x : option Z) (d : Z) : Z :=
  match x with
  | Some 0%Z | None => d
  | Some n => n
  end.

Definition constructor (config : Config) : t :=
  {| enabled := default true (cfg_enabled config);
     blockedTerms := default [] (cfg_blockedTerms config);
     sensitiveTopics := default [] (cfg_sensitiveTopics config);
     maxQueryLength := num_or (cfg_maxQueryLength config) 2000%Z;
     maxResponseLength := num_or (cfg_maxResponseLength config) 10000%Z;
     rateLimit := cfg_rateLimit config;
     requestCounts := ∅;
     policies := default getDefaultPolicies (cfg_policies config) |}.

(** The [warnings] of an allowed query; [warnedTopics] is its key
    [sensitiveTopics]. *)
Record Warnings := { warnedTopics : list string; message : string }.

(** The object that the three [validate...] methods return; a key that a
    branch leaves out is [None]. *)
Record Validation :=
  { allowed : bool;
    reason : option string;
    sanitized : option string;
    warnings : option Warnings }.

Definition sql_meta (c : ascii) : bool :=
  Ascii.eqb c "'" || Ascii.eqb c "034" || Ascii.eqb c ";" || Ascii.eqb c "\".

Definition sanitizeInput (text : string) : string :=
  match text with
  | EmptyString => EmptyString
  | _ =>
      let s1 := JsString.replace JsString.script_block "" text in
      let s2 := JsString.replace (JsString.literal_ci "javascript:") "" s1 in
      let s3 := JsString.replace JsString.event_handler "" s2 in
      let s4 := JsString.replace (JsString.one_of sql_meta) "" s3 in
      let s5 := JsString.replace JsString.spaces " " s4 in
      JsString.trim s5
  end.

Definition sanitizeOutput (text : string) : string :=
  match text with
  | EmptyString => EmptyString
  | _ =>
      let s1 := JsString.replace JsString.script_block "" text in
      let s2 := JsString.replace JsString.event_handler "" s1 in
      let s3 := JsString.replace (JsString.literal "<") "&lt;" s2 in
      let s4 := JsString.replace (JsString.literal ">") "&gt;" s3 in
      let s5 := JsString.replace (JsString.literal "&lt;br&gt;") "<br>" s4 in
      let s6 :=
        JsString.replace (JsString.literal "&lt;strong&gt;") "<strong>" s5 in
      let s7 :=
        JsString.replace (JsString.literal "&lt;/strong&gt;") "</strong>" s6 in
      let s8 := JsString.replace (JsString.literal "&lt;em&gt;") "<em>" s7 in
      let s9 := JsString.replace (JsString.literal "&lt;/em&gt;") "</em>" s8 in
      JsString.trim s9
  end.

(** [window / 1000] as the template literal prints it: the decimal
    expansion without trailing zeros. This is what JavaScript prints for
    every window below 10^15 milliseconds. *)
Definition seconds (w : Z) : string :=
  let a := Z.abs w in
  let frac := (a mod 1000)%Z in
  let digits :=
    if (frac mod 100 =? 0)%Z then JsString.of_Z (frac / 100)
    else if (frac mod 10 =? 0)%Z then
           JsString.of_Z (frac / 100) ++ JsString.of_Z (frac / 10 mod 10)
    else JsString.of_Z (frac / 100) ++ JsString.of_Z (frac / 10 mod 10)
         ++ JsString.of_Z (frac mod 10) in
  (if (w <? 0)%Z then "-" else "")
  ++ JsString.of_Z (a / 1000)
  ++ (if (frac =? 0)%Z then "" else "." ++ digits).

Definition lengthReason (max : Z) : string :=
  "Query exceeds maximum length of " ++ JsString.of_Z max ++ " characters".

Definition rateLimitReason (rl : RateLimit) : string :=
  "Rate limit exceeded. Maximum " ++ JsString.of_Z (requests rl)
  ++ " requests per " ++ seconds (window rl) ++ " seconds".

Definition blockedReason : string := "Query contains blocked content".

Definition sensitiveMessage : string :=
  "This query may involve sensitive topics. Responses are for informational purposes only.".

Definition rejected (why : string) (clean : option string) : Validation :=
  {| allowed := false; reason := Some why; sanitized := clean;
     warnings := None |}.

(** The timestamps of [userRequests] that are still inside the window
    at time [now]. *)
Definition recent (rl : RateLimit) (now : Z) (userRequests : list Z) : list Z :=
  List.filter (fun time => (now - time <? window rl)%Z) userRequests.

(** [validateQuery(query, userId = 'default')]; [now] is what [Date.now()]
    returns during the call. *)
Definition validateQuery (g : t) (query : string) (userId : option string)
    (now : Z) : Validation * t :=
  let userId := default "default" userId in
  if negb (enabled g) then
    ({| allowed := true; reason := None; sanitized := Some query;
        warnings := None |}, g)
  else if (Z.of_nat (String.length query) >? maxQueryLength g)%Z then
    (rejected (lengthReason (maxQueryLength g)) None, g)
  else
    let limited :=
      match rateLimit g with
      | None => inr g
      | Some rl =>
          let userRequests := default [] (requestCounts g !! userId) in
          let recentRequests := recent rl now userRequests in
          if (Z.of_nat (length recentRequests) >=? requests rl)%Z then
            inl (rateLimitReason rl)
          else
            inr (set_requestCounts g
                   (<[userId := (recentRequests ++ [now])%list]> (requestCounts g)))
      end in
    match limited with
    | inl why => (rejected why None, g)
    | inr g1 =>
        let sanitized := sanitizeInput query in
        let lowerQuery := JsString.toLowerCase sanitized in
        if existsb
             (fun term => JsString.includes lowerQuery (JsString.toLowerCase term))
             (blockedTerms g1)
        then (rejected blockedReason (Some sanitized), g1)
        else
          let sensitiveFound :=
            List.filter
              (fun topic =>
                 JsString.includes lowerQuery (JsString.toLowerCase topic))
              (sensitiveTopics g1) in
          ({| allowed := true; reason := None; sanitized := Some sanitized;
              warnings :=
                match sensitiveFound with
                | [] => None
                | _ => Some {| warnedTopics := sensitiveFound;
                               message := sensitiveMessage |}
                end |}, g1)
    end.

Definition responseLengthReason (max : Z) : string :=
  "Response exceeds maximum length of " ++ JsString.of_Z max ++ " characters".

(** [checkContentModeration]: the reason of the first rule that fires.
    An explicit-content term always blocks; a violence term blocks a text
    shorter than 500 characters. *)
Definition checkContentModeration (cm : ContentModeration) (text : string)
    : option string :=
  let lowerText := JsString.toLowerCase text in
  if blockExplicit cm
     && existsb (JsString.includes lowerText)
          ["explicit"; "nsfw"; "adult content"]
  then Some "Response contains inappropriate content"
  else if blockViolence cm
          && existsb
               (fun term =>
                  JsString.includes lowerText term
                  && Nat.ltb (String.length lowerText) 500)
               ["kill"; "murder"; "violence"; "harm"; "attack"]
  then Some "Response may contain violent content"
  else None.

Definition validateResponse (g : t) (response : string) : Validation :=
  if negb (enabled g) then
    {| allowed := true; reason := None; sanitized := Some response;
       warnings := None |}
  else if (Z.of_nat (String.length response) >? maxResponseLength g)%Z then
    rejected (responseLengthReason (maxResponseLength g)) None
  else
    let sanitized := sanitizeOutput response in
    let passed :=
      {| allowed := true; reason := None; sanitized := Some sanitized;
         warnings := None |} in
    match Policies.contentModeration (policies g) with
    | Some cm =>
        match checkContentModeration cm sanitized with
        | Some why => rejected why (Some sanitized)
        | None => passed
        end
    | None => passed
    end.

(** The warning sign that opens every disclaimer (U+26A0 U+FE0F). *)
Definition warningSign : string :=
  String "226" (String "154" (String "160"
    (String "239" (String "184" (String "143" EmptyString))))).

Definition newline : string := String "010" EmptyString.

Definition mentions (lowerQuery : string) (keywords : list string) : bool :=
  existsb (JsString.includes lowerQuery) keywords.

Definition applyResponsePolicies (g : t) (response query : string) : string :=
  match Policies.responsePolicies (policies g) with
  | None => response
  | Some rp =>
      let lowerQuery := JsString.toLowerCase query in
      let medical :=
        if noMedicalDiagnosis rp
           && mentions lowerQuery
                ["symptom"; "diagnosis"; "treatment"; "medical"]
        then [warningSign ++ " This is not medical advice. Consult a healthcare professional for medical concerns."]
        else [] in
      let legal :=
        if noLegalAdvice rp
           && mentions lowerQuery ["legal"; "law"; "lawsuit"; "attorney"]
        then [warningSign ++ " This is not legal advice. Consult a qualified attorney for legal matters."]
        else [] in
      let financial :=
        if noFinancialAdvice rp
           && mentions lowerQuery
                ["investment"; "stock"; "financial"; "trading"]
        then [warningSign ++ " This is not financial advice. Consult a financial advisor for investment decisions."]
        else [] in
      match (medical ++ legal ++ financial)%list with
      | [] => response
      | disclaimers =>
          response ++ newline ++ newline ++ JsString.join newline disclaimers
      end
  end.

(** [validateDocument(content).allowed]. *)
Definition validateDocument (g : t) (content : string) : bool :=
  if negb (enabled g) then true
  else
    let lowerContent := JsString.toLowerCase content in
    negb (existsb
            (fun term =>
               JsString.includes lowerContent (JsString.toLowerCase term))
            (blockedTerms g)).

(** ** The administration methods *)

Record Stats :=
  { stats_enabled : bool;
    blockedTermsCount : nat;
    sensitiveTopicsCount : nat;
    stats_rateLimit : option RateLimit;
    activeUsers : nat }.

Definition getStats (g : t) : Stats :=
  {| stats_enabled := enabled g;
     blockedTermsCount := length (blockedTerms g);
     sensitiveTopicsCount := length (sensitiveTopics g);
     stats_rateLimit := rateLimit g;
     activeUsers := size (requestCounts g) |}.

(** The argument of [updatePolicies]; [None] is a key that is absent (or
    [null]). *)
Record PolicyUpdate :=
  { new_blockedTerms : option (list string);
    new_sensitiveTopics : option (list string);
    new_rateLimit : option RateLimit }.

Definition updatePolicies (g : t) (newPolicies : PolicyUpdate) : t :=
  {| enabled := enabled g;
     blockedTerms :=
       match new_blockedTerms newPolicies with
       | Some terms => (blockedTerms g ++ terms)%list
       | None => blockedTerms g
       end;
     sensitiveTopics :=
       match new_sensitiveTopics newPolicies with
       | Some topics => (sensitiveTopics g ++ topics)%list
       | None => sensitiveTopics g
       end;
     maxQueryLength := maxQueryLength g;
     maxResponseLength := maxResponseLength g;
     rateLimit :=
       match new_rateLimit newPolicies with
       | Some rl => Some rl
       | None => rateLimit g
       end;
     requestCounts := requestCounts g;
     policies := policies g |}.

Definition resetRateLimit (g : t) (userId : string) : t :=
  set_requestCounts g (delete userId (requestCounts g)).

Definition clearRateLimits (g : t) : t := set_requestCounts g ∅.

(** ** Predicates on texts used in the statements *)

(** A character that none of the removal patterns of [sanitizeInput]
    needs: not [<], [:] or [=] and not a character of the class that the
    fourth pass removes. *)
Definition plain_char (c : ascii) : bool :=
  negb (Ascii.eqb c "<" || Ascii.eqb c ":" || Ascii.eqb c "=" || sql_meta c).

Definition angle (c : ascii) : bool := Ascii.eqb c "<" || Ascii.eqb c ">".

Definition no_angle (c : ascii) : bool := negb (angle c).

(** The formatting tags that [sanitizeOutput] restores. *)
Definition allowedTags : list string :=
  ["<br>"; "<strong>"; "</strong>"; "<em>"; "</em>"].

(** A text in which every angle bracket belongs to one of the restored
    tags. *)
Inductive safe_markup : string -> Prop :=
| safe_end : safe_markup EmptyString
| safe_char c s : angle c = false -> safe_markup s -> safe_markup (String c s)
| safe_tag tag s : In tag allowedTags -> safe_markup s -> safe_markup (tag ++ s).

End Guardrails.

(** ** The RAG engine (class [RAGEngine]) *)

Module RAGEngine.

Definition Vector := list Q.
Definition Metadata := list (string * string).
Definition History := list (string * string).

Record Document :=
  { doc_id : string;
    doc_content : string;
    doc_metadata : Metadata;
    vector : option Vector }.

(** The object spread [{...doc, vector}]. *)
Definition with_vector (doc : Document) (v : Vector) : Document :=
  {| doc_id := doc_id doc; doc_content := doc_content doc;
     doc_metadata := doc_metadata doc; vector := Some v |}.

Record RetrievalResult :=
  { id : string; content : string; metadata : Metadata; score : Q }.

(** One [{id, score}] pair of [findSimilar]. *)
Record Similarity := { sim_id : string; sim_score : Q }.

(** Modelled from the spec: the base class of the data sources is missing
    from the sources. Of the capabilities that section 6 lists, the engine
    code studied here uses [getDocuments()] and [search(query, limit)]. *)
Record DataSource :=
  { getDocuments : list Document;
    search : string -> nat -> list RetrievalResult }.

(** Modelled from the spec: the embeddings class is missing from the
    sources; section 6 lists its capabilities. [corpus] is the text set
    from which the vocabulary was last built; [embedWith] is the
    text-to-vector function under a given vocabulary, deterministic as
    section 4.1 says; [findSimilar] is the ranking method. *)
Record Embeddings :=
  { corpus : list string;
    embedWith : list string -> string -> Vector;
    findSimilar : Vector -> list Document -> nat -> list Similarity }.

Definition embed (emb : Embeddings) (text : string) : Vector :=
  embedWith emb (corpus emb) text.

Definition buildVocabulary (emb : Embeddings) (texts : list string) : Embeddings :=
  {| corpus := texts; embedWith := embedWith emb;
     findSimilar := findSimilar emb |}.

Record GenerationOptions :=
  { history : option History;
    systemPrompt : option string;
    temperature : option Q }.

(** Modelled from the spec: the generation backend is missing from the
    sources; of the capabilities that section 6 lists, [query] uses
    [generateResponse]. *)
Record LLM :=
  { model : string;
    generateResponse :
      string -> list RetrievalResult -> GenerationOptions -> string }.

(** ** [documentVectors]: a [Map] in insertion order *)

Definition Index := list (string * Document).

(** [Map.prototype.set]: an existing key keeps its place. *)
Fixpoint map_set (k : string) (v : Document) (m : Index) : Index :=
  match m with
  | [] => [(k, v)]
  | (k', v') :: m' =>
      if String.eqb k k' then (k, v) :: m' else (k', v') :: map_set k v m'
  end.

Fixpoint map_get (k : string) (m : Index) : option Document :=
  match m with
  | [] => None
  | (k', v) :: m' => if String.eqb k k' then Some v else map_get k m'
  end.

Definition map_values (m : Index) : list Document := List.map snd m.
Definition map_keys (m : Index) : list string := List.map fst m.

Record t :=
  { dataSource : DataSource;
    llm : LLM;
    embeddings : option Embeddings;
    guardrails : option Guardrails.t;
    topK : nat;
    similarityThreshold : Q;
    smartRouting : bool;
    routingThreshold : Q;
    documentVectors : Index;
    initialized : bool }.

Definition set_index (e : t) (emb : option Embeddings) (m : Index) : t :=
  {| dataSource := dataSource e; llm := llm e; embeddings := emb;
     guardrails := guardrails e; topK := topK e;
     similarityThreshold := similarityThreshold e;
     smartRouting := smartRouting e;
     routingThreshold := routingThreshold e;
     documentVectors := m; initialized := initialized e |}.

Definition set_dataSource (e : t) (ds : DataSource) : t :=
  {| dataSource := ds; llm := llm e; embeddings := embeddings e;
     guardrails := guardrails e; topK := topK e;
     similarityThreshold := similarityThreshold e;
     smartRouting := smartRouting e;
     routingThreshold := routingThreshold e;
     documentVectors := documentVectors e; initialized := initialized e |}.

Definition set_guardrails (e : t) (g : Guardrails.t) : t :=
  {| dataSource := dataSource e; llm := llm e; embeddings := embeddings e;
     guardrails := Some g; topK := topK e;
     similarityThreshold := similarityThreshold e;
     smartRouting := smartRouting e;
     routingThreshold := routingThreshold e;
     documentVectors := documentVectors e; initialized := initialized e |}.

(** The argument of the constructor; [None] is a key that is absent. *)
Record Config :=
  { cfg_dataSource : DataSource;
    cfg_llm : LLM;
    cfg_embeddings : option Embeddings;
    cfg_guardrails : option Guardrails.t;
    cfg_topK : option nat;
    cfg_similarityThreshold : option Q;
    cfg_smartRouting : option bool;
    cfg_routingThreshold : option Q }.

(** [x || d] on counts and on scores: zero is falsy. *)
Definition nat_or (x : option nat) (d : nat) : nat :=
  match x with
  | Some (S n) => S n
  | _ => d
  end.

Definition Q_or (x : option Q) (d : Q) : Q :=
  match x with
  | Some q => if Qeq_bool q 0 then d else q
  | None => d
  end.

Definition constructor (config : Config) : t :=
  {| dataSource := cfg_dataSource config;
     llm := cfg_llm config;
     embeddings := cfg_embeddings config;
     guardrails := cfg_guardrails config;
     topK := nat_or (cfg_topK config) 10;
     similarityThreshold := Q_or (cfg_similarityThreshold config) (15 # 100)%Q;
     smartRouting := default true (cfg_smartRouting config);
     routingThreshold := Q_or (cfg_routingThreshold config) (25 # 100)%Q;
     documentVectors := [];
     initialized := false |}.

(** [buildVectorIndex]: every document of the data source is embedded and
    stored under its id. The map is not emptied first. *)
Definition buildVectorIndex (e : t) : completion t :=
  match embeddings e with
  | None => Throw "TypeError: Cannot read properties of undefined (reading 'embed')"
  | Some emb =>
      Return
        (set_index e (Some emb)
           (fold_left
              (fun m doc =>
                 map_set (doc_id doc)
                   (with_vector doc (embed emb (doc_content doc))) m)
              (getDocuments (dataSource e))
              (documentVectors e)))
  end.

Definition set_initialized (e : t) (b : bool) : t :=
  {| dataSource := dataSource e; llm := llm e; embeddings := embeddings e;
     guardrails := guardrails e; topK := topK e;
     similarityThreshold := similarityThreshold e;
     smartRouting := smartRouting e;
     routingThreshold := routingThreshold e;
     documentVectors := documentVectors e; initialized := b |}.

Definition set_llm (e : t) (backend : LLM) : t :=
  {| dataSource := dataSource e; llm := backend; embeddings := embeddings e;
     guardrails := guardrails e; topK := topK e;
     similarityThreshold := similarityThreshold e;
     smartRouting := smartRouting e;
     routingThreshold := routingThreshold e;
     documentVectors := documentVectors e; initialized := initialized e |}.

(** [initialize], for an engine that was given its data source and its
    generation backend (it refuses any other). The embeddings are
    initialized from the texts of the documents, which is taken to build
    their vocabulary, then the index is built. Initializing the two
    collaborators leaves the engine as it is. *)
Definition initialize (e : t) : completion t :=
  match embeddings e with
  | Some emb =>
      let texts := List.map doc_content (getDocuments (dataSource e)) in
      match buildVectorIndex
              (set_index e (Some (buildVocabulary emb texts))
                 (documentVectors e)) with
      | Return e1 => Return (set_initialized e1 true)
      | Throw m => Throw m
      end
  | None => Return (set_initialized e true)
  end.

(** [refresh]. [reloaded] is the data source as [loadDocuments()] leaves
    it. *)
Definition refresh (e : t) (reloaded : DataSource) : completion t :=
  let e1 := set_dataSource e reloaded in
  match embeddings e1 with
  | Some emb =>
      let texts := List.map doc_content (getDocuments reloaded) in
      buildVectorIndex
        (set_index e1 (Some (buildVocabulary emb texts)) (documentVectors e1))
  | None => Return e1
  end.

Definition result_of (doc : Document) (s : Q) : RetrievalResult :=
  {| id := doc_id doc; content := doc_content doc;
     metadata := doc_metadata doc; score := s |}.

(** The two loops of [retrieveByVector] push the document of each selected
    pair onto [results]; [keep] is the condition of the loop. Reading a
    field of an id that the map lacks throws. *)
Fixpoint gather (index : Index)
    (keep : Similarity -> list RetrievalResult -> bool)
    (similarities : list Similarity) (results : list RetrievalResult)
    : completion (list RetrievalResult) :=
  match similarities with
  | [] => Return results
  | s :: rest =>
      if keep s results then
        match map_get (sim_id s) index with
        | Some doc =>
            gather index keep rest (results ++ [result_of doc (sim_score s)])%list
        | None =>
            Throw "TypeError: Cannot read properties of undefined (reading 'id')"
        end
      else gather index keep rest results
  end.

Definition retrieveByVector (e : t) (query : string) (topK : nat)
    : completion (list RetrievalResult) :=
  match embeddings e with
  | None => Throw "TypeError: Cannot read properties of undefined (reading 'embed')"
  | Some emb =>
      let queryVector := embed emb query in
      let documents := map_values (documentVectors e) in
      let similarities := findSimilar emb queryVector documents (topK * 2) in
      let passes (s : Similarity) (results : list RetrievalResult) :=
        Qle_bool (similarityThreshold e) (sim_score s)
        && Nat.ltb (length results) topK in
      match gather (documentVectors e) passes similarities [] with
      | Throw m => Throw m
      | Return [] =>
          match similarities with
          | [] => Return []
          | _ =>
              gather (documentVectors e) (fun _ _ => true)
                (firstn topK similarities) []
          end
      | Return results => Return results
      end
  end.

Definition retrieve (e : t) (query : string) (topK : nat)
    : completion (list RetrievalResult) :=
  match embeddings e with
  | Some _ =>
      if Nat.ltb 0 (length (documentVectors e))
      then retrieveByVector e query topK
      else Return (search (dataSource e) query topK)
  | None => Return (search (dataSource e) query topK)
  end.

(** [retrievedDocs[0]?.score || 0]. *)
Definition firstScore (retrievedDocs : list RetrievalResult) : Q :=
  match retrievedDocs with
  | d :: _ => if Qeq_bool (score d) 0 then 0%Q else score d
  | [] => 0%Q
  end.

(** [retrievedDocs.reduce((sum, d) => sum + d.score, 0) / retrievedDocs.length]. *)
Definition averageScore (retrievedDocs : list RetrievalResult) : Q :=
  (fold_left (fun sum d => sum + score d) retrievedDocs 0
   / inject_Z (Z.of_nat (length retrievedDocs)))%Q.

Definition Qlt_bool (a b : Q) : bool := negb (Qle_bool b a).

Module RoutingDecision.
Record t :=
  { useRAG : bool;
    reason : string;
    topScore : option Q;
    avgScore : option Q;
    docs : list RetrievalResult }.
End RoutingDecision.

Definition routeQuery (e : t) (query : string)
    : completion RoutingDecision.t :=
  match retrieve e query (topK e) with
  | Throw m => Throw m
  | Return retrievedDocs =>
      match retrievedDocs with
      | [] =>
          Return {| RoutingDecision.useRAG := false;
                    RoutingDecision.reason := "no_documents";
                    RoutingDecision.topScore := None;
                    RoutingDecision.avgScore := None;
                    RoutingDecision.docs := [] |}
      | _ =>
          let topScore := firstScore retrievedDocs in
          let avgScore := averageScore retrievedDocs in
          if Qlt_bool topScore (routingThreshold e) then
            Return {| RoutingDecision.useRAG := false;
                      RoutingDecision.reason := "low_relevance";
                      RoutingDecision.topScore := Some topScore;
                      RoutingDecision.avgScore := Some avgScore;
                      RoutingDecision.docs := retrievedDocs |}
          else
            Return {| RoutingDecision.useRAG := true;
                      RoutingDecision.reason := "relevant_content";
                      RoutingDecision.topScore := Some topScore;
                      RoutingDecision.avgScore := Some avgScore;
                      RoutingDecision.docs := retrievedDocs |}
      end
  end.

(** ** [query] *)

Module RoutingInfo.
Record t := { topScore : Q; avgScore : Q; docCount : nat }.
End RoutingInfo.

Module Source.
Record t :=
  { id : string;
    content : string;
    preview : string;
    metadata : Metadata;
    score : Q }.
End Source.

Module Options.
Record t :=
  { topK : option nat;
    mode : option string;
    systemPrompt : option string;
    userId : option string;
    history : option History;
    temperature : option Q }.
End Options.

(** The object that [query] returns; a key that a branch leaves out is
    [None]. *)
Module QueryResult.
Record t :=
  { answer : string;
    sources : list Source.t;
    query : string;
    mode : string;
    routing : option RoutingInfo.t;
    blocked : option bool;
    reason : option string;
    warnings : option Guardrails.Warnings }.
End QueryResult.

(** The arguments of one call of [llm.generateResponse]. *)
Record LLMCall :=
  { call_query : string;
    call_context : list RetrievalResult;
    call_options : GenerationOptions }.

(** What one call of [query] does: how it ends, the engine it leaves (the
    rate-limit map of the guardrails may have changed), and the calls of
    the generation backend it made, in order. *)
Record Run :=
  { outcome : completion QueryResult.t;
    after : t;
    llmCalls : list LLMCall }.

Definition dq : string := String "034" EmptyString.

Definition getDirectLLMPrompt : string :=
  JsString.join Guardrails.newline
    ["You are a helpful AI assistant. Answer the user's question to the best of your knowledge.";
     "If you don't know something, say so. Be concise and accurate."].

Definition getHybridPrompt : string :=
  JsString.join Guardrails.newline
    ["You are a knowledgeable AI assistant. You MUST follow this EXACT response format:";
     "";
     "**REQUIRED FORMAT:**";
     "";
     "From your data:";
     "[Quote relevant information from the provided context. Use quotation marks for direct quotes. Cite the source if available.]";
     "";
     "Additional information:";
     "[Add your own knowledge to expand on the topic. Provide useful context, examples, or explanations that go beyond what's in the data.]";
     "";
     "**RULES:**";
     "- ALWAYS use both sections " ++ dq ++ "From your data:" ++ dq
       ++ " and " ++ dq ++ "Additional information:" ++ dq
       ++ " in your response";
     "- The " ++ dq ++ "From your data:" ++ dq
       ++ " section MUST contain quotes or paraphrased content from the context provided";
     "- The " ++ dq ++ "Additional information:" ++ dq
       ++ " section MUST add value beyond just the context";
     "- If the context is not relevant, say " ++ dq
       ++ "No directly relevant information found in your data" ++ dq
       ++ " then provide general knowledge";
     "- Be comprehensive and helpful"].

Definition routingInfoOf (retrievedDocs : list RetrievalResult)
    : RoutingInfo.t :=
  {| RoutingInfo.topScore := firstScore retrievedDocs;
     RoutingInfo.avgScore :=
       match retrievedDocs with
       | [] => 0%Q
       | _ => averageScore retrievedDocs
       end;
     RoutingInfo.docCount := length retrievedDocs |}.

(** The [switch] on the mode, entered when the caller gave no prompt of
    its own: the system prompt, the retrieved documents and the mode it
    leaves. *)
Definition selectPrompt (e : t) (options : Options.t) (mode : string)
    (retrievedDocs : list RetrievalResult)
    (routingInfo : option RoutingInfo.t)
    : option string * list RetrievalResult * string :=
  match Options.systemPrompt options with
  | Some (String c p) => (Some (String c p), retrievedDocs, mode)
  | _ =>
      if String.eqb mode "hybrid" then
        (Some getHybridPrompt, retrievedDocs, mode)
      else if String.eqb mode "rag" then (None, retrievedDocs, mode)
      else if String.eqb mode "llm" then (Some getDirectLLMPrompt, [], mode)
      else
        match routingInfo with
        | Some info =>
            if Qle_bool (routingThreshold e) (RoutingInfo.topScore info)
            then (Some getHybridPrompt, retrievedDocs, "hybrid")
            else (Some getDirectLLMPrompt, retrievedDocs, "llm")
        | None => (Some getDirectLLMPrompt, retrievedDocs, "llm")
        end
  end.

Definition source_of (doc : RetrievalResult) : Source.t :=
  {| Source.id := id doc;
     Source.content := content doc;
     Source.preview :=
       JsString.take 200 (content doc)
       ++ (if Nat.ltb 200 (String.length (content doc)) then "..." else "");
     Source.metadata := metadata doc;
     Source.score := score doc |}.

Definition query (e : t) (query : string) (options : Options.t) (now : Z)
    : Run :=
  if negb (initialized e) then
    {| outcome := Throw "RAG engine not initialized. Call initialize() first.";
       after := e; llmCalls := [] |}
  else
    let topK := nat_or (Options.topK options) (topK e) in
    let requestedMode := str_or (Options.mode options) "hybrid" in
    let retrieved :=
      if negb (String.eqb requestedMode "llm") then
        match retrieve e query topK with
        | Return docs => Return (docs, Some (routingInfoOf docs))
        | Throw m => Throw m
        end
      else Return ([], None) in
    match retrieved with
    | Throw m => {| outcome := Throw m; after := e; llmCalls := [] |}
    | Return (retrievedDocs0, routingInfo) =>
        let '(systemPrompt, retrievedDocs, mode) :=
          selectPrompt e options requestedMode retrievedDocs0 routingInfo in
        let validated :=
          match guardrails e with
          | None =>
              ({| Guardrails.allowed := true; Guardrails.reason := None;
                  Guardrails.sanitized := Some query;
                  Guardrails.warnings := None |}, e, query)
          | Some g =>
              let '(validation, g') :=
                Guardrails.validateQuery g query (Options.userId options) now in
              (validation, set_guardrails e g',
               interpolate (Guardrails.sanitized validation))
          end in
        let '(validation, e', cleanQuery) := validated in
        if negb (Guardrails.allowed validation) then
          {| outcome :=
               Return
                 {| QueryResult.answer :=
                      "I cannot process this query: "
                      ++ interpolate (Guardrails.reason validation);
                    QueryResult.sources := [];
                    QueryResult.query :=
                      str_or (Guardrails.sanitized validation) query;
                    QueryResult.mode := mode;
                    QueryResult.routing := routingInfo;
                    QueryResult.blocked := Some true;
                    QueryResult.reason := Guardrails.reason validation;
                    QueryResult.warnings := None |};
             after := e'; llmCalls := [] |}
        else
          let filteredDocs :=
            match guardrails e' with
            | Some g =>
                List.filter
                  (fun doc => Guardrails.validateDocument g (content doc))
                  retrievedDocs
            | None => retrievedDocs
            end in
          let call :=
            {| call_query := cleanQuery;
               call_context :=
                 if String.eqb mode "llm" then [] else filteredDocs;
               call_options :=
                 {| history := Options.history options;
                    systemPrompt := systemPrompt;
                    temperature := Options.temperature options |} |} in
          let answer :=
            generateResponse (llm e') (call_query call) (call_context call)
              (call_options call) in
          let finalAnswer :=
            match guardrails e' with
            | Some g =>
                let responseValidation := Guardrails.validateResponse g answer in
                if negb (Guardrails.allowed responseValidation) then
                  "Response blocked: "
                  ++ interpolate (Guardrails.reason responseValidation)
                else
                  Guardrails.applyResponsePolicies g
                    (interpolate (Guardrails.sanitized responseValidation))
                    cleanQuery
            | None => answer
            end in
          {| outcome :=
               Return
                 {| QueryResult.answer := finalAnswer;
                    QueryResult.sources := List.map source_of filteredDocs;
                    QueryResult.query :=
                      str_or (Guardrails.sanitized validation) cleanQuery;
                    QueryResult.mode := mode;
                    QueryResult.routing := routingInfo;
                    QueryResult.blocked := None;
                    QueryResult.reason := None;
                    QueryResult.warnings := Guardrails.warnings validation |};
             after := e'; llmCalls := [call] |}
    end.

(** ** The other methods of the engine *)

(** [addDocument]. [id] is what [dataSource.addDocument(document)]
    returns and [stored] is the data source as that call leaves it. *)
Definition addDocument (e : t) (document : Document) (stored : DataSource)
    (id : string) : t * string :=
  let e1 := set_dataSource e stored in
  match embeddings e1 with
  | Some emb =>
      (set_index e1 (Some emb)
         (map_set id
            {| doc_id := id; doc_content := doc_content document;
               doc_metadata := doc_metadata document;
               vector := Some (embed emb (doc_content document)) |}
            (documentVectors e1)),
       id)
  | None => (e1, id)
  end.



(** [close]; closing the data source leaves the engine as it is. *)
Definition close (e : t) : t := set_initialized e false.


(** The source that [queryStream] shows for a retrieved document: its
    content cut to a preview. *)
Definition stream_source_of (doc : RetrievalResult) : RetrievalResult :=
  {| id := id doc;
     content :=
       JsString.take 200 (content doc)
       ++ (if Nat.ltb 200 (String.length (content doc)) then "..." else "");
     metadata := metadata doc;
     score := score doc |}.


End RAGEngine.

(** ** The local embeddings *)

Module LocalEmbeddings.
Import RAGEngine.

(** Modelled from the spec: the class [LocalEmbeddings] is missing from
    the sources. Section 4.1 says that [findSimilar] "ranks candidates by
    cosine similarity descending [...]; ties broken by candidate order".
    [insert_ranked] puts a candidate in front of the first ranked pair
    that does not score strictly higher. *)
Fixpoint insert_ranked (x : Similarity) (ranked : list Similarity)
    : list Similarity :=
  match ranked with
  | [] => [x]
  | y :: ranked' =>
      if Qle_bool (sim_score y) (sim_score x) then x :: y :: ranked'
      else y :: insert_ranked x ranked'
  end.

(** Modelled from the spec: the ranking of [findSimilar] (section 4.1),
    missing from the sources; a stable sort by score, best first. *)
Definition rank (pairs : list Similarity) : list Similarity :=
  fold_right insert_ranked [] pairs.

(** Modelled from the spec: [LocalEmbeddings.findSimilar] is missing from
    the sources. Section 4.1: "findSimilar(queryVector, candidates, k)
    ranks candidates by cosine similarity descending and returns k
    {id, score} pairs; ties broken by candidate order". The cosine of two
    vectors is a parameter. *)
Definition findSimilar (cosineSimilarity : Vector -> Vector -> Q)
    (queryVector : Vector) (candidates : list Document) (k : nat)
    : list Similarity :=
  firstn k
    (rank
       (List.map
          (fun doc =>
             {| sim_id := doc_id doc;
                sim_score :=
                  cosineSimilarity queryVector (default [] (vector doc)) |})
          candidates)).

(** Modelled from the spec: an embeddings object as section 6 lists its
    capabilities, missing from the sources; the text-to-vector function
    and the cosine are parameters. *)
Definition make (embedWith : list string -> string -> Vector)
    (cosineSimilarity : Vector -> Vector -> Q) (texts : list string)
    : Embeddings :=
  {| corpus := texts; embedWith := embedWith;
     RAGEngine.findSimilar := findSimilar cosineSimilarity |}.

End LocalEmbeddings.

(** ** Contracts of the collaborators and drivers *)

Module Contracts.
Import RAGEngine.

(** Results in ranking order: no result scores higher than one before
    it. *)
Definition by_score (a b : RetrievalResult) : Prop := (score b <= score a)%Q.
Definition by_sim_score (a b : Similarity) : Prop :=
  (sim_score b <= sim_score a)%Q.

(** Modelled from the spec: [LocalEmbeddings.findSimilar] is missing from
    the sources. What section 4.1 says of it, as the engine relies on it:
    the pairs are ranked best first, each names a candidate, and there are
    [k] of them, or as many as there are candidates. *)
Record FindSimilarContract (emb : Embeddings) : Prop :=
  { ranked :
      forall qv candidates k,
        StronglySorted by_sim_score (findSimilar emb qv candidates k);
    names_candidates :
      forall qv candidates k s,
        In s (findSimilar emb qv candidates k) ->
        In (sim_id s) (List.map doc_id candidates);
    returns_k :
      forall qv candidates k,
        length (findSimilar emb qv candidates k)
        = Nat.min k (length candidates) }.

(** What the engine expects of the native search of a data source, an
    external collaborator: it honours its limit and ranks its results best
    first. *)
Definition SearchContract (ds : DataSource) : Prop :=
  forall query limit,
    (length (search ds query limit) <= limit)%nat
    /\ StronglySorted by_score (search ds query limit).

(** Every entry of the index is stored under the id of its document, as
    [buildVectorIndex] and [addDocument] store it. *)
Definition index_consistent (m : Index) : Prop :=
  Forall (fun entry => doc_id (snd entry) = fst entry) m.

(** The result that [retrieveByVector] pushes for the pair [s]: the
    document stored under the id of the pair, with the score of the pair. *)
Definition drawn (m : Index) (s : Similarity) (r : RetrievalResult) : Prop :=
  exists doc, map_get (sim_id s) m = Some doc /\ r = result_of doc (sim_score s).

(** One round of the loop of [buildVectorIndex]. *)
Definition store (emb : Embeddings) (m : Index) (doc : Document) : Index :=
  map_set (doc_id doc) (with_vector doc (embed emb (doc_content doc))) m.

(** The arithmetic mean of a list of scores. *)
Definition mean (scores : list Q) : Q :=
  (fold_right Qplus 0 scores / inject_Z (Z.of_nat (length scores)))%Q.

(** The last of the documents that carry the id [k]: the one that the
    loop of [buildVectorIndex] leaves under that id. *)
Fixpoint latest (k : string) (documents : list Document) : option Document :=
  match documents with
  | [] => None
  | doc :: rest =>
      match latest k rest with
      | Some later => Some later
      | None => if String.eqb k (doc_id doc) then Some doc else None
      end
  end.

(** The entry of the index for the id [k] once the documents are stored
    over the index [m] with the embeddings [emb]. *)
Definition stored_entry (emb : Embeddings) (documents : list Document)
    (m : Index) (k : string) : option Document :=
  match latest k documents with
  | Some doc => Some (with_vector doc (embed emb (doc_content doc)))
  | None => map_get k m
  end.

End Contracts.

Module Calls.
Import Guardrails.

(** One call of [validateQuery]. *)
Record Call := { caller : option string; text : string; at_time : Z }.

Definition user_of (c : Call) : string := default "default" (caller c).

(** The calls of a trace, made one after the other on the same object:
    the result of each and the object they leave. *)
Fixpoint validateQueries (g : t) (calls : list Call) : list Validation * t :=
  match calls with
  | [] => ([], g)
  | c :: rest =>
      let '(v, g1) := validateQuery g (text c) (caller c) (at_time c) in
      let '(vs, g2) := validateQueries g1 rest in
      (v :: vs, g2)
  end.

(** The calls of [user] in a trace. *)
Definition calls_of (user : string) (calls : list Call) : list Call :=
  List.filter (fun c => String.eqb (user_of c) user) calls.

(** The timestamps recorded for [user]. *)
Definition recorded (g : t) (user : string) : list Z :=
  default [] (requestCounts g !! user).

(** The query of the call passes the length check. *)
Definition fits (g : t) (c : Call) : Prop :=
  (Z.of_nat (String.length (text c)) <= maxQueryLength g)%Z.

(** The times of the calls of [user] in a trace, in order. *)
Definition times (user : string) (calls : list Call) : list Z :=
  List.map at_time (calls_of user calls).

(** Each recorded timestamp lies a full window or more before each of
    the times [ts]. *)
Definition expired (rl : RateLimit) (ts : list Z) (l : list Z) : Prop :=
  Forall (fun s => Forall (fun t => (window rl <= t - s)%Z) ts) l.

(** Each recorded timestamp lies less than a window before each of the
    times [ts]. *)
Definition live (rl : RateLimit) (ts : list Z) (l : list Z) : Prop :=
  Forall (fun s => Forall (fun t => (t - s < window rl)%Z) ts) l.

(** The times form a burst: each lies less than a window after every
    earlier one. *)
Definition burst (rl : RateLimit) (ts : list Z) : Prop :=
  ForallOrdPairs (fun a b => (b - a < window rl)%Z) ts.

(** Each time lies more than a window after the one before it. *)
Definition spaced (rl : RateLimit) (ts : list Z) : Prop :=
  Sorted (fun a b => (window rl < b - a)%Z) ts.

Definition throttled (rl : RateLimit) (v : Validation) : Prop :=
  allowed v = false /\ reason v = Some (rateLimitReason rl).

(** None of the calls of [user] in the trace is throttled; [vs] are the
    results of the calls. *)
Definition unthrottled (rl : RateLimit) (user : string)
    (calls : list Call) (vs : list Validation) : Prop :=
  Forall2 (fun c v => user_of c = user -> ~ throttled rl v) calls vs.

(** The three ways through [validateQuery] when the guardrails are
    enabled and a rate limit is configured: the length check, the rate
    limiter, and behind them the sanitizer with the term tables. *)
Inductive step (g : t) (rl : RateLimit) (q : string) (user : string) (now : Z)
        : Validation -> t -> Prop :=
| step_too_long :
    (Z.of_nat (String.length q) > maxQueryLength g)%Z ->
    step g rl q user now (rejected (lengthReason (maxQueryLength g)) None) g
| step_throttled :
    (Z.of_nat (String.length q) <= maxQueryLength g)%Z ->
    (Z.of_nat (length (recent rl now (recorded g user))) >= requests rl)%Z ->
    step g rl q user now (rejected (rateLimitReason rl) None) g
| step_recorded v :
    (Z.of_nat (String.length q) <= maxQueryLength g)%Z ->
    (Z.of_nat (length (recent rl now (recorded g user))) < requests rl)%Z ->
    (allowed v = true /\ reason v = None
     \/ v = rejected blockedReason (Some (sanitizeInput q))
        /\ existsb
             (fun term =>
                JsString.includes (JsString.toLowerCase (sanitizeInput q))
                  (JsString.toLowerCase term))
             (blockedTerms g) = true) ->
    step g rl q user now v
      (set_requestCounts g
         (<[user := (recent rl now (recorded g user) ++ [now])%list]>
            (requestCounts g))).

(** No user of the map has more than [requests rl] recorded timestamps. *)
Definition within (rl : RateLimit) (m : gmap string (list Z)) : Prop :=
  map_Forall (fun _ l => (Z.of_nat (length l) <= requests rl)%Z) m.

End Calls.

(** ** Concrete objects for the examples *)

Module Examples.
Import Guardrails Calls.

(** Guardrails with one blocked term, queries of at most 40 characters
    and two requests per second. *)
Definition strict : Guardrails.t :=
  constructor
    {| cfg_enabled := None; cfg_blockedTerms := Some ["malware"];
       cfg_sensitiveTopics := None; cfg_maxQueryLength := Some 40%Z;
       cfg_maxResponseLength := None;
       cfg_rateLimit := Some {| requests := 2; window := 1000 |};
       cfg_policies := None |}.

Definition call (q : string) (now : Z) : Call :=
  {| caller := None; text := q; at_time := now |}.


(** Guardrails with queries of at most 10 characters and one request per
    second. *)
Definition single : Guardrails.t :=
  constructor
    {| cfg_enabled := None; cfg_blockedTerms := None;
       cfg_sensitiveTopics := None; cfg_maxQueryLength := Some 10%Z;
       cfg_maxResponseLength := None;
       cfg_rateLimit := Some {| requests := 1; window := 1000 |};
       cfg_policies := None |}.


Definition doc (i c : string) : RAGEngine.Document :=
  {| RAGEngine.doc_id := i; RAGEngine.doc_content := c;
     RAGEngine.doc_metadata := []; RAGEngine.vector := None |}.

Definition doc1 : RAGEngine.Document :=
  doc "doc1" "Machine Learning lets programs learn from data".
Definition doc2 : RAGEngine.Document :=
  doc "doc2" "Deep Learning stacks layers of neurons".
Definition doc3 : RAGEngine.Document :=
  doc "doc3" "NLP is about human language".

Definition corpus : list RAGEngine.Document := [doc1; doc2; doc3].

(** A stand-in for the text-to-vector function: one coordinate per
    keyword, 1 when the text mentions it. *)
Definition keywordVector (_ : list string) (text : string) : RAGEngine.Vector :=
  List.map
    (fun k => if JsString.includes (JsString.toLowerCase text) k then 1%Q else 0%Q)
    ["machine"; "learning"; "deep"; "language"].

(** A stand-in for the cosine: the share of the four coordinates on which
    both vectors are set. *)
Fixpoint overlap (a b : RAGEngine.Vector) : Q :=
  match a, b with
  | x :: a', y :: b' => (x * y * (1 # 4) + overlap a' b')%Q
  | _, _ => 0%Q
  end.

Definition embeddings : RAGEngine.Embeddings :=
  LocalEmbeddings.make keywordVector overlap [].

Definition source (documents : list RAGEngine.Document) : RAGEngine.DataSource :=
  {| RAGEngine.getDocuments := documents;
     RAGEngine.search := fun _ _ => [] |}.

Fixpoint repeated (c : ascii) (n : nat) : string :=
  match n with
  | O => EmptyString
  | S n' => String c (repeated c n')
  end.

Definition terse : RAGEngine.LLM :=
  {| RAGEngine.model := "llama-3.3-70b-versatile";
     RAGEngine.generateResponse :=
       fun _ _ _ => "Machine learning is the study of programs that learn." |}.

(** A backend whose every response has 11,000 characters. *)
Definition verbose : RAGEngine.LLM :=
  {| RAGEngine.model := "llama-3.3-70b-versatile";
     RAGEngine.generateResponse := fun _ _ _ => repeated "a" (11 * 1000) |}.

Definition fresh (backend : RAGEngine.LLM) (g : option Guardrails.t)
    (documents : list RAGEngine.Document) : RAGEngine.t :=
  RAGEngine.constructor
    {| RAGEngine.cfg_dataSource := source documents;
       RAGEngine.cfg_llm := backend;
       RAGEngine.cfg_embeddings := Some embeddings;
       RAGEngine.cfg_guardrails := g;
       RAGEngine.cfg_topK := Some 2;
       RAGEngine.cfg_similarityThreshold := None;
       RAGEngine.cfg_smartRouting := None;
       RAGEngine.cfg_routingThreshold := None |}.

(** The engine after [initialize()]; the constructed engine if that
    throws. *)
Definition started (backend : RAGEngine.LLM) (g : option Guardrails.t)
    (documents : list RAGEngine.Document) : RAGEngine.t :=
  match RAGEngine.initialize (fresh backend g documents) with
  | Return e => e
  | Throw _ => fresh backend g documents
  end.

Definition engine : RAGEngine.t :=
  started terse (Some (Guardrails.constructor Guardrails.no_config)) corpus.

(** The same engine behind the guardrails [strict]. *)
Definition guarded : RAGEngine.t :=
  started terse (Some strict) corpus.

(** The same engine with the backend [verbose]. *)
Definition wordy : RAGEngine.t :=
  started verbose (Some (Guardrails.constructor Guardrails.no_config)) corpus.

Definition plain : RAGEngine.Options.t :=
  {| RAGEngine.Options.topK := None; RAGEngine.Options.mode := None;
     RAGEngine.Options.systemPrompt := None;
     RAGEngine.Options.userId := None;
     RAGEngine.Options.history := None;
     RAGEngine.Options.temperature := None |}.

(** Guardrails that are switched off. *)
Definition off : Guardrails.t :=
  constructor
    {| cfg_enabled := Some false; cfg_blockedTerms := Some ["malware"];
       cfg_sensitiveTopics := None; cfg_maxQueryLength := Some 10%Z;
       cfg_maxResponseLength := None;
       cfg_rateLimit := Some {| requests := 1; window := 1000 |};
       cfg_policies := None |}.

(** A backend that answers with markup. *)
Definition markup : RAGEngine.LLM :=
  {| RAGEngine.model := "llama-3.3-70b-versatile";
     RAGEngine.generateResponse :=
       fun _ _ _ =>
         "<b>Learning</b> from <em>data</em><img src=x onerror=alert(1)>" |}.

(** The engine of the examples with the backend [markup], behind the
    guardrails [strict]. *)
Definition marked : RAGEngine.t := started markup (Some strict) corpus.

(** The engine of the examples behind the guardrails [off]. *)
Definition unguarded : RAGEngine.t := started terse (Some off) corpus.

Definition doc4 : RAGEngine.Document :=
  doc "doc4" "Machine learning detects malware".

(** The guarded engine over a corpus of which one document names the
    blocked term. *)
Definition screened : RAGEngine.t :=
  started terse (Some strict) [doc1; doc4; doc2; doc3].

Definition with_mode (requested : string) : RAGEngine.Options.t :=
  {| RAGEngine.Options.topK := None;
     RAGEngine.Options.mode := Some requested;
     RAGEngine.Options.systemPrompt := None;
     RAGEngine.Options.userId := None;
     RAGEngine.Options.history := None;
     RAGEngine.Options.temperature := None |}.


(** The configuration of [fresh]. *)
Definition config (documents : list RAGEngine.Document) : RAGEngine.Config :=
  {| RAGEngine.cfg_dataSource := source documents;
     RAGEngine.cfg_llm := terse;
     RAGEngine.cfg_embeddings := Some embeddings;
     RAGEngine.cfg_guardrails := None;
     RAGEngine.cfg_topK := Some 2;
     RAGEngine.cfg_similarityThreshold := None;
     RAGEngine.cfg_smartRouting := None;
     RAGEngine.cfg_routingThreshold := None |}.

(** The corpus after a reload: [doc1] has a new text, [doc2] is gone. *)
Definition revised : list RAGEngine.Document :=
  [doc "doc1" "Machine Learning learns from examples"; doc3].

End Examples.

(** * Properties of the guardrails *)

Section ValidateQuery.
Import Guardrails Calls.

Implicit Types (g : Guardrails.t) (rl : RateLimit) (v : Validation).

(** [validateQuery] changes nothing of the object but the rate-limit
    map. *)
Lemma validateQuery_frame g q uid now :
  exists m, snd (validateQuery g q uid now) = set_requestCounts g m.
Proof.
  unfold validateQuery.
  destruct (negb (enabled g)); [exists (requestCounts g); by destruct g|].
  destruct (_ >? _)%Z; [exists (requestCounts g); by destruct g|].
  destruct (rateLimit g) as [rl|]; cbn zeta.
  - destruct (_ >=? _)%Z; [exists (requestCounts g); by destruct g|].
    destruct (existsb _ _); cbn; eauto.
  - destruct (existsb _ _); cbn; exists (requestCounts g); by destruct g.
Qed.

Lemma validateQuery_enabled g q uid now :
  enabled (snd (validateQuery g q uid now)) = enabled g.
Proof. destruct (validateQuery_frame g q uid now) as [m ->]. done. Qed.

Lemma validateQuery_rateLimit g q uid now :
  rateLimit (snd (validateQuery g q uid now)) = rateLimit g.
Proof. destruct (validateQuery_frame g q uid now) as [m ->]. done. Qed.

Lemma validateQuery_maxQueryLength g q uid now :
  maxQueryLength (snd (validateQuery g q uid now)) = maxQueryLength g.
Proof. destruct (validateQuery_frame g q uid now) as [m ->]. done. Qed.

(** The three reasons of a rejection are different strings. *)
Lemma rateLimitReason_not_blockedReason rl :
  blockedReason <> rateLimitReason rl.
Proof. discriminate. Qed.

Lemma rateLimitReason_not_lengthReason rl max :
  lengthReason max <> rateLimitReason rl.
Proof. discriminate. Qed.

Lemma lengthReason_not_blockedReason max : lengthReason max <> blockedReason.
Proof. discriminate. Qed.

Lemma validateQuery_step g rl q uid now :
  enabled g = true ->
  rateLimit g = Some rl ->
  step g rl q (default "default" uid) now
    (fst (validateQuery g q uid now)) (snd (validateQuery g q uid now)).
Proof.
  intros Hen Hrl. unfold validateQuery. rewrite Hen, Hrl. cbn [negb].
  destruct (Z.gtb_spec (Z.of_nat (String.length q)) (maxQueryLength g)) as [Hlong|Hfit].
  { cbn. apply step_too_long. lia. }
  fold (recorded g (default "default" uid)).
  destruct (Z.geb_spec
              (Z.of_nat (length (recent rl now (recorded g (default "default" uid)))))
              (requests rl)) as [Hfull|Hroom].
  { cbn. apply step_throttled; lia. }
  cbn [set_requestCounts blockedTerms sensitiveTopics].
  destruct (existsb _ (blockedTerms g)) eqn:Hterm; cbn [fst snd].
  - apply step_recorded; [lia|lia|]. right. done.
  - apply step_recorded; [lia|lia|]. left. done.
Qed.

End ValidateQuery.

Section Rejections.
Import Guardrails Calls.

Lemma validateQuery_disabled g q uid now :
  enabled g = false ->
  validateQuery g q uid now
  = ({| allowed := true; reason := None; sanitized := Some q;
        warnings := None |}, g).
Proof. intros H. unfold validateQuery. by rewrite H. Qed.

Lemma recorded_set g user l :
  recorded (set_requestCounts g (<[user := l]> (requestCounts g))) user = l.
Proof. unfold recorded. cbn. by rewrite lookup_insert_eq. Qed.

Lemma recorded_set_other g user other l :
  user <> other ->
  recorded (set_requestCounts g (<[user := l]> (requestCounts g))) other
  = recorded g other.
Proof. intros H. unfold recorded. cbn. by rewrite lookup_insert_ne. Qed.

(** C10. With a rate limit configured, a rejection by [validateQuery] is
    one of three: for the length, and then the object is unchanged; by the
    rate limiter, and then the object is unchanged; or for a blocked term
    in the sanitized query, and then the rate-limit map already holds the
    timestamp of this call at the end of the user's pruned list. *)
Theorem validateQuery_rejection_and_rate_state
    g rl q uid now v g' :
  rateLimit g = Some rl ->
  validateQuery g q uid now = (v, g') ->
  allowed v = false ->
  let user := default "default" uid in
  let kept := recent rl now (recorded g user) in
  ((Z.of_nat (String.length q) > maxQueryLength g)%Z
   /\ reason v = Some (lengthReason (maxQueryLength g))
   /\ g' = g)
  \/ ((Z.of_nat (String.length q) <= maxQueryLength g)%Z
      /\ (Z.of_nat (length kept) >= requests rl)%Z
      /\ reason v = Some (rateLimitReason rl)
      /\ g' = g)
  \/ ((Z.of_nat (String.length q) <= maxQueryLength g)%Z
      /\ (Z.of_nat (length kept) < requests rl)%Z
      /\ existsb
           (fun term =>
              JsString.includes (JsString.toLowerCase (sanitizeInput q))
                (JsString.toLowerCase term))
           (blockedTerms g) = true
      /\ reason v = Some blockedReason
      /\ requestCounts g' = <[user := (kept ++ [now])%list]> (requestCounts g)
      /\ recorded g' user = (kept ++ [now])%list).
Proof.
  intros Hrl Hrun Hrej user kept.
  destruct (enabled g) eqn:Hen.
  2:{ rewrite validateQuery_disabled in Hrun by done.
      injection Hrun as <- <-. discriminate. }
  pose proof (validateQuery_step g rl q uid now Hen Hrl) as Hstep.
  rewrite Hrun in Hstep. cbn [fst snd] in Hstep.
  inversion Hstep as [Hlong|Hfit Hfull|v' Hfit Hroom Hv]; subst.
  - left. done.
  - right; left. done.
  - right; right. destruct Hv as [[Hal _]|[-> Hterm]]; [congruence|].
    repeat (split; [done|]). apply recorded_set.
Qed.

End Rejections.

(** The blocked-term case of [validateQuery_rejection_and_rate_state] on
    [Examples.strict]: the query is rejected and its timestamp is recorded. *)
Lemma validateQuery_rejection_and_rate_state_witness :
  let g := Examples.strict in
  let rl := {| Guardrails.requests := 2; Guardrails.window := 1000 |} in
  let run := Guardrails.validateQuery g "is this malware" None 7 in
  Guardrails.rateLimit g = Some rl
  /\ Guardrails.allowed (fst run) = false
  /\ Guardrails.reason (fst run) = Some Guardrails.blockedReason
  /\ Calls.recorded (snd run) "default" = [7%Z].
Proof.
  intros g rl run.
  assert (Hrl : Guardrails.rateLimit g = Some rl) by reflexivity.
  assert (Hrun : run = (fst run, snd run)) by (vm_compute; reflexivity).
  assert (Hrej : Guardrails.allowed (fst run) = false) by reflexivity.
  split; [exact Hrl|]. split; [exact Hrej|].
  destruct (validateQuery_rejection_and_rate_state g rl "is this malware"
              None 7 (fst run) (snd run) Hrl Hrun Hrej)
    as [(Hlong & _)|[(_ & Hfull & _)|(_ & _ & _ & Hwhy & _ & Hrec)]].
  - vm_compute in Hlong. discriminate Hlong.
  - exfalso. apply Hfull. vm_compute. reflexivity.
  - split; [exact Hwhy|]. etransitivity; [exact Hrec|]. vm_compute. reflexivity.
Defined.

Section Sanitizer.
Import Guardrails.

(** C7. [sanitizeInput] is not idempotent. The pattern [javascript:] is
    removed in one pass, so removing an occurrence can splice a new one
    together; the second application removes that one as well. The
    second input shows the same through the order of the passes: the
    quote is removed after the pass that looks for [javascript:]. *)
Theorem sanitizeInput_not_idempotent :
  sanitizeInput "javajavascript:script:alert(1)" = "javascript:alert(1)"
  /\ sanitizeInput (sanitizeInput "javajavascript:script:alert(1)") = "alert(1)"
  /\ sanitizeInput "java'script:alert(1)" = "javascript:alert(1)"
  /\ ~ (forall s, sanitizeInput (sanitizeInput s) = sanitizeInput s).
Proof.
  repeat split; try reflexivity.
  intros H. specialize (H "javajavascript:script:alert(1)").
  vm_compute in H. discriminate H.
Qed.

(** With the term configured, the query is rejected as the scenario
    says, provided it passes the length check and the rate limiter and
    the sanitizer leaves the term in place. *)
Lemma validateQuery_blocks_configured_term g q uid now term :
  enabled g = true ->
  (Z.of_nat (String.length q) <= maxQueryLength g)%Z ->
  rateLimit g = None ->
  In term (blockedTerms g) ->
  JsString.includes (JsString.toLowerCase (sanitizeInput q))
    (JsString.toLowerCase term) = true ->
  fst (validateQuery g q uid now)
  = rejected blockedReason (Some (sanitizeInput q)).
Proof.
  intros Hen Hfit Hrl Hin Hinc. unfold validateQuery.
  rewrite Hen, Hrl. cbn [negb].
  destruct (Z.gtb_spec (Z.of_nat (String.length q)) (maxQueryLength g));
    [lia|].
  assert (existsb
            (fun t => JsString.includes (JsString.toLowerCase (sanitizeInput q))
                        (JsString.toLowerCase t)) (blockedTerms g) = true)
    as ->; [|done].
  apply existsb_exists. eauto.
Qed.

End Sanitizer.

Section SlidingWindow.
Import Guardrails Calls.

(** The rate limit of the object and the user whose calls are followed. *)
Variables (rl : RateLimit) (user : string).

Implicit Types (g : Guardrails.t) (c : Call) (l ts : list Z).

Lemma validateQueries_cons g c rest :
  let first := validateQuery g (text c) (caller c) (at_time c) in
  validateQueries g (c :: rest)
  = (fst first :: fst (validateQueries (snd first) rest),
     snd (validateQueries (snd first) rest)).
Proof.
  cbn. destruct (validateQuery _ _ _ _) as [v g1]. cbn.
  destruct (validateQueries g1 rest). reflexivity.
Qed.

Lemma recent_all now l :
  Forall (fun s => (now - s < window rl)%Z) l -> recent rl now l = l.
Proof.
  induction 1 as [|s l Hs _ IH]; [done|]. cbn.
  destruct (Z.ltb_spec (now - s) (window rl)); [|lia].
  unfold recent in IH. by rewrite IH.
Qed.

Lemma recent_none now l :
  Forall (fun s => (window rl <= now - s)%Z) l -> recent rl now l = [].
Proof.
  induction 1 as [|s l Hs _ IH]; [done|]. cbn.
  destruct (Z.ltb_spec (now - s) (window rl)); [lia|]. exact IH.
Qed.

Lemma recent_app now l1 l2 :
  recent rl now (l1 ++ l2) = (recent rl now l1 ++ recent rl now l2)%list.
Proof. apply List.filter_app. Qed.

(** A call of one user leaves the timestamps of every other user as they
    were. *)
Lemma validateQuery_other_user g q uid now other :
  default "default" uid <> other ->
  recorded (snd (validateQuery g q uid now)) other = recorded g other.
Proof.
  intros Hne. unfold validateQuery.
  destruct (negb (enabled g)); [done|].
  destruct (_ >? _)%Z; [done|].
  destruct (rateLimit g) as [limit|]; cbn zeta.
  - destruct (_ >=? _)%Z; [done|].
    destruct (existsb _ _); cbn [snd]; by apply recorded_set_other.
  - by destruct (existsb _ _).
Qed.

Lemma not_throttled_too_long max :
  ~ throttled rl (rejected (lengthReason max) None).
Proof. intros [_ H]. cbn in H. discriminate H. Qed.

(** What a call of [user] does to the user's timestamps, read off
    [step]: a call that fits and finds room is recorded and not
    throttled; a call that fits and finds no room is throttled; a call that
    does not fit is rejected for its length. *)
Lemma step_room g q now v g' :
  step g rl q user now v g' ->
  (Z.of_nat (String.length q) <= maxQueryLength g)%Z ->
  (Z.of_nat (length (recent rl now (recorded g user))) < requests rl)%Z ->
  ~ throttled rl v
  /\ recorded g' user = (recent rl now (recorded g user) ++ [now])%list.
Proof.
  intros Hstep Hfit Hroom.
  inversion Hstep as [Hlong|_ Hfull|v' _ _ Hv]; subst; [lia|lia|].
  split; [|apply recorded_set].
  intros [Hrej Hwhy]. destruct Hv as [[Hal _]|[-> _]]; [congruence|].
  cbn in Hwhy. discriminate Hwhy.
Qed.

Lemma step_long g q now v g' :
  step g rl q user now v g' ->
  (Z.of_nat (String.length q) > maxQueryLength g)%Z ->
  v = rejected (lengthReason (maxQueryLength g)) None /\ g' = g.
Proof.
  intros Hstep Hlong.
  inversion Hstep as [_|Hfit _|v' Hfit _ _]; subst; [done|lia|lia].
Qed.

Lemma step_full g q now v g' :
  step g rl q user now v g' ->
  (Z.of_nat (String.length q) <= maxQueryLength g)%Z ->
  (Z.of_nat (length (recent rl now (recorded g user))) >= requests rl)%Z ->
  throttled rl v /\ g' = g.
Proof.
  intros Hstep Hfit Hfull.
  inversion Hstep as [Hlong|_ _|v' _ Hroom _]; subst; [lia| |lia].
  by split.
Qed.

Lemma expired_at ts l t :
  expired rl ts l -> In t ts -> Forall (fun s => (window rl <= t - s)%Z) l.
Proof.
  intros H Hin. eapply List.Forall_impl; [|exact H].
  intros s Hs. cbn in Hs. rewrite List.Forall_forall in Hs. by apply Hs.
Qed.

Lemma live_at ts l t :
  live rl ts l -> In t ts -> Forall (fun s => (t - s < window rl)%Z) l.
Proof.
  intros H Hin. eapply List.Forall_impl; [|exact H].
  intros s Hs. cbn in Hs. rewrite List.Forall_forall in Hs. by apply Hs.
Qed.

Lemma expired_tail t ts l : expired rl (t :: ts) l -> expired rl ts l.
Proof.
  intros H. eapply List.Forall_impl; [|exact H].
  intros s Hs. cbn in Hs. by inversion Hs.
Qed.

Lemma live_tail t ts l : live rl (t :: ts) l -> live rl ts l.
Proof.
  intros H. eapply List.Forall_impl; [|exact H].
  intros s Hs. cbn in Hs. by inversion Hs.
Qed.

Lemma fits_after g q uid now c :
  fits g c -> fits (snd (validateQuery g q uid now)) c.
Proof. unfold fits. by rewrite validateQuery_maxQueryLength. Qed.

Lemma calls_of_cons c rest :
  calls_of user (c :: rest)
  = if String.eqb (user_of c) user then c :: calls_of user rest
    else calls_of user rest.
Proof. reflexivity. Qed.

(** The timestamps that the limiter keeps at time [now] when the recorded
    list splits into expired timestamps and live ones. *)
Lemma recent_split now ts old new :
  In now ts ->
  expired rl ts old ->
  live rl ts new ->
  recent rl now (old ++ new) = new.
Proof.
  intros Hin Hold Hnew. rewrite recent_app.
  rewrite (recent_none now old) by (by eapply expired_at).
  by rewrite (recent_all now new) by (by eapply live_at).
Qed.

Create HintDb window discriminated.
#[local] Hint Resolve expired_tail live_tail fits_after : window.

(** The first call [c] of a trace on [g]: its step, named [Hstep], its
    result [v] and the object [g'] that it leaves, on which the guardrails
    are enabled ([Hen']) with the same rate limit ([Hrl']). *)
Ltac first_call g c Hen Hrl :=
  rewrite validateQueries_cons; cbn zeta; cbn [fst snd];
  pose proof (validateQuery_step g rl (text c) (caller c) (at_time c) Hen Hrl)
    as Hstep;
  fold (user_of c) in Hstep;
  set (v := fst (validateQuery g (text c) (caller c) (at_time c))) in *;
  set (g' := snd (validateQuery g (text c) (caller c) (at_time c))) in *;
  assert (Hen' : enabled g' = true)
    by (unfold g'; rewrite validateQuery_enabled; exact Hen);
  assert (Hrl' : rateLimit g' = Some rl)
    by (unfold g'; rewrite validateQuery_rateLimit; exact Hrl).

(** The burst, from any object on which the user's timestamps split into
    expired ones and [new] ones that belong to the burst. *)
Lemma burst_throttles calls :
  forall g last old new,
    enabled g = true ->
    rateLimit g = Some rl ->
    user_of last = user ->
    Forall (fits g) (calls_of user calls) ->
    fits g last ->
    recorded g user = (old ++ new)%list ->
    expired rl (times user calls ++ [at_time last]) old ->
    live rl (times user calls ++ [at_time last]) new ->
    burst rl (times user calls ++ [at_time last]) ->
    Z.of_nat (length new + length (calls_of user calls)) = requests rl ->
    unthrottled rl user calls (fst (validateQueries g calls))
    /\ throttled rl
         (fst (validateQuery (snd (validateQueries g calls))
                 (text last) (caller last) (at_time last))).
Proof.
  induction calls as [|c rest IH];
    intros g last old new Hen Hrl Hlast Hfits Hfit Hrec Hold Hnew Hburst Hcount.
  - cbn [validateQueries fst snd]. split; [constructor|].
    unfold times in *. cbn [calls_of List.filter List.map app length] in *.
    pose proof (validateQuery_step g rl (text last) (caller last)
                  (at_time last) Hen Hrl) as Hstep.
    fold (user_of last) in Hstep. rewrite Hlast in Hstep.
    eapply step_full; [exact Hstep|exact Hfit|].
    rewrite Hrec.
    rewrite (recent_split (at_time last) [at_time last] old new);
      [lia|by left|done|done].
  - first_call g c Hen Hrl.
    unfold times in *. rewrite calls_of_cons in *.
    destruct (String.eqb (user_of c) user) eqn:Huser.
    + apply String.eqb_eq in Huser. rewrite Huser in Hstep.
      cbn [List.map app length] in *.
      apply Forall_cons_1 in Hfits as [Hfitc Hfits].
      assert (Hkept : recent rl (at_time c) (recorded g user) = new).
      { rewrite Hrec. eapply recent_split; [|exact Hold|exact Hnew]. by left. }
      destruct (step_room _ _ _ _ _ Hstep Hfitc) as [Hfree Hrec'].
      { rewrite Hkept. lia. }
      rewrite Hkept in Hrec'.
      inversion_clear Hburst as [|? ? Hhead Htail].
      destruct (IH g' last [] (new ++ [at_time c])%list) as [IH1 IH2];
        try done.
      * eapply List.Forall_impl; [|exact Hfits]. unfold g'. eauto with window.
      * unfold g'. eauto with window.
      * constructor.
      * unfold live. apply Forall_app. split.
        -- eapply live_tail. exact Hnew.
        -- constructor; [exact Hhead|constructor].
      * rewrite length_app. cbn [length]. lia.
      * split; [|exact IH2]. constructor; [intros _; exact Hfree|exact IH1].
    + apply String.eqb_neq in Huser.
      destruct (IH g' last old new) as [IH1 IH2]; try done.
      * eapply List.Forall_impl; [|exact Hfits]. unfold g'. eauto with window.
      * unfold g'. eauto with window.
      * unfold g'. rewrite validateQuery_other_user; done.
      * split; [|exact IH2]. constructor; [|exact IH1].
        intros Hu. congruence.
Qed.

(** Calls more than a window apart, from any object on which the user's
    timestamps have expired. *)
Lemma spaced_never_throttled calls :
  forall g,
    enabled g = true ->
    rateLimit g = Some rl ->
    (1 <= requests rl)%Z ->
    expired rl (times user calls) (recorded g user) ->
    StronglySorted (fun a b => (window rl < b - a)%Z) (times user calls) ->
    unthrottled rl user calls (fst (validateQueries g calls)).
Proof.
  induction calls as [|c rest IH]; intros g Hen Hrl Hone Hold Hsorted.
  - constructor.
  - first_call g c Hen Hrl.
    unfold times in *. rewrite calls_of_cons in *.
    destruct (String.eqb (user_of c) user) eqn:Huser.
    + apply String.eqb_eq in Huser. rewrite Huser in Hstep.
      cbn [List.map] in *.
      assert (Hkept : recent rl (at_time c) (recorded g user) = []).
      { apply recent_none. eapply expired_at; [exact Hold|by left]. }
      apply StronglySorted_inv in Hsorted as [Hsorted Hhead].
      destruct (Z_le_gt_dec (Z.of_nat (String.length (text c)))
                  (maxQueryLength g)) as [Hfit|Hlong].
      * destruct (step_room _ _ _ _ _ Hstep Hfit) as [Hfree Hrec'].
        { rewrite Hkept. cbn. lia. }
        rewrite Hkept in Hrec'. cbn [app] in Hrec'.
        constructor; [intros _; exact Hfree|].
        apply IH; try done. rewrite Hrec'.
        constructor; [|constructor].
        eapply List.Forall_impl; [|exact Hhead]. intros t Ht. cbn in Ht. lia.
      * destruct (step_long _ _ _ _ _ Hstep Hlong) as [Hv Hg].
        constructor; [intros _; rewrite Hv; apply not_throttled_too_long|].
        apply IH; try done. rewrite Hg. eauto with window.
    + apply String.eqb_neq in Huser.
      constructor; [intros Hu; congruence|].
      apply IH; try done.
      unfold g'. rewrite validateQuery_other_user; done.
Qed.

Lemma calls_of_last calls last :
  user_of last = user ->
  calls_of user (calls ++ [last]) = (calls_of user calls ++ [last])%list.
Proof.
  intros H. unfold calls_of. rewrite List.filter_app. cbn.
  by rewrite H, String.eqb_refl.
Qed.

Lemma spaced_all_pairs ts :
  (0 <= window rl)%Z ->
  spaced rl ts ->
  StronglySorted (fun a b => (window rl < b - a)%Z) ts.
Proof.
  intros HW. apply Sorted_StronglySorted. intros a b c Hab Hbc. lia.
Qed.

(** C5, as the code has it. Guardrails enabled, rate limit
    [{requests: N, window: W}]. First part: a user makes [N] calls and
    one more, all with queries that pass the length check, each less than
    [W] ms after every earlier one, and whatever was recorded for the user
    before is a full window old or older at each of them (nothing
    recorded, for one); then none of the [N] calls is throttled and the
    call after them is rejected with the rate-limit reason. Second part:
    with [N >= 1] and [W >= 0], calls of the user that come more than [W]
    ms after one another are never throttled. Calls of other users may
    come in between in both parts. *)
Theorem rate_limit_sliding_window g :
  enabled g = true ->
  rateLimit g = Some rl ->
  (forall calls last,
      user_of last = user ->
      Forall (fits g) (calls_of user (calls ++ [last])) ->
      Z.of_nat (length (calls_of user calls)) = requests rl ->
      expired rl (times user (calls ++ [last])) (recorded g user) ->
      burst rl (times user (calls ++ [last])) ->
      unthrottled rl user calls (fst (validateQueries g calls))
      /\ throttled rl
           (fst (validateQuery (snd (validateQueries g calls))
                   (text last) (caller last) (at_time last))))
  /\ (forall calls,
         (1 <= requests rl)%Z ->
         (0 <= window rl)%Z ->
         expired rl (times user calls) (recorded g user) ->
         spaced rl (times user calls) ->
         unthrottled rl user calls (fst (validateQueries g calls))).
Proof.
  intros Hen Hrl. split.
  - intros calls last Hlast Hfits Hcount Hold Hburst.
    unfold times in *. rewrite calls_of_last in * by done.
    rewrite List.map_app in *. cbn [List.map] in *.
    apply Forall_app in Hfits as [Hfits Hfit].
    apply Forall_cons_1 in Hfit as [Hfit _].
    eapply (burst_throttles calls g last (recorded g user) []); try done.
    + by rewrite app_nil_r.
    + constructor.
  - intros calls Hone HW Hold Hspaced.
    apply spaced_never_throttled; try done.
    by apply spaced_all_pairs.
Qed.

End SlidingWindow.

(** Against C5 as it is worded: on [Examples.single] (one request per
    second, queries of at most 10 characters) the second call of a user
    within two milliseconds is allowed, because the first call was rejected
    by the length check and took no slot. *)
Lemma rate_limit_second_call_in_window_allowed :
  let g := Examples.single in
  let rl := {| Guardrails.requests := 1; Guardrails.window := 1000 |} in
  let trace :=
    [Examples.call "a query that is too long" 0; Examples.call "hello" 2] in
  Guardrails.enabled g = true
  /\ Guardrails.rateLimit g = Some rl
  /\ Calls.recorded g "default" = []
  /\ Calls.burst rl (Calls.times "default" trace)
  /\ Z.of_nat (length trace) = (Guardrails.requests rl + 1)%Z
  /\ List.map Guardrails.allowed (fst (Calls.validateQueries g trace))
     = [false; true]
  /\ ~ Forall (Calls.throttled rl)
         (drop 1 (fst (Calls.validateQueries g trace))).
Proof.
  cbn zeta. repeat split; try reflexivity.
  - unfold Calls.burst. vm_compute Calls.times.
    repeat constructor.
  - intros H. vm_compute in H.
    apply Forall_cons_1 in H as [[H _] _]. discriminate H.
Qed.

(** [rate_limit_sliding_window] on [Examples.strict] (two requests per
    second): two calls and a third within 20 ms, then three calls that are
    more than a second apart. *)
Lemma rate_limit_sliding_window_witness :
  let g := Examples.strict in
  let rl := {| Guardrails.requests := 2; Guardrails.window := 1000 |} in
  let first := [Examples.call "one" 0; Examples.call "two" 10] in
  let last := Examples.call "three" 20 in
  let apart :=
    [Examples.call "one" 0; Examples.call "two" 1001;
     Examples.call "three" 2002] in
  (Calls.unthrottled rl "default" first (fst (Calls.validateQueries g first))
   /\ Calls.throttled rl
        (fst (Guardrails.validateQuery (snd (Calls.validateQueries g first))
                "three" None 20)))
  /\ Calls.unthrottled rl "default" apart (fst (Calls.validateQueries g apart)).
Proof.
  intros g rl first last apart.
  destruct (rate_limit_sliding_window rl "default" g eq_refl eq_refl)
    as [Hburst Hspaced].
  split.
  - apply (Hburst first last).
    + reflexivity.
    + repeat constructor; vm_compute; discriminate.
    + reflexivity.
    + constructor.
    + unfold Calls.burst. vm_compute Calls.times. repeat constructor.
  - apply (Hspaced apart).
    + vm_compute. discriminate.
    + vm_compute. discriminate.
    + constructor.
    + unfold Calls.spaced. vm_compute Calls.times. repeat constructor.
Defined.

(** * Properties of the engine *)

Section Retrieval.
Import RAGEngine Contracts.

Implicit Types (m : Index) (s : Similarity) (r : RetrievalResult).

Lemma map_get_consistent m k :
  index_consistent m ->
  In k (List.map doc_id (map_values m)) ->
  exists doc, map_get k m = Some doc.
Proof.
  induction 1 as [|[k' d] m Hd _ IH]; cbn; [tauto|].
  intros Hin. destruct (String.eqb_spec k k') as [->|Hne]; [eauto|].
  cbn in Hd. destruct Hin as [Hin|Hin]; [congruence|]. by apply IH.
Qed.

(** Every pair that [findSimilar] returns for the documents of a
    consistent index names a document of the index. *)
Lemma findSimilar_resolves emb m qv k :
  FindSimilarContract emb ->
  index_consistent m ->
  Forall (fun s => exists doc, map_get (sim_id s) m = Some doc)
    (findSimilar emb qv (map_values m) k).
Proof.
  intros Hemb Hm. apply List.Forall_forall. intros s Hs.
  apply map_get_consistent; [done|].
  eapply names_candidates; [exact Hemb|exact Hs].
Qed.

Lemma gather_total m keep sims acc :
  Forall (fun s => exists doc, map_get (sim_id s) m = Some doc) sims ->
  exists results, gather m keep sims acc = Return results.
Proof.
  intros H. revert acc. induction H as [|s sims [doc Hdoc] _ IH]; intros acc.
  - by exists acc.
  - cbn. destruct (keep s acc); [|apply IH]. rewrite Hdoc. apply IH.
Qed.

(** The first loop never holds more than [k] results. *)
Lemma gather_bounded m keep k sims acc results :
  (forall s rs, keep s rs = true -> length rs < k) ->
  length acc <= k ->
  gather m keep sims acc = Return results ->
  length results <= k.
Proof.
  intros Hkeep. revert acc. induction sims as [|s sims IH]; intros acc Hacc.
  - cbn. intros [= <-]. done.
  - cbn. destruct (keep s acc) eqn:Hk; [|by apply IH].
    destruct (map_get (sim_id s) m); [|done].
    apply IH. rewrite length_app. cbn. apply Hkeep in Hk. lia.
Qed.

(** A loop that selects nothing returns what it was given. *)
Lemma gather_none m keep sims acc :
  Forall (fun s => keep s acc = false) sims ->
  gather m keep sims acc = Return acc.
Proof.
  induction 1 as [|s sims Hs _ IH]; [done|]. cbn. by rewrite Hs.
Qed.

(** A loop that selects every pair pushes the result of every pair. *)
Lemma gather_all m sims acc results :
  gather m (fun _ _ => true) sims acc = Return results ->
  exists pushed, results = (acc ++ pushed)%list /\ Forall2 (drawn m) sims pushed.
Proof.
  revert acc. induction sims as [|s sims IH]; intros acc.
  - cbn. intros [= <-]. exists []. split; [by rewrite app_nil_r|constructor].
  - cbn. destruct (map_get (sim_id s) m) as [doc|] eqn:Hdoc; [|done].
    intros H. apply IH in H as (pushed & -> & Hpushed).
    exists (result_of doc (sim_score s) :: pushed). split.
    + by rewrite <- app_assoc.
    + constructor; [by exists doc|done].
Qed.

(** Both loops keep the ranking: the results stay ordered when the pairs
    are and no pair scores above a result already pushed. *)
Lemma gather_sorted m keep sims acc results :
  StronglySorted by_sim_score sims ->
  StronglySorted by_score acc ->
  (forall r s, In r acc -> In s sims -> (sim_score s <= score r)%Q) ->
  gather m keep sims acc = Return results ->
  StronglySorted by_score results.
Proof.
  intros Hsims. revert acc.
  induction Hsims as [|s sims _ IH Hhead]; intros acc Hacc Hbound.
  - cbn. by intros [= <-].
  - cbn. destruct (keep s acc).
    + destruct (map_get (sim_id s) m) as [doc|]; [|done].
      apply IH.
      * apply StronglySorted_app_2; [|done|repeat constructor].
        intros r r' Hr Hr'. apply list_elem_of_In in Hr, Hr'.
        destruct Hr' as [<-|[]]. cbn. apply Hbound; [done|by left].
      * intros r s' Hr Hs'. apply in_app_or in Hr as [Hr|[<-|[]]].
        -- apply Hbound; [done|by right].
        -- cbn. rewrite List.Forall_forall in Hhead. by apply Hhead.
    + apply IH; [done|]. intros r s' Hr Hs'. apply Hbound; [done|by right].
Qed.

Lemma firstn_incl {A} n (l : list A) x : In x (firstn n l) -> In x l.
Proof.
  intros H. rewrite <- (firstn_skipn n l). apply in_or_app. by left.
Qed.

Lemma firstn_sorted {A} (R : A -> A -> Prop) n (l : list A) :
  StronglySorted R l -> StronglySorted R (firstn n l).
Proof.
  intros H. rewrite <- (firstn_skipn n l) in H.
  by apply StronglySorted_app_1_l in H.
Qed.

Lemma below_threshold_fails (threshold x : Q) :
  (x < threshold)%Q -> Qle_bool threshold x = false.
Proof.
  intros H. destruct (Qle_bool threshold x) eqn:E; [|done].
  apply Qle_bool_iff in E. by apply Qlt_not_le in H.
Qed.

Section VectorPath.

(** An engine whose embeddings keep the contract of [findSimilar] and
    whose index is keyed by the ids of its documents. *)
Variables (e : t) (emb : Embeddings).
Hypothesis Hemb : embeddings e = Some emb.
Hypothesis Hcontract : FindSimilarContract emb.
Hypothesis Hindex : index_consistent (documentVectors e).

(** What [retrieveByVector] returns. *)
Lemma retrieveByVector_results query k :
  let similarities :=
    findSimilar emb (embed emb query) (map_values (documentVectors e)) (k * 2) in
  exists results,
    retrieveByVector e query k = Return results
    /\ length results <= k
    /\ StronglySorted by_score results
    /\ (similarities <> [] -> 0 < k -> results <> [])
    /\ (Forall (fun s => (sim_score s < similarityThreshold e)%Q) similarities ->
        Forall2 (drawn (documentVectors e)) (firstn k similarities) results).
Proof.
  intros sims. unfold retrieveByVector. rewrite Hemb. fold sims.
  pose proof (findSimilar_resolves emb (documentVectors e) (embed emb query)
                (k * 2) Hcontract Hindex) as Hres. fold sims in Hres.
  pose proof (ranked emb Hcontract (embed emb query)
                (map_values (documentVectors e)) (k * 2)) as Hsorted.
  fold sims in Hsorted.
  set (passes := fun (s : Similarity) (results : list RetrievalResult) =>
                   Qle_bool (similarityThreshold e) (sim_score s)
                   && Nat.ltb (length results) k).
  destruct (gather_total (documentVectors e) passes sims [] Hres) as [rs1 H1].
  rewrite H1.
  assert (Hlen1 : length rs1 <= k).
  { apply (gather_bounded (documentVectors e) passes k sims [] rs1);
      [|cbn; lia|exact H1].
    intros s rs Hp. apply andb_prop in Hp as [_ Hp]. by apply Nat.ltb_lt. }
  assert (Hsorted1 : StronglySorted by_score rs1).
  { eapply gather_sorted; [exact Hsorted|constructor| |exact H1].
    intros r s []. }
  destruct rs1 as [|r rs1].
  - destruct sims as [|s sims'] eqn:Hsims.
    + exists []. repeat split; [lia|constructor|done|].
      intros _. rewrite firstn_nil. constructor.
    + rewrite <- Hsims in *.
      assert (Hres' : Forall (fun s => exists doc,
                                  map_get (sim_id s) (documentVectors e) = Some doc)
                        (firstn k sims)) by (by apply Forall_take).
      destruct (gather_total (documentVectors e) (fun _ _ => true)
                  (firstn k sims) [] Hres') as [rs2 H2].
      exists rs2. split; [exact H2|].
      pose proof (gather_all _ _ _ _ H2) as (pushed & -> & Hpushed).
      cbn [app]. repeat split.
      * apply Forall2_length in Hpushed. rewrite <- Hpushed.
        apply firstn_le_length.
      * eapply gather_sorted; [|constructor| |exact H2].
        -- by apply firstn_sorted.
        -- intros ? ? [].
      * intros _ Hk Hnil. rewrite Hnil in Hpushed.
        apply Forall2_nil_inv_r in Hpushed.
        rewrite Hsims in Hpushed. destruct k; [lia|done].
      * done.
  - exists (r :: rs1). repeat split; try done.
    intros Hlow. exfalso.
    rewrite (gather_none _ passes sims []) in H1; [done|].
    eapply List.Forall_impl; [|exact Hlow]. intros s Hs. unfold passes.
    by rewrite below_threshold_fails.
Qed.

(** C3, as the code has it. With embeddings configured, a non-empty
    consistent index and a requested count of at least one, [retrieve]
    returns a non-empty list; when no pair of [findSimilar] reaches the
    similarity threshold, the list holds the results of its first [topK]
    pairs. *)
Theorem retrieve_threshold_fallback query k :
  documentVectors e <> [] ->
  0 < k ->
  let similarities :=
    findSimilar emb (embed emb query) (map_values (documentVectors e)) (k * 2) in
  exists results,
    retrieve e query k = Return results
    /\ results <> []
    /\ (Forall (fun s => (sim_score s < similarityThreshold e)%Q) similarities ->
        Forall2 (drawn (documentVectors e)) (firstn k similarities) results).
Proof.
  intros Hdocs Hk sims. unfold retrieve. rewrite Hemb.
  assert (Hpos : 0 < length (documentVectors e))
    by (destruct (documentVectors e); [done|cbn; lia]).
  apply Nat.ltb_lt in Hpos as Hpos'. rewrite Hpos'.
  destruct (retrieveByVector_results query k)
    as (results & H & _ & _ & Hfull & Hbest).
  exists results. split; [exact H|]. split; [|exact Hbest].
  apply Hfull; [|exact Hk].
  intros Hnil. apply (f_equal (@length _)) in Hnil.
  rewrite (returns_k emb Hcontract) in Hnil. unfold map_values in Hnil.
  rewrite length_map in Hnil. cbn in Hnil. lia.
Qed.

End VectorPath.

(** C2. On a consistent index, with embeddings that keep the contract of
    [findSimilar] and, where [retrieve] delegates to the data source, a
    native search that honours its limit and ranks its results,
    [retrieve(query, k)] returns, and returns at most [k] results ordered
    by score, best first. *)
Theorem retrieve_at_most_k_sorted e query k :
  index_consistent (documentVectors e) ->
  (forall emb, embeddings e = Some emb -> FindSimilarContract emb) ->
  (embeddings e = None \/ documentVectors e = [] ->
   SearchContract (dataSource e)) ->
  exists results,
    retrieve e query k = Return results
    /\ length results <= k
    /\ StronglySorted by_score results.
Proof.
  intros Hm Hemb Hds. unfold retrieve.
  destruct (embeddings e) as [emb|] eqn:He.
  - destruct (documentVectors e) as [|entry m] eqn:Hidx.
    + cbn. destruct (Hds (or_intror eq_refl) query k). eauto.
    + cbn [length Nat.ltb Nat.leb]. rewrite <- Hidx in Hm.
      destruct (retrieveByVector_results e emb He (Hemb emb eq_refl) Hm
                  query k)
        as (results & H & Hlen & Hsorted & _).
      eauto.
  - destruct (Hds (or_introl eq_refl) query k). eauto.
Qed.

End Retrieval.

Section Embedding.
Import RAGEngine Contracts.

Implicit Types (x y : Similarity) (l : list Similarity).

Lemma insert_ranked_In x y l :
  In y (LocalEmbeddings.insert_ranked x l) <-> y = x \/ In y l.
Proof.
  induction l as [|z l IH]; cbn; [intuition congruence|].
  destruct (Qle_bool (sim_score z) (sim_score x)); cbn; [intuition congruence|].
  rewrite IH. intuition congruence.
Qed.

Lemma insert_ranked_length x l :
  length (LocalEmbeddings.insert_ranked x l) = S (length l).
Proof.
  induction l as [|z l IH]; cbn; [done|].
  destruct (Qle_bool (sim_score z) (sim_score x)); cbn; [done|]. by rewrite IH.
Qed.

Lemma insert_ranked_sorted x l :
  StronglySorted by_sim_score l ->
  StronglySorted by_sim_score (LocalEmbeddings.insert_ranked x l).
Proof.
  induction 1 as [|z l Hl IH Hz]; cbn; [repeat constructor|].
  destruct (Qle_bool (sim_score z) (sim_score x)) eqn:Hle.
  - apply Qle_bool_iff in Hle.
    constructor; [by constructor|]. constructor; [exact Hle|].
    eapply List.Forall_impl; [|exact Hz]. unfold by_sim_score. intros y Hy.
    by eapply Qle_trans.
  - constructor; [exact IH|]. apply List.Forall_forall. intros y Hy.
    apply insert_ranked_In in Hy as [->|Hy].
    + unfold by_sim_score. apply Qlt_le_weak, Qnot_le_lt. intros Hc.
      apply Qle_bool_iff in Hc. congruence.
    + rewrite List.Forall_forall in Hz. by apply Hz.
Qed.

Lemma rank_cons x l :
  LocalEmbeddings.rank (x :: l)
  = LocalEmbeddings.insert_ranked x (LocalEmbeddings.rank l).
Proof. reflexivity. Qed.

Lemma rank_In y l : In y (LocalEmbeddings.rank l) <-> In y l.
Proof.
  induction l as [|x l IH]; [done|].
  rewrite rank_cons, insert_ranked_In, IH. cbn. intuition congruence.
Qed.

Lemma rank_length l : length (LocalEmbeddings.rank l) = length l.
Proof.
  induction l as [|x l IH]; [done|].
  rewrite rank_cons, insert_ranked_length, IH. done.
Qed.

Lemma rank_sorted l : StronglySorted by_sim_score (LocalEmbeddings.rank l).
Proof.
  induction l as [|x l IH]; [constructor|].
  rewrite rank_cons. by apply insert_ranked_sorted.
Qed.

(** The embeddings modelled from the specification keep the contract
    under which the engine is studied. *)
Lemma LocalEmbeddings_contract embedWith cosineSimilarity texts :
  FindSimilarContract (LocalEmbeddings.make embedWith cosineSimilarity texts).
Proof.
  split; cbn; unfold LocalEmbeddings.findSimilar.
  - intros qv candidates k. apply firstn_sorted, rank_sorted.
  - intros qv candidates k s Hs. apply firstn_incl in Hs.
    apply (proj1 (rank_In _ _)) in Hs.
    apply in_map_iff in Hs as (doc & <- & Hdoc). cbn.
    apply in_map_iff. eauto.
  - intros qv candidates k.
    by rewrite length_firstn, rank_length, length_map.
Qed.

Lemma buildVocabulary_contract emb texts :
  FindSimilarContract emb -> FindSimilarContract (buildVocabulary emb texts).
Proof. intros [H1 H2 H3]. by split. Qed.

(** ** The index *)

Lemma map_set_keys k v m k' :
  In k' (map_keys (map_set k v m)) <-> k' = k \/ In k' (map_keys m).
Proof.
  induction m as [|[k0 v0] m IH]; cbn; [intuition congruence|].
  destruct (String.eqb_spec k k0) as [->|Hne]; cbn; [intuition congruence|].
  rewrite IH. intuition congruence.
Qed.

Lemma map_set_consistent k v m :
  doc_id v = k -> index_consistent m -> index_consistent (map_set k v m).
Proof.
  intros Hv. induction 1 as [|[k0 v0] m H0 Hm IH]; cbn.
  - by repeat constructor.
  - destruct (String.eqb_spec k k0) as [->|Hne]; by constructor.
Qed.

Lemma store_all_keys emb documents m k :
  In k (map_keys (fold_left (store emb) documents m))
  <-> In k (List.map doc_id documents) \/ In k (map_keys m).
Proof.
  revert m. induction documents as [|doc documents IH]; intros m; cbn.
  - tauto.
  - rewrite IH. unfold store. rewrite map_set_keys. intuition congruence.
Qed.

Lemma store_all_consistent emb documents m :
  index_consistent m -> index_consistent (fold_left (store emb) documents m).
Proof.
  revert m. induction documents as [|doc documents IH]; intros m Hm; cbn.
  - done.
  - apply IH. by apply map_set_consistent.
Qed.

(** [buildVectorIndex] adds the ids of the documents of the data source to
    the keys that the index holds already, and removes none. *)
Lemma buildVectorIndex_keys e e' k :
  buildVectorIndex e = Return e' ->
  In k (map_keys (documentVectors e'))
  <-> In k (List.map doc_id (getDocuments (dataSource e)))
      \/ In k (map_keys (documentVectors e)).
Proof.
  unfold buildVectorIndex. destruct (embeddings e) as [emb|]; [|done].
  intros [= <-]. cbn. apply (store_all_keys emb).
Qed.

Lemma buildVectorIndex_consistent e e' :
  buildVectorIndex e = Return e' ->
  index_consistent (documentVectors e) ->
  index_consistent (documentVectors e').
Proof.
  unfold buildVectorIndex. destruct (embeddings e) as [emb|]; [|done].
  intros [= <-] Hm. cbn. by apply (store_all_consistent emb).
Qed.

(** After [refresh] the index holds the ids of the documents of the
    reloaded data source, and every id that it held before. *)
Lemma refresh_keys e reloaded e' emb k :
  embeddings e = Some emb ->
  refresh e reloaded = Return e' ->
  In k (map_keys (documentVectors e'))
  <-> In k (List.map doc_id (getDocuments reloaded))
      \/ In k (map_keys (documentVectors e)).
Proof.
  intros He. unfold refresh. cbn [embeddings set_dataSource]. rewrite He.
  intros H. by rewrite (buildVectorIndex_keys _ _ k H).
Qed.

Lemma refresh_consistent e reloaded e' :
  refresh e reloaded = Return e' ->
  index_consistent (documentVectors e) ->
  index_consistent (documentVectors e').
Proof.
  unfold refresh. cbn [embeddings set_dataSource].
  destruct (embeddings e) as [emb|].
  - intros H Hm. by apply (buildVectorIndex_consistent _ _ H).
  - by intros [= <-].
Qed.

End Embedding.

Section Orchestrator.
Import RAGEngine Contracts.

(** The reason of a rejection by [validateQuery] is one of three. *)
Lemma validateQuery_rejected_reason g q uid now :
  Guardrails.allowed (fst (Guardrails.validateQuery g q uid now)) = false ->
  Guardrails.reason (fst (Guardrails.validateQuery g q uid now))
  = Some (Guardrails.lengthReason (Guardrails.maxQueryLength g))
  \/ (exists rl,
         Guardrails.rateLimit g = Some rl
         /\ Guardrails.reason (fst (Guardrails.validateQuery g q uid now))
            = Some (Guardrails.rateLimitReason rl))
  \/ Guardrails.reason (fst (Guardrails.validateQuery g q uid now))
     = Some Guardrails.blockedReason.
Proof.
  unfold Guardrails.validateQuery.
  destruct (negb (Guardrails.enabled g)); [done|].
  destruct (_ >? _)%Z; [by left|].
  destruct (Guardrails.rateLimit g) as [rl|]; cbn zeta.
  - destruct (_ >=? _)%Z; [right; left; eauto|].
    destruct (existsb _ _); cbn; [by right; right|done].
  - destruct (existsb _ _); cbn; [by right; right|done].
Qed.

(** C1. On an initialized engine with guardrails, a query that
    [validateQuery] rejects makes [query] call the generation backend not
    once. Unless the retrieval that precedes the validation throws, and
    then [query] throws that error, [query] returns the blocked result: no
    sources, [blocked] set, and an answer that carries the reason of the
    rejection, which is the length, the rate limit or the blocked
    content. *)
Theorem query_rejected_short_circuits e g q options now v g' :
  initialized e = true ->
  guardrails e = Some g ->
  Guardrails.validateQuery g q (Options.userId options) now = (v, g') ->
  Guardrails.allowed v = false ->
  let run := query e q options now in
  llmCalls run = []
  /\ ((exists m,
          outcome run = Throw m
          /\ retrieve e q (nat_or (Options.topK options) (topK e)) = Throw m)
      \/ (exists result why,
             outcome run = Return result
             /\ after run = set_guardrails e g'
             /\ Guardrails.reason v = Some why
             /\ (why = Guardrails.lengthReason (Guardrails.maxQueryLength g)
                 \/ (exists rl, Guardrails.rateLimit g = Some rl
                                /\ why = Guardrails.rateLimitReason rl)
                 \/ why = Guardrails.blockedReason)
             /\ QueryResult.answer result = "I cannot process this query: " ++ why
             /\ QueryResult.sources result = []
             /\ QueryResult.blocked result = Some true
             /\ QueryResult.reason result = Some why)).
Proof.
  intros Hinit Hg Hv Hrej run.
  pose proof (validateQuery_rejected_reason g q (Options.userId options) now)
    as Hwhy.
  rewrite Hv in Hwhy. cbn [fst] in Hwhy. specialize (Hwhy Hrej).
  assert (exists why,
             Guardrails.reason v = Some why
             /\ (why = Guardrails.lengthReason (Guardrails.maxQueryLength g)
                 \/ (exists rl, Guardrails.rateLimit g = Some rl
                                /\ why = Guardrails.rateLimitReason rl)
                 \/ why = Guardrails.blockedReason)) as (why & Hsome & Hkind).
  { destruct Hwhy as [H|[(rl & Hrl & H)|H]]; rewrite H; eexists; split;
      try reflexivity; eauto. }
  subst run. unfold query. rewrite Hinit. cbn [negb].
  destruct (negb (String.eqb (str_or (Options.mode options) "hybrid") "llm")).
  - destruct (retrieve e q (nat_or (Options.topK options) (topK e)))
      as [docs|m] eqn:Hret.
    + destruct (selectPrompt _ _ _ _ _) as [[prompt docs'] mode].
      rewrite Hg, Hv, Hrej. cbn [negb outcome after llmCalls].
      split; [done|]. right. eexists _, why. rewrite Hsome. cbn.
      repeat split; done.
    + cbn. split; [done|]. left. by exists m.
  - destruct (selectPrompt _ _ _ _ _) as [[prompt docs'] mode].
    rewrite Hg, Hv, Hrej. cbn [negb outcome after llmCalls].
    split; [done|]. right. eexists _, why. rewrite Hsome. cbn.
    repeat split; done.
Qed.

Lemma validateResponse_frame g m response :
  Guardrails.validateResponse (Guardrails.set_requestCounts g m) response
  = Guardrails.validateResponse g response.
Proof. reflexivity. Qed.

Lemma validateResponse_after_validateQuery g q uid now response :
  Guardrails.validateResponse (snd (Guardrails.validateQuery g q uid now)) response
  = Guardrails.validateResponse g response.
Proof.
  destruct (validateQuery_frame g q uid now) as [m ->].
  apply validateResponse_frame.
Qed.

(** A response longer than [maxResponseLength] is rejected for its
    length. *)
Lemma validateResponse_too_long g response :
  Guardrails.enabled g = true ->
  (Z.of_nat (String.length response) > Guardrails.maxResponseLength g)%Z ->
  Guardrails.validateResponse g response
  = Guardrails.rejected
      (Guardrails.responseLengthReason (Guardrails.maxResponseLength g)) None.
Proof.
  intros Hen Hlong. unfold Guardrails.validateResponse. rewrite Hen. cbn [negb].
  destruct (Z.gtb_spec (Z.of_nat (String.length response))
              (Guardrails.maxResponseLength g)); [done|lia].
Qed.

Lemma validateResponse_rejected_enabled g response :
  Guardrails.allowed (Guardrails.validateResponse g response) = false ->
  Guardrails.enabled g = true.
Proof.
  unfold Guardrails.validateResponse.
  by destruct (Guardrails.enabled g).
Qed.

(** C6. When [validateResponse] rejects the response that the generation
    backend gave to [query], the answer of the result is the fixed message
    with the reason of the rejection; for a response longer than a
    [maxResponseLength] of 10000 it is the message of the scenario. The
    sources, the routing information, the query, the mode and the warnings
    of the result are those that [query] returns with any other backend,
    hence with one whose response is accepted. *)
Theorem query_blocked_response_keeps_sources e g q options now result call :
  guardrails e = Some g ->
  outcome (query e q options now) = Return result ->
  llmCalls (query e q options now) = [call] ->
  let response :=
    generateResponse (llm e) (call_query call) (call_context call)
      (call_options call) in
  Guardrails.allowed (Guardrails.validateResponse g response) = false ->
  QueryResult.answer result
  = "Response blocked: "
    ++ interpolate (Guardrails.reason (Guardrails.validateResponse g response))
  /\ ((Z.of_nat (String.length response) > Guardrails.maxResponseLength g)%Z ->
      Guardrails.maxResponseLength g = 10000%Z ->
      QueryResult.answer result
      = "Response blocked: Response exceeds maximum length of 10000 characters")
  /\ (forall backend,
         exists result',
           outcome (query (set_llm e backend) q options now) = Return result'
           /\ QueryResult.sources result' = QueryResult.sources result
           /\ QueryResult.routing result' = QueryResult.routing result
           /\ QueryResult.query result' = QueryResult.query result
           /\ QueryResult.mode result' = QueryResult.mode result
           /\ QueryResult.warnings result' = QueryResult.warnings result).
Proof.
  intros Hg Hout Hcalls response Hrej.
  assert (Hanswer :
            QueryResult.answer result
            = "Response blocked: "
              ++ interpolate
                   (Guardrails.reason (Guardrails.validateResponse g response))
            /\ forall backend,
                exists result',
                  outcome (query (set_llm e backend) q options now)
                  = Return result'
                  /\ QueryResult.sources result' = QueryResult.sources result
                  /\ QueryResult.routing result' = QueryResult.routing result
                  /\ QueryResult.query result' = QueryResult.query result
                  /\ QueryResult.mode result' = QueryResult.mode result
                  /\ QueryResult.warnings result' = QueryResult.warnings result).
  { subst response. unfold query in Hout, Hcalls, Hrej |- *.
    cbn [initialized set_llm topK] in *.
    destruct (initialized e); cbn [negb] in *; [|discriminate Hcalls].
    change (retrieve (set_llm e ?b) q ?k) with (retrieve e q k).
    destruct (if negb (String.eqb (str_or (Options.mode options) "hybrid") "llm")
              then match
                     retrieve e q (nat_or (Options.topK options) (topK e))
                   with
                   | Return docs => Return (docs, Some (routingInfoOf docs))
                   | Throw m => Throw m
                   end
              else Return ([], None)) as [[docs0 info]|m]; [|discriminate Hcalls].
    change (selectPrompt (set_llm e ?b) ?o ?md ?d ?i)
      with (selectPrompt e o md d i).
    destruct (selectPrompt _ _ _ _ _) as [[prompt docs] mode].
    cbn [guardrails set_llm] in *. rewrite Hg in *.
    pose proof (validateResponse_after_validateQuery g q
                  (Options.userId options) now) as Hframe.
    destruct (Guardrails.validateQuery g q (Options.userId options) now)
      as [v g'].
    cbn [snd] in Hframe.
    destruct (Guardrails.allowed v); cbn [negb] in *; [|discriminate Hcalls].
    cbn [llmCalls outcome guardrails set_guardrails llm] in *.
    injection Hcalls as <-. injection Hout as <-.
    cbn [call_query call_context call_options QueryResult.answer
         QueryResult.sources QueryResult.routing QueryResult.query
         QueryResult.mode QueryResult.warnings] in *.
    rewrite Hframe in *. rewrite Hrej. cbn [negb].
    split; [reflexivity|].
    intros backend. eexists. split; [reflexivity|]. cbn. done. }
  destruct Hanswer as [Hanswer Hsame].
  split; [exact Hanswer|]. split; [|exact Hsame].
  intros Hlong Hmax. rewrite Hanswer.
  rewrite validateResponse_too_long;
    [|by eapply validateResponse_rejected_enabled|done].
  rewrite Hmax. reflexivity.
Qed.

Lemma firstScore_head top rest : (firstScore (top :: rest) == score top)%Q.
Proof.
  cbn. destruct (Qeq_bool (score top) 0) eqn:H; [|reflexivity].
  apply Qeq_bool_eq in H. by rewrite H.
Qed.

Lemma Qlt_bool_iff a b : Qlt_bool a b = true <-> (a < b)%Q.
Proof.
  unfold Qlt_bool. rewrite negb_true_iff. split.
  - intros H. apply Qnot_le_lt. intros Hle. apply Qle_bool_iff in Hle.
    congruence.
  - intros H. destruct (Qle_bool b a) eqn:Hle; [|done].
    apply Qle_bool_iff in Hle. by apply Qlt_not_le in H.
Qed.

(** The running sum of [reduce] is the sum of the scores. *)
Lemma reduce_sum docs acc :
  (fold_left (fun sum d => sum + score d) docs acc
   == acc + fold_right Qplus 0 (List.map score docs))%Q.
Proof.
  revert acc. induction docs as [|d docs IH]; intros acc; cbn.
  - ring.
  - rewrite IH. ring.
Qed.

Lemma averageScore_mean docs :
  (averageScore docs == mean (List.map score docs))%Q.
Proof.
  unfold averageScore, mean. rewrite reduce_sum, length_map.
  apply Qdiv_comp; [ring|reflexivity].
Qed.

(** C4. [routeQuery] classifies what [retrieve] returns for the query and
    the engine's [topK]: nothing retrieved is [no_documents]; a first
    result that scores strictly below [routingThreshold] is
    [low_relevance]; anything else is [relevant_content], the only class
    with [useRAG] set. In the last two classes [topScore] is the score of
    the first result and [avgScore] the arithmetic mean of all scores. *)
Theorem routeQuery_classification e query retrieved :
  retrieve e query (topK e) = Return retrieved ->
  exists decision,
    routeQuery e query = Return decision
    /\ RoutingDecision.docs decision = retrieved
    /\ match retrieved with
       | [] =>
           RoutingDecision.useRAG decision = false
           /\ RoutingDecision.reason decision = "no_documents"
       | top :: _ =>
           (exists t a,
               RoutingDecision.topScore decision = Some t
               /\ (t == score top)%Q
               /\ RoutingDecision.avgScore decision = Some a
               /\ (a == mean (List.map score retrieved))%Q)
           /\ ((score top < routingThreshold e)%Q ->
               RoutingDecision.useRAG decision = false
               /\ RoutingDecision.reason decision = "low_relevance")
           /\ (~ (score top < routingThreshold e)%Q ->
               RoutingDecision.useRAG decision = true
               /\ RoutingDecision.reason decision = "relevant_content")
       end.
Proof.
  intros Hret. unfold routeQuery. rewrite Hret.
  destruct retrieved as [|top rest]; [eexists; by repeat split|].
  assert (Hlt : Qlt_bool (firstScore (top :: rest)) (routingThreshold e) = true
                <-> (score top < routingThreshold e)%Q).
  { rewrite Qlt_bool_iff.
    apply Qlt_compat; [apply firstScore_head|reflexivity]. }
  destruct (Qlt_bool (firstScore (top :: rest)) (routingThreshold e)).
  - eexists. split; [reflexivity|]. split; [reflexivity|]. cbn -[firstScore averageScore mean].
    split; [|split].
    + eexists _, _. split; [reflexivity|]. split; [apply firstScore_head|].
      split; [reflexivity|]. apply averageScore_mean.
    + done.
    + intros Hge. exfalso. apply Hge. by apply Hlt.
  - eexists. split; [reflexivity|]. split; [reflexivity|]. cbn -[firstScore averageScore mean].
    split; [|split].
    + eexists _, _. split; [reflexivity|]. split; [apply firstScore_head|].
      split; [reflexivity|]. apply averageScore_mean.
    + intros Hlow. apply Hlt in Hlow. discriminate Hlow.
    + done.
Qed.

(** C9. A [Guardrails] object built without a configuration lists
    [malware] among the blocked terms of its default policies, and
    [validateQuery] allows a query that contains the term: it reads
    [this.blockedTerms], which the constructor leaves empty, and never the
    policy table. The engine of the examples, which has such guardrails,
    answers the query. *)
Theorem default_guardrails_allow_malware (now : Z) :
  let g := Guardrails.constructor Guardrails.no_config in
  In "malware" (Guardrails.Policies.blockedTerms (Guardrails.policies g))
  /\ Guardrails.blockedTerms g = []
  /\ fst (Guardrails.validateQuery g "how does malware spread" None now)
     = {| Guardrails.allowed := true; Guardrails.reason := None;
          Guardrails.sanitized := Some "how does malware spread";
          Guardrails.warnings := None |}
  /\ exists result,
      outcome (query Examples.engine "how does malware spread"
                 Examples.plain now) = Return result
      /\ QueryResult.blocked result = None
      /\ QueryResult.answer result
         = "Machine learning is the study of programs that learn.".
Proof.
  cbn zeta. split; [cbn; tauto|]. split; [reflexivity|].
  split; [vm_compute; reflexivity|].
  eexists. split; [vm_compute; reflexivity|]. split; reflexivity.
Qed.

(** C8. [refresh] does not rebuild the index from nothing. On the engine
    of the examples, whose index holds [doc1], [doc2] and [doc3], a data
    source that has lost [doc2] is reloaded; after [refresh] the index
    still holds the entry of [doc2]. *)
Theorem refresh_keeps_removed_document :
  let reloaded := Examples.source [Examples.doc1; Examples.doc3] in
  exists e',
    refresh Examples.engine reloaded = Return e'
    /\ List.map doc_id (getDocuments (dataSource e')) = ["doc1"; "doc3"]
    /\ map_keys (documentVectors e') = ["doc1"; "doc2"; "doc3"]
    /\ In "doc2" (map_keys (documentVectors e'))
    /\ ~ In "doc2" (List.map doc_id (getDocuments (dataSource e'))).
Proof.
  cbn zeta. eexists. split; [vm_compute; reflexivity|].
  cbn. repeat split; try tauto. intros [H|[H|[]]]; discriminate H.
Qed.

End Orchestrator.

(** * The theorems on the engine of the examples *)

Lemma examples_index_consistent :
  Contracts.index_consistent (RAGEngine.documentVectors Examples.engine).
Proof. unfold Contracts.index_consistent. vm_compute. repeat constructor. Qed.

Lemma examples_embeddings :
  RAGEngine.embeddings Examples.engine
  = Some (LocalEmbeddings.make Examples.keywordVector Examples.overlap
            (List.map RAGEngine.doc_content Examples.corpus)).
Proof. reflexivity. Qed.

Lemma examples_search_contract documents :
  Contracts.SearchContract (Examples.source documents).
Proof. intros query limit. cbn. split; [lia|constructor]. Qed.

(** [retrieve_at_most_k_sorted] on the engine of the examples. *)
Lemma retrieve_at_most_k_sorted_witness :
  exists results,
    RAGEngine.retrieve Examples.engine "What is machine learning?" 2
    = Return results
    /\ length results <= 2
    /\ StronglySorted Contracts.by_score results.
Proof.
  apply retrieve_at_most_k_sorted.
  - exact examples_index_consistent.
  - intros emb H. rewrite examples_embeddings in H. injection H as <-.
    apply LocalEmbeddings_contract.
  - intros _. apply examples_search_contract.
Defined.

(** Against C3 as it is worded: with embeddings configured and three
    documents in the index, a requested count of zero gets an empty
    list. *)
Lemma retrieve_zero_requested_is_empty :
  RAGEngine.embeddings Examples.engine <> None
  /\ length (RAGEngine.documentVectors Examples.engine) = 3
  /\ RAGEngine.retrieve Examples.engine "What is machine learning?" 0
     = Return [].
Proof. split; [discriminate|]. split; vm_compute; reflexivity. Qed.

(** [retrieve_threshold_fallback] on the engine of the examples: no
    document shares a keyword with the query, and the two best are
    returned all the same. *)
Lemma retrieve_threshold_fallback_witness :
  exists results,
    RAGEngine.retrieve Examples.engine "What is a compiler?" 2 = Return results
    /\ results <> []
    /\ List.map RAGEngine.id results = ["doc1"; "doc2"].
Proof.
  destruct (retrieve_threshold_fallback Examples.engine
              (LocalEmbeddings.make Examples.keywordVector Examples.overlap
                 (List.map RAGEngine.doc_content Examples.corpus))
              examples_embeddings (LocalEmbeddings_contract _ _ _)
              examples_index_consistent "What is a compiler?" 2)
    as (results & Hret & Hfull & Hbest).
  - discriminate.
  - lia.
  - exists results. split; [exact Hret|]. split; [exact Hfull|].
    clear Hfull Hbest. vm_compute in Hret. injection Hret as <-. reflexivity.
Defined.

(** [routeQuery_classification] on the engine of the examples: the query
    shares two keywords with [doc1], whose score of one half is above the
    routing threshold of one quarter. *)
Lemma routeQuery_classification_witness :
  exists decision,
    RAGEngine.routeQuery Examples.engine "What is machine learning?"
    = Return decision
    /\ RAGEngine.RoutingDecision.useRAG decision = true
    /\ RAGEngine.RoutingDecision.reason decision = "relevant_content"
    /\ List.map RAGEngine.id (RAGEngine.RoutingDecision.docs decision)
       = ["doc1"; "doc2"].
Proof.
  destruct (RAGEngine.retrieve Examples.engine "What is machine learning?"
              (RAGEngine.topK Examples.engine)) as [retrieved|m] eqn:Hret;
    [|vm_compute in Hret; discriminate Hret].
  destruct (routeQuery_classification Examples.engine
              "What is machine learning?" retrieved Hret)
    as (decision & Hroute & Hdocs & Hclass).
  exists decision. split; [exact Hroute|].
  vm_compute in Hret. injection Hret as <-.
  destruct Hclass as (_ & _ & Hhigh).
  destruct Hhigh as [Huse Hwhy].
  { vm_compute. discriminate. }
  rewrite Hdocs. repeat split; [exact Huse|exact Hwhy].
Defined.

(** [query_rejected_short_circuits] on the guarded engine of the examples:
    the query names the blocked term. *)
Lemma query_rejected_short_circuits_witness :
  let run :=
    RAGEngine.query Examples.guarded "What is malware?" Examples.plain 0 in
  RAGEngine.llmCalls run = []
  /\ exists result,
      RAGEngine.outcome run = Return result
      /\ RAGEngine.QueryResult.answer result
         = "I cannot process this query: Query contains blocked content"
      /\ RAGEngine.QueryResult.sources result = []
      /\ RAGEngine.QueryResult.blocked result = Some true.
Proof.
  intros run.
  pose (validation :=
          Guardrails.validateQuery Examples.strict "What is malware?"
            (RAGEngine.Options.userId Examples.plain) 0).
  destruct (query_rejected_short_circuits Examples.guarded Examples.strict
              "What is malware?" Examples.plain 0
              (fst validation) (snd validation))
    as [Hcalls Hresult].
  - reflexivity.
  - reflexivity.
  - vm_compute. reflexivity.
  - reflexivity.
  - split; [exact Hcalls|].
    destruct Hresult as [(m & _ & Hthrow)|(result & why & Hout & _ & Hwhy & _ & Hanswer & Hsources & Hblocked & _)].
    + vm_compute in Hthrow. discriminate Hthrow.
    + exists result. split; [exact Hout|].
      vm_compute in Hwhy. injection Hwhy as <-.
      split; [exact Hanswer|]. split; [exact Hsources|exact Hblocked].
Defined.

(** [query_blocked_response_keeps_sources] on the engine of the examples
    whose backend answers with 11,000 characters: the answer is the
    message of the scenario, and the sources and the routing are those of
    the run with the backend whose answer is accepted. *)
Lemma query_blocked_response_keeps_sources_witness :
  exists blocked accepted,
    RAGEngine.outcome
      (RAGEngine.query Examples.wordy "What is machine learning?"
         Examples.plain 0) = Return blocked
    /\ RAGEngine.outcome
         (RAGEngine.query Examples.engine "What is machine learning?"
            Examples.plain 0) = Return accepted
    /\ RAGEngine.QueryResult.answer blocked
       = "Response blocked: Response exceeds maximum length of 10000 characters"
    /\ RAGEngine.QueryResult.answer accepted
       = "Machine learning is the study of programs that learn."
    /\ RAGEngine.QueryResult.sources accepted
       = RAGEngine.QueryResult.sources blocked
    /\ RAGEngine.QueryResult.routing accepted
       = RAGEngine.QueryResult.routing blocked.
Proof.
  pose (run :=
          RAGEngine.query Examples.wordy "What is machine learning?"
            Examples.plain 0).
  destruct (RAGEngine.outcome run) as [blocked|m] eqn:Hout;
    [|vm_compute in Hout; discriminate Hout].
  destruct (RAGEngine.llmCalls run) as [|call [|]] eqn:Hcalls;
    try (vm_compute in Hcalls; discriminate Hcalls).
  destruct (query_blocked_response_keeps_sources Examples.wordy
              (Guardrails.constructor Guardrails.no_config)
              "What is machine learning?" Examples.plain 0 blocked call)
    as (_ & Hanswer & Hsame).
  - reflexivity.
  - exact Hout.
  - exact Hcalls.
  - vm_compute. reflexivity.
  - destruct (Hsame Examples.terse)
      as (accepted & Hout' & Hsources & Hrouting & _).
    change (RAGEngine.set_llm Examples.wordy Examples.terse)
      with Examples.engine in Hout'.
    exists blocked, accepted. split; [exact Hout|]. split; [exact Hout'|].
    split; [apply Hanswer; [vm_compute; reflexivity|reflexivity]|].
    split; [|split; [exact Hsources|exact Hrouting]].
    vm_compute in Hout'. injection Hout' as <-. reflexivity.
Defined.

(** * Further properties of the guardrails *)

Section Characters.
Import JsString.

Implicit Types (s t : string) (p q : ascii -> bool).

Lemma every_app p s t : every p (s ++ t) = every p s && every p t.
Proof.
  induction s as [|c s IH]; [done|].
  simpl. by rewrite IH, andb_assoc.
Qed.

Lemma every_drop p n s : every p s = true -> every p (drop n s) = true.
Proof.
  revert s. induction n as [|n IH]; intros [|c s]; cbn; try done.
  intros H. apply andb_prop in H as [_ H]. by apply IH.
Qed.

Lemma every_impl p q s :
  (forall c, p c = true -> q c = true) -> every p s = true -> every q s = true.
Proof.
  intros Hpq. induction s as [|c s IH]; cbn; [done|].
  intros H. apply andb_prop in H as [Hc H]. by rewrite (Hpq c Hc), IH.
Qed.

(** Skipping [k] characters is scanning what is left behind them. *)
Lemma replace_from_drop m rep k s :
  replace_from m rep k s = replace_from m rep 0 (drop k s).
Proof.
  revert k. induction s as [|c s IH]; intros [|k]; cbn;
    first [done|apply IH].
Qed.

(** A replacement keeps what holds of every character of the text and of
    the replacement. *)
Lemma replace_from_every m rep q k s :
  every q rep = true ->
  every q s = true ->
  every q (replace_from m rep k s) = true.
Proof.
  intros Hrep. revert k. induction s as [|c s IH]; intros k; cbn; [done|].
  intros H. apply andb_prop in H as [Hc H].
  destruct k as [|k]; [|by apply IH].
  destruct (m (String c s)) as [[|n]|]; cbn.
  - by rewrite Hc, IH.
  - rewrite every_app, Hrep. by apply IH.
  - by rewrite Hc, IH.
Qed.

Lemma replace_one_of_every p k s :
  every (fun c => negb (p c)) (replace_from (one_of p) "" k s) = true.
Proof.
  revert k. induction s as [|c s IH]; intros k; cbn; [done|].
  destruct k as [|k]; [|apply IH].
  destruct (p c) eqn:Hc; cbn; [apply IH|]. by rewrite Hc, IH.
Qed.

Lemma trimStart_every q s : every q s = true -> every q (trimStart s) = true.
Proof.
  induction s as [|c s IH]; cbn; [done|].
  intros H. destruct (is_space c); [|done].
  apply andb_prop in H as [_ H]. by apply IH.
Qed.

Lemma trimEnd_every q s : every q s = true -> every q (trimEnd s) = true.
Proof.
  induction s as [|c s IH]; cbn; [done|].
  intros H. apply andb_prop in H as [Hc H]. specialize (IH H).
  destruct (trimEnd s) as [|d t].
  - destruct (is_space c); cbn; [done|]. by rewrite Hc.
  - cbn in *. by rewrite Hc, IH.
Qed.

Lemma trim_every q s : every q s = true -> every q (trim s) = true.
Proof. intros H. by apply trimEnd_every, trimStart_every. Qed.

(** ** Whitespace after [/\s+/g] and [trim] *)

Lemma spaces_cons c s :
  spaces (String c s)
  = if is_space c then Some (S (span is_space s)) else None.
Proof. unfold spaces. cbn. by destruct (is_space c). Qed.

Lemma replace_spaces_cons c s :
  replace_from spaces " " 0 (String c s)
  = if is_space c
    then String " " (replace_from spaces " " (span is_space s) s)
    else String c (replace_from spaces " " 0 s).
Proof.
  cbn [replace_from]. rewrite spaces_cons. by destruct (is_space c).
Qed.

Lemma replace_spaces_head s :
  starts_with_space (replace_from spaces " " (span is_space s) s) = false.
Proof.
  induction s as [|c s IH]; [done|]. cbn [span].
  destruct (is_space c) eqn:Hc; [exact IH|].
  rewrite replace_spaces_cons, Hc. exact Hc.
Qed.

Lemma replace_spaces_single k s :
  single_spaced (replace_from spaces " " k s) = true.
Proof.
  revert k. induction s as [|c s IH]; intros k; [done|].
  destruct k as [|k]; [|apply IH].
  rewrite replace_spaces_cons. destruct (is_space c) eqn:Hc.
  - cbn [single_spaced]. rewrite replace_spaces_head, IH. reflexivity.
  - cbn [single_spaced]. by rewrite Hc, IH.
Qed.

Lemma single_spaced_cons c s :
  single_spaced (String c s)
  = (if is_space c then Ascii.eqb c " " && negb (starts_with_space s)
     else true)
    && single_spaced s.
Proof. reflexivity. Qed.

Lemma single_spaced_tail c s :
  single_spaced (String c s) = true -> single_spaced s = true.
Proof. cbn. intros H. by apply andb_prop in H as [_ H]. Qed.

Lemma trimStart_single s :
  single_spaced s = true -> single_spaced (trimStart s) = true.
Proof.
  induction s as [|c s IH]; [done|]. intros H. cbn.
  destruct (is_space c); [|done]. by apply IH, (single_spaced_tail c).
Qed.

Lemma trimStart_head s : starts_with_space (trimStart s) = false.
Proof.
  induction s as [|c s IH]; cbn; [done|].
  destruct (is_space c) eqn:Hc; [done|]. cbn. exact Hc.
Qed.

(** [trimEnd] keeps the first character of what it returns. *)
Lemma trimEnd_first s d t :
  trimEnd s = String d t -> exists s', s = String d s'.
Proof.
  destruct s as [|c s]; cbn; [done|].
  destruct (trimEnd s); [destruct (is_space c)|]; intros [= <- _]; eauto.
Qed.

Lemma trimEnd_head s :
  starts_with_space s = false -> starts_with_space (trimEnd s) = false.
Proof.
  destruct s as [|c s]; cbn; [done|]. intros Hc.
  destruct (trimEnd s); [by rewrite Hc|done].
Qed.

Lemma trimEnd_single s :
  single_spaced s = true -> single_spaced (trimEnd s) = true.
Proof.
  induction s as [|c s IH]; [done|]. intros H.
  pose proof (single_spaced_tail c s H) as Hs. specialize (IH Hs).
  cbn. destruct (trimEnd s) as [|d t] eqn:Ht.
  - by destruct (is_space c) eqn:Hc; cbn; rewrite ?Hc.
  - apply trimEnd_first in Ht as [s' ->].
    rewrite single_spaced_cons in H |- *. apply andb_prop in H as [H _].
    rewrite IH, andb_true_r. exact H.
Qed.

Lemma trimEnd_last s : ends_with_space (trimEnd s) = false.
Proof.
  induction s as [|c s IH]; cbn; [done|].
  destruct (trimEnd s) as [|d t].
  - destruct (is_space c) eqn:Hc; cbn; [done|exact Hc].
  - exact IH.
Qed.

Lemma trim_tidy s : single_spaced s = true -> tidy (trim s) = true.
Proof.
  intros H. unfold tidy, trim.
  rewrite trimEnd_single by (by apply trimStart_single).
  rewrite trimEnd_head by apply trimStart_head.
  by rewrite trimEnd_last.
Qed.

End Characters.

Section SanitizeInput.
Import JsString Guardrails.

Implicit Types (s t text : string).

(** The five replacements and the trim, also for the empty text. *)
Lemma sanitizeInput_passes text :
  sanitizeInput text
  = trim
      (replace spaces " "
         (replace (one_of sql_meta) ""
            (replace event_handler ""
               (replace (literal_ci "javascript:") ""
                  (replace script_block "" text))))).
Proof. by destruct text. Qed.

Lemma sanitizeInput_meta_free text :
  every (fun c => negb (sql_meta c)) (sanitizeInput text) = true.
Proof.
  rewrite sanitizeInput_passes. apply trim_every.
  apply replace_from_every; [done|]. apply replace_one_of_every.
Qed.

Lemma sanitizeInput_whitespace text : tidy (sanitizeInput text) = true.
Proof.
  rewrite sanitizeInput_passes. apply trim_tidy, replace_spaces_single.
Qed.

(** X1. The sanitized query holds no quote, semicolon or backslash, whatever
    the query was. *)
Theorem sanitizeInput_drops_meta text :
  every (fun c => negb (sql_meta c)) (sanitizeInput text) = true.
Proof. apply sanitizeInput_meta_free. Qed.

(** X2. In the sanitized query every run of whitespace is one blank, and
    there is none at either end. *)
Theorem sanitizeInput_tidy text : tidy (sanitizeInput text) = true.
Proof. apply sanitizeInput_whitespace. Qed.

(** ** Texts on which the sanitizer is the identity *)

(** A pattern that matches at the head of no text of a class closed under
    suffixes replaces nothing in a text of the class. *)
Lemma replace_nothing m rep q s :
  (forall t, every q t = true -> m t = None) ->
  every q s = true ->
  replace m rep s = s.
Proof.
  intros Hm. unfold replace. induction s as [|c s IH]; [done|].
  intros H. cbn [replace_from]. rewrite (Hm _ H).
  cbn in H. apply andb_prop in H as [_ H]. by rewrite IH.
Qed.

Lemma lower_char_plain c :
  plain_char c = true -> plain_char (lower_char c) = true.
Proof.
  destruct c as [[] [] [] [] [] [] [] []]; vm_compute; congruence.
Qed.

(** Where a literal of an [/i] pattern matches, the text holds the
    characters of the literal up to case. *)
Lemma prefix_ci_every q p s :
  prefix_ci p s = true ->
  every (fun c => q (lower_char c)) s = true ->
  every q p = true.
Proof.
  revert s. induction p as [|a p IH]; intros [|b s]; cbn; try done.
  intros H Hs. apply andb_prop in H as [Hab H].
  apply andb_prop in Hs as [Hb Hs]. apply Ascii.eqb_eq in Hab as ->.
  by rewrite Hb, (IH s).
Qed.

Lemma plain_lower s :
  every plain_char s = true ->
  every (fun c => plain_char (lower_char c)) s = true.
Proof. apply every_impl, lower_char_plain. Qed.

Lemma script_block_plain t : every plain_char t = true -> script_block t = None.
Proof.
  intros H. unfold script_block.
  destruct (prefix_ci "<script" t) eqn:Hp; [|done].
  pose proof (prefix_ci_every plain_char _ _ Hp (plain_lower _ H)) as Hc.
  discriminate Hc.
Qed.

Lemma javascript_plain t :
  every plain_char t = true -> literal_ci "javascript:" t = None.
Proof.
  intros H. unfold literal_ci.
  destruct (prefix_ci "javascript:" t) eqn:Hp; [|done].
  pose proof (prefix_ci_every plain_char _ _ Hp (plain_lower _ H)) as Hc.
  discriminate Hc.
Qed.

Lemma event_handler_plain t :
  every plain_char t = true -> event_handler t = None.
Proof.
  intros H. unfold event_handler.
  destruct (prefix_ci "on" t); [|done].
  destruct (span is_word (drop 2 t)) as [|w]; [done|].
  pose proof (every_drop plain_char
                (span is_space (drop (S w) (drop 2 t)))
                _ (every_drop _ (S w) _ (every_drop _ 2 _ H))) as Hd.
  destruct (drop (span is_space (drop (S w) (drop 2 t)))
              (drop (S w) (drop 2 t))) as [|c rest]; [done|].
  destruct (Ascii.eqb_spec c "=") as [->|]; [|done]. discriminate Hd.
Qed.

Lemma sql_meta_plain t :
  every plain_char t = true -> one_of sql_meta t = None.
Proof.
  destruct t as [|c t]; cbn; [done|]. intros H.
  apply andb_prop in H as [Hc _]. unfold plain_char in Hc.
  destruct (sql_meta c); [|done].
  by rewrite !orb_true_r in Hc.
Qed.

Lemma replace_spaces_tidy s :
  single_spaced s = true -> replace spaces " " s = s.
Proof.
  unfold replace. induction s as [|c s IH]; [done|].
  intros H. rewrite replace_spaces_cons.
  pose proof (single_spaced_tail c s H) as Hs.
  rewrite single_spaced_cons in H. apply andb_prop in H as [H _].
  destruct (is_space c); [|by rewrite IH].
  apply andb_prop in H as [Hc Hhead]. apply Ascii.eqb_eq in Hc as ->.
  destruct s as [|d s]; [done|]. cbn in Hhead.
  apply negb_true_iff in Hhead. cbn [span]. rewrite Hhead.
  by rewrite IH.
Qed.

Lemma trimStart_tidy s : starts_with_space s = false -> trimStart s = s.
Proof. destruct s as [|c s]; cbn; [done|]. by intros ->. Qed.

Lemma trimEnd_tidy s : ends_with_space s = false -> trimEnd s = s.
Proof.
  induction s as [|c s IH]; [done|]. cbn.
  destruct s as [|d s]; [by intros ->|].
  intros H. rewrite IH by exact H. done.
Qed.

Lemma tidy_fixed s :
  tidy s = true -> trim (replace spaces " " s) = s.
Proof.
  unfold tidy. intros H. apply andb_prop in H as [H Hend].
  apply andb_prop in H as [Hsingle Hstart].
  apply negb_true_iff in Hend, Hstart.
  rewrite replace_spaces_tidy by done. unfold trim.
  rewrite trimStart_tidy by done. by apply trimEnd_tidy.
Qed.

(** On a text of plain characters with tidy whitespace the sanitizer
    changes nothing. *)
Lemma sanitizeInput_fixed s :
  every plain_char s = true -> tidy s = true -> sanitizeInput s = s.
Proof.
  intros Hplain Htidy. rewrite sanitizeInput_passes.
  rewrite (replace_nothing script_block "" plain_char)
    by (done || apply script_block_plain).
  rewrite (replace_nothing (literal_ci "javascript:") "" plain_char)
    by (done || apply javascript_plain).
  rewrite (replace_nothing event_handler "" plain_char)
    by (done || apply event_handler_plain).
  rewrite (replace_nothing (one_of sql_meta) "" plain_char)
    by (done || apply sql_meta_plain).
  by apply tidy_fixed.
Qed.

(** A text of plain characters stays one under the sanitizer. *)
Lemma sanitizeInput_plain s :
  every plain_char s = true -> every plain_char (sanitizeInput s) = true.
Proof.
  intros H. rewrite sanitizeInput_passes. apply trim_every.
  repeat (apply replace_from_every; [done|]). exact H.
Qed.

(** X3. When the sanitized query holds none of [<], [:] and [=], sanitizing it
    once more changes nothing. *)
Theorem sanitizeInput_idempotent_when_plain text :
  every (fun c => negb (Ascii.eqb c "<" || Ascii.eqb c ":" || Ascii.eqb c "="))
    (sanitizeInput text) = true ->
  sanitizeInput (sanitizeInput text) = sanitizeInput text.
Proof.
  intros H. apply sanitizeInput_fixed; [|apply sanitizeInput_whitespace].
  pose proof (sanitizeInput_meta_free text) as Hmeta.
  induction (sanitizeInput text) as [|c s IH]; [done|].
  cbn in *. apply andb_prop in H as [Hc H].
  apply andb_prop in Hmeta as [Hm Hmeta]. rewrite IH by done.
  unfold plain_char. apply negb_true_iff in Hc, Hm.
  rewrite !orb_false_iff in Hc. destruct Hc as [[-> ->] ->].
  by rewrite Hm.
Qed.

(** On a query without [<], [:], [=], quotes, semicolons and backslashes
    the sanitizer is idempotent. *)
Theorem sanitizeInput_idempotent_on_plain text :
  every plain_char text = true ->
  sanitizeInput (sanitizeInput text) = sanitizeInput text.
Proof.
  intros H. apply sanitizeInput_fixed;
    [by apply sanitizeInput_plain|apply sanitizeInput_whitespace].
Qed.

End SanitizeInput.

Section SanitizeOutput.
Import JsString Guardrails.

Implicit Types (s t text : string).

Lemma literal_char d c s :
  literal (String d EmptyString) (String c s)
  = if Ascii.eqb c d then Some 1 else None.
Proof.
  unfold literal. cbn.
  destruct (ascii_dec d c) as [->|Hne].
  - rewrite Ascii.eqb_refl. by destruct s.
  - destruct (Ascii.eqb_spec c d); [congruence|done].
Qed.

(** Replacing every [d] by a text without [d] leaves no [d]. *)
Lemma replace_char_gone d rep k s :
  every (fun c => negb (Ascii.eqb c d)) rep = true ->
  every (fun c => negb (Ascii.eqb c d))
    (replace_from (literal (String d EmptyString)) rep k s) = true.
Proof.
  intros Hrep. revert k. induction s as [|c s IH]; intros k; [done|].
  cbn [replace_from]. destruct k as [|k]; [|apply IH].
  rewrite literal_char. destruct (Ascii.eqb c d) eqn:Hc.
  - by rewrite every_app, Hrep, IH.
  - cbn. by rewrite Hc, IH.
Qed.

Lemma no_angle_safe s : every no_angle s = true -> safe_markup s.
Proof.
  induction s as [|c s IH]; cbn; [constructor|].
  intros H. apply andb_prop in H as [Hc H].
  constructor; [by apply negb_true_iff|by apply IH].
Qed.

(** How a safe text starts: with a character that is no angle bracket, or
    with one of the restored tags. *)
Lemma safe_markup_inv c s :
  safe_markup (String c s) ->
  angle c = false /\ safe_markup s
  \/ exists tag rest,
      In tag allowedTags /\ String c s = tag ++ rest /\ safe_markup rest.
Proof.
  inversion 1 as [|c' s' Hc Hs|tag rest Hin Hrest Heq]; [by left|].
  right. by exists tag, rest.
Qed.

Lemma tag_starts tag rest c s :
  In tag allowedTags -> String c s = tag ++ rest -> c = "<"%char.
Proof.
  intros Hin. repeat (destruct Hin as [<-|Hin]; [by intros [= -> _]|]).
  destruct Hin.
Qed.

(** Behind a match of a pattern without angle brackets a safe text is
    safe. *)
Lemma safe_behind_match p s :
  every no_angle p = true ->
  String.prefix p s = true ->
  safe_markup s ->
  safe_markup (drop (String.length p) s).
Proof.
  revert s. induction p as [|a p IH]; intros s Hp Hpre Hs.
  - by destruct s.
  - destruct s as [|b s]; [done|]. cbn in Hp, Hpre |- *.
    apply andb_prop in Hp as [Ha Hp].
    destruct (ascii_dec a b) as [<-|]; [|done].
    apply safe_markup_inv in Hs as [[_ Hs]|(tag & rest & Hin & Heq & _)].
    + by apply IH.
    + apply (tag_starts _ _ _ _ Hin) in Heq as ->. discriminate Ha.
Qed.

Lemma prefix_cons a p b s :
  String.prefix (String a p) (String b s)
  = if ascii_dec a b then String.prefix p s else false.
Proof. reflexivity. Qed.

Lemma literal_amp_match p c s k :
  literal (String "&" p) (String c s) = Some (S k) ->
  k = String.length p /\ String.prefix p s = true.
Proof.
  unfold literal. rewrite prefix_cons.
  destruct (ascii_dec "&" c); [|done].
  destruct (String.prefix p s); [|done]. cbn. by intros [= <-].
Qed.

(** A restoring pass copies the tags that earlier passes restored. *)
Lemma restore_copies_tag p rep tag rest :
  In tag allowedTags ->
  replace_from (literal (String "&" p)) rep 0 (tag ++ rest)
  = tag ++ replace_from (literal (String "&" p)) rep 0 rest.
Proof.
  intros Hin.
  repeat (destruct Hin as [<-|Hin]; [reflexivity|]). destruct Hin.
Qed.

Lemma length_append s t :
  String.length (s ++ t) = String.length s + String.length t.
Proof. induction s as [|c s IH]; [done|]. simpl. by rewrite IH. Qed.

Lemma tag_length tag rest :
  In tag allowedTags -> String.length rest < String.length (tag ++ rest).
Proof.
  intros Hin. rewrite length_append.
  repeat (destruct Hin as [<-|Hin]; [simpl; lia|]). destruct Hin.
Qed.

Lemma drop_length k s : String.length (drop k s) <= String.length s.
Proof.
  revert s. induction k as [|k IH]; intros [|c s]; cbn; try lia.
  specialize (IH s). lia.
Qed.

(** A pass that restores one tag keeps a safe text safe. *)
Lemma restore_safe p tag :
  In tag allowedTags ->
  every no_angle p = true ->
  forall n s,
    String.length s <= n ->
    safe_markup s ->
    safe_markup (replace_from (literal (String "&" p)) tag 0 s).
Proof.
  intros Htag Hp. induction n as [|n IH]; intros [|c s] Hlen Hs;
    try (cbn; constructor); cbn in Hlen; [lia|].
  destruct (safe_markup_inv _ _ Hs) as [[Hc Hs']|(tg & rest & Hin & Heq & Hrest)].
  - cbn [replace_from].
    destruct (literal (String "&" p) (String c s)) as [[|k]|] eqn:Hm.
    + constructor; [done|]. apply IH; [lia|done].
    + apply literal_amp_match in Hm as [-> Hpre].
      rewrite replace_from_drop. constructor; [done|].
      apply IH; [|by apply safe_behind_match].
      pose proof (drop_length (String.length p) s). lia.
    + constructor; [done|]. apply IH; [lia|done].
  - rewrite Heq, restore_copies_tag by done. constructor; [done|].
    apply IH; [|done].
    pose proof (tag_length tg rest Hin) as Hl. rewrite <- Heq in Hl.
    cbn in Hl. lia.
Qed.

Lemma trimStart_safe s : safe_markup s -> safe_markup (trimStart s).
Proof.
  induction 1 as [|c s Hc Hs IH|tag s Hin Hs IH]; [constructor| |].
  - cbn. destruct (is_space c); [done|by constructor].
  - assert (trimStart (tag ++ s) = tag ++ s) as ->; [|by constructor].
    repeat (destruct Hin as [<-|Hin]; [reflexivity|]). destruct Hin.
Qed.

Lemma append_cons c s t : String c s ++ t = String c (s ++ t).
Proof. reflexivity. Qed.

Lemma append_nil t : EmptyString ++ t = t.
Proof. reflexivity. Qed.

Lemma trimEnd_cons c s :
  is_space c = false -> trimEnd (String c s) = String c (trimEnd s).
Proof. intros H. cbn. rewrite H. by destruct (trimEnd s). Qed.

Lemma trimEnd_app_tag tag s :
  In tag allowedTags -> trimEnd (tag ++ s) = tag ++ trimEnd s.
Proof.
  intros Hin.
  repeat (destruct Hin as [<-|Hin];
          [rewrite !append_cons, !append_nil;
           by rewrite !trimEnd_cons by reflexivity|]).
  destruct Hin.
Qed.

Lemma trimEnd_safe s : safe_markup s -> safe_markup (trimEnd s).
Proof.
  induction 1 as [|c s Hc Hs IH|tag s Hin Hs IH]; [constructor| |].
  - cbn. destruct (trimEnd s) as [|d t].
    + destruct (is_space c); repeat constructor; done.
    + by constructor.
  - rewrite trimEnd_app_tag by done. by constructor.
Qed.

Lemma sanitizeOutput_passes text :
  sanitizeOutput text
  = trim
      (replace (literal "&lt;/em&gt;") "</em>"
         (replace (literal "&lt;em&gt;") "<em>"
            (replace (literal "&lt;/strong&gt;") "</strong>"
               (replace (literal "&lt;strong&gt;") "<strong>"
                  (replace (literal "&lt;br&gt;") "<br>"
                     (replace (literal ">") "&gt;"
                        (replace (literal "<") "&lt;"
                           (replace event_handler ""
                              (replace script_block "" text))))))))).
Proof. by destruct text. Qed.

Lemma sanitizeOutput_markup text : safe_markup (sanitizeOutput text).
Proof.
  rewrite sanitizeOutput_passes. unfold trim, replace.
  apply trimEnd_safe, trimStart_safe.
  repeat (eapply restore_safe; [cbn; tauto|reflexivity|reflexivity|]).
  apply no_angle_safe.
  set (s2 := replace_from event_handler "" 0 _).
  assert (H3 : every (fun c => negb (Ascii.eqb c "<"))
                 (replace_from (literal "<") "&lt;" 0 s2) = true)
    by (by apply replace_char_gone).
  assert (H4 : every (fun c => negb (Ascii.eqb c ">"))
                 (replace_from (literal ">") "&gt;" 0
                    (replace_from (literal "<") "&lt;" 0 s2)) = true)
    by (by apply replace_char_gone).
  assert (H4' : every (fun c => negb (Ascii.eqb c "<"))
                  (replace_from (literal ">") "&gt;" 0
                     (replace_from (literal "<") "&lt;" 0 s2)) = true)
    by (by apply replace_from_every).
  revert H4 H4'.
  generalize (replace_from (literal ">") "&gt;" 0
                (replace_from (literal "<") "&lt;" 0 s2)).
  induction s as [|c s IH]; cbn; [done|].
  intros H H'. apply andb_prop in H as [Hc H].
  apply andb_prop in H' as [Hc' H']. rewrite IH by done.
  unfold no_angle, angle. apply negb_true_iff in Hc, Hc'.
  by rewrite Hc, Hc'.
Qed.

(** X4. In what [sanitizeOutput] returns, every [<] and every [>] belongs to
    one of the five tags that it restores. *)
Theorem sanitizeOutput_safe_markup text : safe_markup (sanitizeOutput text).
Proof. apply sanitizeOutput_markup. Qed.

Lemma lower_char_angle c : angle c = false -> angle (lower_char c) = false.
Proof.
  destruct c as [[] [] [] [] [] [] [] []]; vm_compute; congruence.
Qed.

Lemma toLowerCase_app s t :
  toLowerCase (s ++ t) = toLowerCase s ++ toLowerCase t.
Proof. induction s as [|c s IH]; [done|]. simpl. by rewrite IH. Qed.

Lemma toLowerCase_safe s : safe_markup s -> safe_markup (toLowerCase s).
Proof.
  induction 1 as [|c s Hc Hs IH|tag s Hin Hs IH]; [constructor| |].
  - cbn. constructor; [by apply lower_char_angle|done].
  - rewrite toLowerCase_app.
    assert (toLowerCase tag = tag) as ->; [|by constructor].
    repeat (destruct Hin as [<-|Hin]; [reflexivity|]). destruct Hin.
Qed.

Lemma includes_cons c s t :
  includes (String c s) t = String.prefix t (String c s) || includes s t.
Proof. reflexivity. Qed.

(** No text in which the angle brackets are those of the restored tags
    holds the opening of a script tag. *)
Lemma safe_markup_no_script s :
  safe_markup s -> includes s "<script" = false.
Proof.
  induction 1 as [|c s Hc Hs IH|tag s Hin Hs IH]; [done| |].
  - rewrite includes_cons, IH, prefix_cons.
    destruct (ascii_dec "<" c) as [<-|]; [discriminate Hc|done].
  - repeat (destruct Hin as [<-|Hin];
            [rewrite !append_cons, !append_nil, !includes_cons, IH;
             reflexivity|]).
    destruct Hin.
Qed.

(** X5. What [sanitizeOutput] returns holds no opening of a script tag, in
    whatever case its letters are. *)
Theorem sanitizeOutput_no_script text :
  includes (toLowerCase (sanitizeOutput text)) "<script" = false.
Proof.
  apply safe_markup_no_script, toLowerCase_safe, sanitizeOutput_markup.
Qed.

End SanitizeOutput.

(** [sanitizeInput_idempotent_when_plain] on a query with a quote, a
    semicolon and runs of blanks. *)
Lemma sanitizeInput_idempotent_when_plain_witness :
  let text := "  what's   new; here  " in
  JsString.every
    (fun c => negb (Ascii.eqb c "<" || Ascii.eqb c ":" || Ascii.eqb c "="))
    (Guardrails.sanitizeInput text) = true
  /\ Guardrails.sanitizeInput (Guardrails.sanitizeInput text)
     = Guardrails.sanitizeInput text.
Proof.
  intros text. split; [reflexivity|].
  apply sanitizeInput_idempotent_when_plain. reflexivity.
Defined.

(** ** The rate-limit map under the administration methods *)

Section RateLimitStore.
Import Guardrails Calls.

Implicit Types (g : Guardrails.t) (rl : RateLimit).

Lemma validateQuery_records g q uid now :
  snd (validateQuery g q uid now) = g
  \/ exists rl,
       rateLimit g = Some rl
       /\ (Z.of_nat (length (recent rl now (recorded g (default "default" uid))))
           < requests rl)%Z
       /\ snd (validateQuery g q uid now)
          = set_requestCounts g
              (<[default "default" uid :=
                   (recent rl now (recorded g (default "default" uid))
                    ++ [now])%list]> (requestCounts g)).
Proof.
  unfold validateQuery.
  destruct (negb (enabled g)); [by left|].
  destruct (_ >? _)%Z; [by left|].
  destruct (rateLimit g) as [rl|]; cbn zeta.
  - fold (recorded g (default "default" uid)).
    destruct (Z.geb_spec
                (Z.of_nat (length (recent rl now
                                     (recorded g (default "default" uid)))))
                (requests rl)) as [Hfull|Hroom]; [by left|].
    right. exists rl. split; [done|]. split; [lia|].
    by destruct (existsb _ _).
  - left. by destruct (existsb _ _).
Qed.

Lemma validateQuery_within g rl q uid now :
  rateLimit g = Some rl ->
  within rl (requestCounts g) ->
  within rl (requestCounts (snd (validateQuery g q uid now))).
Proof.
  intros Hrl Hin.
  destruct (validateQuery_records g q uid now) as [->|(rl' & Hrl' & Hroom & ->)];
    [done|].
  assert (rl' = rl) as -> by congruence.
  cbn. apply map_Forall_insert_2; [|done].
  rewrite length_app. cbn. lia.
Qed.

Lemma validateQueries_rateLimit g calls :
  rateLimit (snd (validateQueries g calls)) = rateLimit g.
Proof.
  revert g. induction calls as [|c calls IH]; intros g; [done|].
  cbn. destruct (validateQuery g (text c) (caller c) (at_time c)) as [v g1] eqn:E.
  specialize (IH g1). destruct (validateQueries g1 calls) as [vs g2].
  cbn in *. rewrite IH.
  change g1 with (snd (v, g1)). rewrite <- E.
  destruct (validateQuery_records g (text c) (caller c) (at_time c))
    as [->|(rl & _ & _ & ->)]; done.
Qed.

Lemma validateQueries_within g rl calls :
  rateLimit g = Some rl ->
  within rl (requestCounts g) ->
  within rl (requestCounts (snd (validateQueries g calls))).
Proof.
  revert g. induction calls as [|c calls IH]; intros g Hrl Hin; [done|].
  cbn. pose proof (validateQuery_within g rl (text c) (caller c) (at_time c)
                     Hrl Hin) as H1.
  pose proof (validateQueries_rateLimit g [c]) as H2. cbn in H2.
  destruct (validateQuery g (text c) (caller c) (at_time c)) as [v g1].
  cbn in H1, H2. specialize (IH g1). rewrite H2 in IH.
  specialize (IH Hrl H1).
  by destruct (validateQueries g1 calls) as [vs g2].
Qed.

Lemma validateQueries_unlimited g calls :
  rateLimit g = None ->
  snd (validateQueries g calls) = g.
Proof.
  revert g. induction calls as [|c calls IH]; intros g Hrl; [done|].
  cbn.
  destruct (validateQuery_records g (text c) (caller c) (at_time c))
    as [H|(rl & Hrl' & _)]; [|congruence].
  destruct (validateQuery g (text c) (caller c) (at_time c)) as [v g1].
  cbn in H. subst g1. specialize (IH g Hrl).
  by destruct (validateQueries g calls) as [vs g2].
Qed.

(** X6. Whatever calls a newly constructed object serves, it keeps at most
    [requests] timestamps for each user; without a rate limit it keeps
    none. *)
Theorem requestCounts_bounded config calls user :
  let g := snd (validateQueries (constructor config) calls) in
  match cfg_rateLimit config with
  | Some rl => (Z.of_nat (length (recorded g user)) <= Z.max 0 (requests rl))%Z
  | None => requestCounts g = ∅
  end.
Proof.
  cbn zeta. destruct (cfg_rateLimit config) as [rl|] eqn:Hrl.
  - assert (within rl (requestCounts
                         (snd (validateQueries (constructor config) calls))))
      as Hin by (apply validateQueries_within; [done|apply map_Forall_empty]).
    unfold recorded.
    destruct (requestCounts _ !! user) as [l|] eqn:Hl; cbn; [|lia].
    apply Hin in Hl. cbn in Hl. lia.
  - by rewrite validateQueries_unlimited.
Qed.

Lemma validateQuery_dom g q uid now :
  dom (requestCounts g) ⊆ dom (requestCounts (snd (validateQuery g q uid now))).
Proof.
  destruct (validateQuery_records g q uid now) as [->|(rl & _ & _ & ->)];
    [done|].
  cbn. rewrite dom_insert. set_solver.
Qed.

Lemma validateQueries_dom g calls :
  dom (requestCounts g) ⊆ dom (requestCounts (snd (validateQueries g calls))).
Proof.
  revert g. induction calls as [|c calls IH]; intros g; [done|].
  cbn. pose proof (validateQuery_dom g (text c) (caller c) (at_time c)) as H1.
  destruct (validateQuery g (text c) (caller c) (at_time c)) as [v g1].
  specialize (IH g1). destruct (validateQueries g1 calls) as [vs g2].
  cbn in *. set_solver.
Qed.

(** X7. [validateQuery] never drops a user from the rate-limit map: over any
    calls the users that the map knows stay known and [activeUsers] of
    [getStats] does not fall. *)
Theorem activeUsers_never_falls g calls :
  let g' := snd (validateQueries g calls) in
  dom (requestCounts g) ⊆ dom (requestCounts g')
  /\ activeUsers (getStats g) <= activeUsers (getStats g').
Proof.
  cbn zeta. split; [apply validateQueries_dom|].
  cbn. rewrite <- !size_dom. apply subseteq_size, validateQueries_dom.
Qed.

Lemma validateQuery_first_call g rl q uid now :
  recorded g (default "default" uid) = [] ->
  enabled g = true ->
  rateLimit g = Some rl ->
  (0 < requests rl)%Z ->
  (Z.of_nat (String.length q) <= maxQueryLength g)%Z ->
  reason (fst (validateQuery g q uid now)) <> Some (rateLimitReason rl)
  /\ recorded (snd (validateQuery g q uid now)) (default "default" uid) = [now].
Proof.
  intros Hnone Hen Hrl Hpos Hfit.
  unfold validateQuery. rewrite Hen, Hrl. cbn [negb].
  destruct (Z.gtb_spec (Z.of_nat (String.length q)) (maxQueryLength g));
    [lia|].
  fold (recorded g (default "default" uid)). rewrite Hnone.
  change (recent rl now []) with (@nil Z). cbn [length app].
  destruct (Z.geb_spec (Z.of_nat 0) (requests rl)); [lia|].
  cbn [set_requestCounts blockedTerms sensitiveTopics].
  destruct (existsb _ _); cbn [fst snd reason rejected]; split;
    try (unfold recorded; cbn; by rewrite lookup_insert_eq).
  all: discriminate.
Qed.

(** X8. After [resetRateLimit(user)] the next call of that user that passes
    the length check is not throttled, whatever the user had sent before,
    and it is recorded as the only request of a new window. *)
Theorem resetRateLimit_opens_window g rl q user now :
  enabled g = true ->
  rateLimit g = Some rl ->
  (0 < requests rl)%Z ->
  (Z.of_nat (String.length q) <= maxQueryLength g)%Z ->
  let run := validateQuery (resetRateLimit g user) q (Some user) now in
  reason (fst run) <> Some (rateLimitReason rl)
  /\ recorded (snd run) user = [now].
Proof.
  intros Hen Hrl Hpos Hfit.
  apply (validateQuery_first_call (resetRateLimit g user) rl q (Some user) now);
    try done.
  unfold recorded, resetRateLimit. cbn. by rewrite lookup_delete_eq.
Qed.

(** X9. After [clearRateLimits()] the next call of any user that passes the
    length check is not throttled and is the only request recorded for
    that user; [getStats] reports no active user. *)
Theorem clearRateLimits_opens_windows g rl q uid now :
  enabled g = true ->
  rateLimit g = Some rl ->
  (0 < requests rl)%Z ->
  (Z.of_nat (String.length q) <= maxQueryLength g)%Z ->
  let run := validateQuery (clearRateLimits g) q uid now in
  activeUsers (getStats (clearRateLimits g)) = 0
  /\ reason (fst run) <> Some (rateLimitReason rl)
  /\ recorded (snd run) (default "default" uid) = [now].
Proof.
  intros Hen Hrl Hpos Hfit. split; [done|].
  by apply (validateQuery_first_call (clearRateLimits g) rl q uid now).
Qed.

(** X10. A call of one user and [resetRateLimit] of another commute: the reset
    changes neither the result of the call nor what the call records. *)
Theorem resetRateLimit_other_user g q uid user now :
  default "default" uid <> user ->
  validateQuery (resetRateLimit g user) q uid now
  = (fst (validateQuery g q uid now),
     resetRateLimit (snd (validateQuery g q uid now)) user).
Proof.
  intros Hne. unfold validateQuery.
  change (enabled (resetRateLimit g user)) with (enabled g).
  change (maxQueryLength (resetRateLimit g user)) with (maxQueryLength g).
  change (rateLimit (resetRateLimit g user)) with (rateLimit g).
  destruct (negb (enabled g)); [done|].
  destruct (_ >? _)%Z; [done|].
  destruct (rateLimit g) as [rl|]; cbn zeta.
  - change (requestCounts (resetRateLimit g user))
      with (delete user (requestCounts g)).
    rewrite lookup_delete_ne by done.
    destruct (_ >=? _)%Z; [done|].
    cbn [set_requestCounts blockedTerms sensitiveTopics resetRateLimit].
    destruct (existsb _ _); cbn [fst snd]; f_equal;
      unfold resetRateLimit; cbn; by rewrite delete_insert_ne.
  - change (blockedTerms (resetRateLimit g user)) with (blockedTerms g).
    change (sensitiveTopics (resetRateLimit g user)) with (sensitiveTopics g).
    by destruct (existsb _ _).
Qed.

End RateLimitStore.

(** ** Policies: what an update and the disclaimers can do *)

Section PolicyUpdates.
Import Guardrails Calls.

Implicit Types (g : Guardrails.t) (rl : RateLimit).

Lemma updatePolicies_blockedTerms g newPolicies :
  exists more,
    blockedTerms (updatePolicies g newPolicies) = (blockedTerms g ++ more)%list.
Proof.
  cbn. destruct (new_blockedTerms newPolicies) as [terms|]; [by exists terms|].
  exists []. by rewrite app_nil_r.
Qed.

Lemma updatePolicies_rejection g newPolicies q uid now :
  new_rateLimit newPolicies = None ->
  allowed (fst (validateQuery g q uid now)) = false ->
  fst (validateQuery (updatePolicies g newPolicies) q uid now)
  = fst (validateQuery g q uid now).
Proof.
  intros Hrl. unfold validateQuery.
  change (enabled (updatePolicies g newPolicies)) with (enabled g).
  change (maxQueryLength (updatePolicies g newPolicies)) with (maxQueryLength g).
  change (requestCounts (updatePolicies g newPolicies)) with (requestCounts g).
  assert (rateLimit (updatePolicies g newPolicies) = rateLimit g) as ->
    by (cbn; by rewrite Hrl).
  destruct (updatePolicies_blockedTerms g newPolicies) as [more Hmore].
  destruct (negb (enabled g)); [done|].
  destruct (_ >? _)%Z; [done|].
  assert (forall m m',
            blockedTerms (set_requestCounts (updatePolicies g newPolicies) m)
            = (blockedTerms (set_requestCounts g m') ++ more)%list) as Hset
    by (intros; exact Hmore).
  destruct (rateLimit g) as [rl|]; cbn zeta.
  - destruct (_ >=? _)%Z; [done|].
    rewrite (Hset _ (<[default "default" uid :=
                         (recent rl now
                            (default [] (requestCounts g !! default "default" uid))
                          ++ [now])%list]> (requestCounts g))).
    rewrite existsb_app.
    destruct (existsb _ (blockedTerms _)); [done|]. cbn. discriminate.
  - rewrite Hmore, existsb_app.
    destruct (existsb _ (blockedTerms _)); [done|]. cbn. discriminate.
Qed.

Lemma updatePolicies_document g newPolicies content :
  validateDocument g content = false ->
  validateDocument (updatePolicies g newPolicies) content = false.
Proof.
  unfold validateDocument.
  change (enabled (updatePolicies g newPolicies)) with (enabled g).
  destruct (updatePolicies_blockedTerms g newPolicies) as [more ->].
  destruct (negb (enabled g)); [done|].
  rewrite existsb_app. destruct (existsb _ (blockedTerms g)); [done|].
  discriminate.
Qed.

(** X11. [updatePolicies] only adds to what is refused. A document that is
    filtered out stays filtered out. A query that is rejected stays
    rejected, with the same result, when the update leaves the rate limit
    alone; the rate-limit map is left as it is in any case. *)
Theorem updatePolicies_only_tightens g newPolicies :
  requestCounts (updatePolicies g newPolicies) = requestCounts g
  /\ (forall content,
         validateDocument g content = false ->
         validateDocument (updatePolicies g newPolicies) content = false)
  /\ (new_rateLimit newPolicies = None ->
      forall q uid now,
        allowed (fst (validateQuery g q uid now)) = false ->
        fst (validateQuery (updatePolicies g newPolicies) q uid now)
        = fst (validateQuery g q uid now)).
Proof.
  split; [done|]. split.
  - intros content. apply updatePolicies_document.
  - intros Hrl q uid now. by apply updatePolicies_rejection.
Qed.

Lemma append_empty s : s ++ "" = s.
Proof. induction s as [|c s IH]; [done|]. by rewrite append_cons, IH. Qed.

Lemma append_assoc (s t u : string) : (s ++ t) ++ u = s ++ t ++ u.
Proof.
  induction s as [|c s IH]; [done|]. by rewrite !append_cons, IH.
Qed.

Lemma applyResponsePolicies_adds g query :
  exists suffix,
    forall response, applyResponsePolicies g response query = response ++ suffix.
Proof.
  unfold applyResponsePolicies.
  destruct (Policies.responsePolicies (policies g)) as [rp|];
    [|exists ""; intros; by rewrite append_empty].
  cbn zeta.
  destruct ((_ ++ _ ++ _)%list) as [|d ds];
    [exists ""; intros; by rewrite append_empty|].
  by eexists.
Qed.

(** X12. [applyResponsePolicies] only appends: what it adds to the response
    depends on the policies and on the query, not on the response. Applied
    to its own result it appends the same disclaimers a second time. *)
Theorem applyResponsePolicies_appends g query :
  exists suffix,
    forall response,
      applyResponsePolicies g response query = response ++ suffix
      /\ applyResponsePolicies g (applyResponsePolicies g response query) query
         = response ++ suffix ++ suffix.
Proof.
  destruct (applyResponsePolicies_adds g query) as [suffix H].
  exists suffix. intros response. by rewrite !H, append_assoc.
Qed.

End PolicyUpdates.

(** * Further properties of the engine *)

(** ** The answers behind enabled guardrails *)

Section Answers.
Import JsString Guardrails RAGEngine.

Lemma digits_no_angle d : every no_angle (NilEmpty.string_of_uint d) = true.
Proof. induction d; cbn; by rewrite ?IHd. Qed.

Lemma of_uint_no_angle d : every no_angle (NilZero.string_of_uint d) = true.
Proof. destruct d; try apply digits_no_angle. reflexivity. Qed.

Lemma of_Z_no_angle z : every no_angle (of_Z z) = true.
Proof.
  unfold of_Z. destruct (Z.to_int z) as [d|d]; cbn;
    by rewrite ?of_uint_no_angle.
Qed.

Lemma seconds_no_angle w : every no_angle (seconds w) = true.
Proof.
  unfold seconds. cbn zeta.
  repeat match goal with
         | |- context [if ?b then _ else _] => destruct b
         end;
    rewrite ?every_app, ?of_Z_no_angle; reflexivity.
Qed.

Lemma lengthReason_no_angle max : every no_angle (lengthReason max) = true.
Proof. unfold lengthReason. by rewrite !every_app, of_Z_no_angle. Qed.

Lemma responseLengthReason_no_angle max :
  every no_angle (responseLengthReason max) = true.
Proof. unfold responseLengthReason. by rewrite !every_app, of_Z_no_angle. Qed.

Lemma rateLimitReason_no_angle rl : every no_angle (rateLimitReason rl) = true.
Proof.
  unfold rateLimitReason.
  by rewrite !every_app, of_Z_no_angle, seconds_no_angle.
Qed.

Lemma checkContentModeration_no_angle cm text why :
  checkContentModeration cm text = Some why -> every no_angle why = true.
Proof.
  unfold checkContentModeration.
  destruct (_ && _); [by intros [= <-]|].
  destruct (_ && _); [by intros [= <-]|done].
Qed.

(** What [applyResponsePolicies] appends holds no angle bracket. *)
Lemma applyResponsePolicies_suffix g query :
  exists suffix,
    every no_angle suffix = true
    /\ forall response,
         applyResponsePolicies g response query = response ++ suffix.
Proof.
  unfold applyResponsePolicies.
  destruct (Policies.responsePolicies (policies g)) as [rp|];
    [|exists ""; split; [done|]; intros; by rewrite append_empty].
  cbn zeta.
  destruct (_ && _); destruct (_ && _); destruct (_ && _);
    cbn [app];
    first [ exists ""; split; [done|]; intros; by rewrite append_empty
          | eexists; split; [|intros; reflexivity]; reflexivity ].
Qed.

Lemma safe_markup_then_plain s t :
  safe_markup s -> every no_angle t = true -> safe_markup (s ++ t).
Proof.
  intros Hs Ht. induction Hs as [|c s Hc Hs IH|tag s Hin Hs IH].
  - by apply no_angle_safe.
  - rewrite append_cons. by constructor.
  - rewrite append_assoc. by constructor.
Qed.

Lemma validateResponse_answer_safe g response query :
  enabled g = true ->
  safe_markup
    (if negb (allowed (validateResponse g response))
     then "Response blocked: "
          ++ interpolate (reason (validateResponse g response))
     else applyResponsePolicies g
            (interpolate (sanitized (validateResponse g response))) query).
Proof.
  intros Hen. unfold validateResponse. rewrite Hen. cbn [negb].
  destruct (_ >? _)%Z.
  { cbn. apply no_angle_safe.
    change (every no_angle (responseLengthReason (maxResponseLength g)) = true).
    apply responseLengthReason_no_angle. }
  destruct (applyResponsePolicies_suffix g query) as (suffix & Hplain & ->).
  assert (safe_markup (sanitizeOutput response ++ suffix)) as Hsafe
    by (apply safe_markup_then_plain; [apply sanitizeOutput_markup|done]).
  destruct (Policies.contentModeration (policies g)) as [cm|]; [|done].
  destruct (checkContentModeration cm _) as [why|] eqn:Hwhy; [|done].
  cbn. apply no_angle_safe.
  change (every no_angle why = true).
  by apply (checkContentModeration_no_angle cm _ _ Hwhy).
Qed.

(** X13. With guardrails that are enabled, every answer that [query] returns
    is free of markup other than the five formatting tags: the text of a
    rejection, the text that replaces a blocked response, and the
    sanitized response with its disclaimers alike. *)
Theorem query_answer_safe_markup e g q options now result :
  guardrails e = Some g ->
  enabled g = true ->
  outcome (query e q options now) = Return result ->
  safe_markup (QueryResult.answer result).
Proof.
  intros Hg Hen. unfold query.
  destruct (negb (initialized e)); [discriminate|].
  destruct (if negb (String.eqb (str_or (Options.mode options) "hybrid") "llm")
            then _ else _) as [[docs0 info]|m]; [|discriminate].
  destruct (selectPrompt _ _ _ _ _) as [[prompt docs] mode].
  rewrite Hg.
  pose proof (validateQuery_rejected_reason g q (Options.userId options) now)
    as Hwhy.
  pose proof (validateResponse_after_validateQuery g q
                (Options.userId options) now) as Hframe.
  pose proof (validateQuery_enabled g q (Options.userId options) now) as Hen'.
  destruct (validateQuery g q (Options.userId options) now) as [v g'].
  cbn [fst snd] in *.
  destruct (allowed v); cbn [negb outcome].
  - intros [= <-]. cbn [QueryResult.answer guardrails set_guardrails].
    apply validateResponse_answer_safe. congruence.
  - intros [= <-]. cbn [QueryResult.answer].
    apply no_angle_safe.
    destruct Hwhy as [->|[(rl & _ & ->)| ->]]; [done| | |]; cbn [interpolate].
    + change (every no_angle (lengthReason (maxQueryLength g)) = true).
      apply lengthReason_no_angle.
    + change (every no_angle (rateLimitReason rl) = true).
      apply rateLimitReason_no_angle.
    + reflexivity.
Qed.

End Answers.

(** ** What reaches the generation backend *)

Section Generation.
Import JsString Guardrails RAGEngine.

Lemma validateDocument_frame g m content :
  validateDocument (set_requestCounts g m) content = validateDocument g content.
Proof. reflexivity. Qed.

Lemma validateDocument_after_validateQuery g q uid now content :
  validateDocument (snd (validateQuery g q uid now)) content
  = validateDocument g content.
Proof.
  destruct (validateQuery_frame g q uid now) as [m ->].
  apply validateDocument_frame.
Qed.

(** What enabled guardrails let through: the sanitized query, which holds
    no blocked term. *)
Lemma validateQuery_allowed_enabled g q uid now :
  enabled g = true ->
  allowed (fst (validateQuery g q uid now)) = true ->
  sanitized (fst (validateQuery g q uid now)) = Some (sanitizeInput q)
  /\ validateDocument g (sanitizeInput q) = true.
Proof.
  intros Hen. unfold validateQuery, validateDocument. rewrite Hen. cbn [negb].
  destruct (_ >? _)%Z; [done|].
  destruct (rateLimit g) as [rl|]; cbn zeta.
  - destruct (_ >=? _)%Z; [done|].
    cbn [set_requestCounts blockedTerms sensitiveTopics].
    by destruct (existsb _ _).
  - by destruct (existsb _ _).
Qed.

(** X14. With guardrails that are enabled, what [query] hands to the
    generation backend is the sanitized query, without quotes, semicolons
    or backslashes and without a blocked term, and context documents
    without a blocked term. *)
Theorem query_generation_input_clean e g q options now call :
  guardrails e = Some g ->
  enabled g = true ->
  In call (llmCalls (query e q options now)) ->
  call_query call = sanitizeInput q
  /\ every (fun c => negb (sql_meta c)) (call_query call) = true
  /\ validateDocument g (call_query call) = true
  /\ Forall (fun doc => validateDocument g (content doc) = true)
       (call_context call).
Proof.
  intros Hg Hen. unfold query.
  destruct (negb (initialized e)); [intros []|].
  destruct (if negb (String.eqb (str_or (Options.mode options) "hybrid") "llm")
            then _ else _) as [[docs0 info]|m]; [|intros []].
  destruct (selectPrompt _ _ _ _ _) as [[prompt docs] mode].
  rewrite Hg.
  pose proof (validateQuery_allowed_enabled g q (Options.userId options) now Hen)
    as Hclean.
  pose proof (validateDocument_after_validateQuery g q
                (Options.userId options) now) as Hframe.
  destruct (validateQuery g q (Options.userId options) now) as [v g'].
  cbn [fst snd] in *.
  destruct (allowed v); cbn [negb llmCalls]; [|intros []].
  destruct (Hclean eq_refl) as [-> Hterm].
  intros [<-|[]]. cbn [call_query call_context interpolate].
  split; [done|]. split; [apply sanitizeInput_meta_free|]. split; [done|].
  destruct (String.eqb mode "llm"); [constructor|].
  cbn [guardrails set_guardrails].
  apply List.Forall_forall. intros doc Hdoc. apply filter_In in Hdoc as [_ Hdoc].
  by rewrite <- Hframe.
Qed.

(** X15. No source that [query] returns behind guardrails fails
    [validateDocument]: with enabled guardrails none holds a blocked
    term. *)
Theorem query_sources_filtered e g q options now result :
  guardrails e = Some g ->
  outcome (query e q options now) = Return result ->
  Forall (fun source => validateDocument g (Source.content source) = true)
    (QueryResult.sources result).
Proof.
  intros Hg. unfold query.
  destruct (negb (initialized e)); [discriminate|].
  destruct (if negb (String.eqb (str_or (Options.mode options) "hybrid") "llm")
            then _ else _) as [[docs0 info]|m]; [|discriminate].
  destruct (selectPrompt _ _ _ _ _) as [[prompt docs] mode].
  rewrite Hg.
  pose proof (validateDocument_after_validateQuery g q
                (Options.userId options) now) as Hframe.
  destruct (validateQuery g q (Options.userId options) now) as [v g'].
  cbn [fst snd] in *.
  destruct (allowed v); cbn [negb outcome]; intros [= <-];
    cbn [QueryResult.sources]; [|constructor].
  cbn [guardrails set_guardrails].
  apply List.Forall_forall. intros source Hsource.
  apply in_map_iff in Hsource as (doc & <- & Hdoc).
  apply filter_In in Hdoc as [_ Hdoc]. cbn [Source.content source_of].
  by rewrite <- Hframe.
Qed.

(** X16. In the mode [llm] an initialized engine retrieves nothing: [query]
    cannot fail on the retrieval, it returns no sources and no routing
    information, and the generation backend gets an empty context. *)
Theorem query_llm_mode e q options now :
  initialized e = true ->
  Options.mode options = Some "llm" ->
  exists result,
    outcome (query e q options now) = Return result
    /\ QueryResult.sources result = []
    /\ QueryResult.routing result = None
    /\ QueryResult.mode result = "llm"
    /\ Forall (fun call => call_context call = [])
         (llmCalls (query e q options now)).
Proof.
  intros Hinit Hmode. unfold query. rewrite Hinit, Hmode. cbn [negb str_or].
  change (String.eqb "llm" "llm") with true. cbn [negb].
  assert (exists prompt,
            selectPrompt e options "llm" [] None = (prompt, [], "llm"))
    as [prompt ->].
  { unfold selectPrompt.
    destruct (Options.systemPrompt options) as [[|c p]|]; eauto. }
  destruct (match guardrails e with Some _ => _ | None => _ end)
    as [[v e'] clean].
  destruct (negb (allowed v)).
  - eexists. split; [reflexivity|]. cbn. repeat split; constructor.
  - eexists. split; [reflexivity|].
    cbn [outcome llmCalls QueryResult.sources QueryResult.routing
         QueryResult.mode].
    change (String.eqb "llm" "llm") with true.
    destruct (guardrails e'); cbn; repeat split; repeat constructor.
Qed.



(** The [switch] on a mode that is none of the three it names. *)
Lemma selectPrompt_auto e options requested docs :
  Options.systemPrompt options = None ->
  requested <> "hybrid" -> requested <> "rag" -> requested <> "llm" ->
  selectPrompt e options requested docs (Some (routingInfoOf docs))
  = if Qle_bool (routingThreshold e) (firstScore docs)
    then (Some getHybridPrompt, docs, "hybrid")
    else (Some getDirectLLMPrompt, docs, "llm").
Proof.
  intros Hprompt Hh Hr Hl. unfold selectPrompt. rewrite Hprompt.
  apply String.eqb_neq in Hh, Hr, Hl. by rewrite Hh, Hr, Hl.
Qed.

(** X17. In the mode [auto], and in any mode other than [hybrid], [rag] and
    [llm], without a system prompt of the caller: the top score decides.
    At the routing threshold or above, the result is a [hybrid] one and
    the generation backend gets the documents that pass the guardrails.
    Below it the result is an [llm] one and the backend gets an empty
    context, yet the result lists the same documents as its sources. *)
Theorem query_auto_mode e q options now docs :
  let requested := str_or (Options.mode options) "hybrid" in
  let kept :=
    match guardrails e with
    | Some g => List.filter (fun doc => validateDocument g (content doc)) docs
    | None => docs
    end in
  initialized e = true ->
  Options.systemPrompt options = None ->
  requested <> "hybrid" -> requested <> "rag" -> requested <> "llm" ->
  retrieve e q (nat_or (Options.topK options) (topK e)) = Return docs ->
  exists result,
    outcome (query e q options now) = Return result
    /\ QueryResult.routing result = Some (routingInfoOf docs)
    /\ (QueryResult.blocked result = None ->
        QueryResult.sources result = List.map source_of kept)
    /\ ((routingThreshold e <= firstScore docs)%Q ->
        QueryResult.mode result = "hybrid"
        /\ Forall (fun call => call_context call = kept)
             (llmCalls (query e q options now)))
    /\ ((firstScore docs < routingThreshold e)%Q ->
        QueryResult.mode result = "llm"
        /\ Forall (fun call => call_context call = [])
             (llmCalls (query e q options now))).
Proof.
  intros requested kept Hinit Hprompt Hh Hr Hl Hret.
  unfold query. rewrite Hinit. cbn [negb]. fold requested.
  apply String.eqb_neq in Hl as Hl'. rewrite Hl'. cbn [negb]. rewrite Hret.
  rewrite (selectPrompt_auto e options requested docs Hprompt Hh Hr Hl).
  assert (forall g m, List.filter
                        (fun doc => validateDocument (set_requestCounts g m)
                                      (content doc)) docs
                      = List.filter
                          (fun doc => validateDocument g (content doc)) docs)
    as Hsame by reflexivity.
  destruct (Qle_bool (routingThreshold e) (firstScore docs)) eqn:Hscore.
  - apply Qle_bool_iff in Hscore.
    destruct (guardrails e) as [g|] eqn:Hg.
    + destruct (validateQuery_frame g q (Options.userId options) now)
        as [m Hm].
      destruct (validateQuery g q (Options.userId options) now) as [v g'].
      cbn [snd] in Hm. subst g'.
      destruct (allowed v); cbn [negb]; eexists; (split; [reflexivity|]);
        cbn [outcome llmCalls QueryResult.routing QueryResult.blocked
             QueryResult.sources QueryResult.mode guardrails set_guardrails
             call_context];
        change (String.eqb "hybrid" "llm") with false; cbn iota;
        rewrite ?Hsame;
        (split; [done|]); (split; [done|]);
        (split; [intros _; split; [done|repeat constructor]|]);
        intros Hlow; by apply Qlt_not_le in Hlow.
    + cbn [negb allowed]. eexists. split; [reflexivity|].
      cbn [outcome llmCalls QueryResult.routing QueryResult.blocked
           QueryResult.sources QueryResult.mode guardrails call_context].
      rewrite Hg. change (String.eqb "hybrid" "llm") with false. cbn iota.
      split; [done|]. split; [done|].
      split; [intros _; split; [done|repeat constructor]|].
      intros Hlow. by apply Qlt_not_le in Hlow.
  - assert (~ (routingThreshold e <= firstScore docs)%Q) as Hnot.
    { intros Hle. apply Qle_bool_iff in Hle. congruence. }
    destruct (guardrails e) as [g|] eqn:Hg.
    + destruct (validateQuery_frame g q (Options.userId options) now)
        as [m Hm].
      destruct (validateQuery g q (Options.userId options) now) as [v g'].
      cbn [snd] in Hm. subst g'.
      destruct (allowed v); cbn [negb]; eexists; (split; [reflexivity|]);
        cbn [outcome llmCalls QueryResult.routing QueryResult.blocked
             QueryResult.sources QueryResult.mode guardrails set_guardrails
             call_context];
        change (String.eqb "llm" "llm") with true; cbn iota;
        rewrite ?Hsame;
        (split; [done|]); (split; [done|]);
        (split; [done|]); intros _; split; [done|repeat constructor| |];
        done.
    + cbn [negb allowed]. eexists. split; [reflexivity|].
      cbn [outcome llmCalls QueryResult.routing QueryResult.blocked
           QueryResult.sources QueryResult.mode guardrails call_context].
      rewrite Hg. change (String.eqb "llm" "llm") with true. cbn iota.
      split; [done|]. split; [done|]. split; [done|].
      intros _. split; [done|repeat constructor].
Qed.

End Generation.

(** ** Retrieval at the similarity threshold or above *)

Section Threshold.
Import RAGEngine Contracts.

(** What the first loop of [retrieveByVector] pushes. *)
Lemma gather_passing m threshold k sims acc results :
  gather m
    (fun s results =>
       Qle_bool threshold (sim_score s) && Nat.ltb (length results) k)
    sims acc = Return results ->
  exists pushed,
    results = (acc ++ pushed)%list
    /\ Forall2 (drawn m)
         (firstn (k - length acc)
            (List.filter (fun s => Qle_bool threshold (sim_score s)) sims))
         pushed.
Proof.
  revert acc. induction sims as [|s sims IH]; intros acc.
  - cbn. intros [= <-]. exists []. rewrite app_nil_r, firstn_nil.
    split; [done|constructor].
  - cbn [gather List.filter]. cbn beta.
    destruct (Qle_bool threshold (sim_score s)); cbn [andb]; [|apply IH].
    destruct (Nat.ltb_spec (length acc) k) as [Hroom|Hfull].
    + destruct (map_get (sim_id s) m) as [doc|] eqn:Hdoc; [|done].
      intros H. apply IH in H as (pushed & -> & Hpushed).
      exists (result_of doc (sim_score s) :: pushed).
      split; [by rewrite <- app_assoc|].
      rewrite length_app in Hpushed. cbn [length] in Hpushed.
      replace (k - length acc) with (S (k - (length acc + 1))) by lia.
      cbn [firstn]. constructor; [by exists doc|done].
    + intros H. apply IH in H as (pushed & -> & Hpushed).
      exists pushed. split; [done|].
      replace (k - length acc) with 0 in * by lia. done.
Qed.

Variables (e : t) (emb : Embeddings).
Hypothesis Hemb : embeddings e = Some emb.
Hypothesis Hcontract : FindSimilarContract emb.
Hypothesis Hindex : index_consistent (documentVectors e).

(** X18. When one pair or more of [findSimilar] reaches the similarity
    threshold, [retrieveByVector] returns the documents of the first [k]
    pairs that reach it, in their order, and nothing below the
    threshold. *)
Theorem retrieveByVector_above_threshold query k :
  let similarities :=
    findSimilar emb (embed emb query) (map_values (documentVectors e)) (k * 2) in
  let reaching :=
    List.filter (fun s => Qle_bool (similarityThreshold e) (sim_score s))
      similarities in
  0 < k ->
  reaching <> [] ->
  exists results,
    retrieveByVector e query k = Return results
    /\ results <> []
    /\ Forall2 (drawn (documentVectors e)) (firstn k reaching) results
    /\ Forall (fun r => (similarityThreshold e <= score r)%Q) results.
Proof.
  intros sims reaching Hk Hsome. unfold retrieveByVector. rewrite Hemb.
  fold sims.
  pose proof (findSimilar_resolves emb (documentVectors e) (embed emb query)
                (k * 2) Hcontract Hindex) as Hres. fold sims in Hres.
  destruct (gather_total (documentVectors e)
              (fun s results =>
                 Qle_bool (similarityThreshold e) (sim_score s)
                 && Nat.ltb (length results) k)
              sims [] Hres) as [results H].
  rewrite H.
  apply gather_passing in H as (pushed & -> & Hpushed).
  cbn [app length] in *. rewrite Nat.sub_0_r in Hpushed. fold reaching in Hpushed.
  assert (pushed <> []) as Hne.
  { intros ->. apply Forall2_nil_inv_r in Hpushed.
    destruct reaching; [done|]. destruct k; [lia|done]. }
  exists pushed. split; [by destruct pushed|]. split; [done|].
  split; [done|].
  assert (Forall (fun s => (similarityThreshold e <= sim_score s)%Q)
            (firstn k reaching)) as Hreach.
  { apply Forall_take. apply List.Forall_forall. intros s Hs.
    apply filter_In in Hs as [_ Hs]. by apply Qle_bool_iff. }
  clear Hne. induction Hpushed as [|s r ss rs (doc & _ & ->) _ IH];
    [constructor|].
  apply Forall_cons_1 in Hreach as [Hs Hss].
  constructor; [done|by apply IH].
Qed.

End Threshold.

(** ** The index under [initialize], [refresh] and [addDocument] *)

Section IndexContents.
Import RAGEngine Contracts.

Lemma map_get_set k k' v m :
  map_get k (map_set k' v m) = if String.eqb k k' then Some v else map_get k m.
Proof.
  induction m as [|[k0 v0] m IH]; cbn; [done|].
  destruct (String.eqb_spec k' k0) as [->|Hne]; cbn.
  - by destruct (String.eqb k k0).
  - rewrite IH. destruct (String.eqb_spec k k') as [->|Hne'].
    + by apply String.eqb_neq in Hne as ->.
    + done.
Qed.

Lemma store_all_get emb documents m k :
  map_get k (fold_left (store emb) documents m) = stored_entry emb documents m k.
Proof.
  unfold stored_entry. revert m.
  induction documents as [|doc documents IH]; intros m; [done|].
  cbn [fold_left latest]. rewrite IH.
  destruct (latest k documents); [done|].
  unfold store. rewrite map_get_set.
  by destruct (String.eqb k (doc_id doc)).
Qed.

Lemma map_get_absent k m : ~ In k (map_keys m) -> map_get k m = None.
Proof.
  unfold map_keys.
  induction m as [|[k0 v0] m IH]; cbn; [done|].
  intros H. destruct (String.eqb_spec k k0) as [->|Hne]; [tauto|].
  apply IH. tauto.
Qed.

Lemma map_set_keys_present k v m :
  In k (map_keys m) -> map_keys (map_set k v m) = map_keys m.
Proof.
  unfold map_keys.
  induction m as [|[k0 v0] m IH]; cbn; [done|].
  intros H. destruct (String.eqb_spec k k0) as [->|Hne]; cbn; [done|].
  rewrite IH; [done|]. destruct H; congruence.
Qed.

Lemma map_set_keys_absent k v m :
  ~ In k (map_keys m) -> map_keys (map_set k v m) = (map_keys m ++ [k])%list.
Proof.
  unfold map_keys.
  induction m as [|[k0 v0] m IH]; cbn; [done|].
  intros H. destruct (String.eqb_spec k k0) as [->|Hne]; cbn; [tauto|].
  rewrite IH; [done|tauto].
Qed.

Lemma map_set_NoDup k v m :
  List.NoDup (map_keys m) -> List.NoDup (map_keys (map_set k v m)).
Proof.
  intros H. destruct (in_dec String.string_dec k (map_keys m)) as [Hin|Hout].
  - by rewrite map_set_keys_present.
  - rewrite map_set_keys_absent by done.
    apply List.NoDup_app; [done|repeat constructor; cbn; tauto|].
    intros x Hx [<-|[]]. by apply Hout.
Qed.

Lemma store_all_NoDup emb documents m :
  List.NoDup (map_keys m) ->
  List.NoDup (map_keys (fold_left (store emb) documents m)).
Proof.
  revert m. induction documents as [|doc documents IH]; intros m Hm; [done|].
  cbn. apply IH. by apply map_set_NoDup.
Qed.

Lemma store_all_keys_present emb documents m :
  Forall (fun doc => In (doc_id doc) (map_keys m)) documents ->
  map_keys (fold_left (store emb) documents m) = map_keys m.
Proof.
  revert m. induction documents as [|doc documents IH]; intros m Hall; [done|].
  apply Forall_cons_1 in Hall as [Hdoc Hall]. cbn [fold_left].
  rewrite IH; unfold store; rewrite map_set_keys_present; try done.
Qed.

(** Two maps with the same keys in the same order and the same entry for
    each key are the same map. *)
Lemma index_ext (m1 m2 : Index) :
  List.NoDup (map_keys m1) ->
  map_keys m1 = map_keys m2 ->
  (forall k, map_get k m1 = map_get k m2) ->
  m1 = m2.
Proof.
  revert m2. induction m1 as [|[k1 v1] m1 IH]; intros [|[k2 v2] m2];
    cbn; try done.
  intros Hdup [= <- Hkeys] Hget. apply List.NoDup_cons_iff in Hdup as [Hout Hdup].
  pose proof (Hget k1) as Hhead. rewrite String.eqb_refl in Hhead.
  injection Hhead as <-. f_equal. apply IH; [done|done|].
  intros k. specialize (Hget k).
  destruct (String.eqb_spec k k1) as [Heq|Hne]; [subst k|done].
  rewrite !map_get_absent; [done| |]; unfold map_keys;
    rewrite <- ?Hkeys; done.
Qed.

Lemma store_all_again emb documents m :
  List.NoDup (map_keys m) ->
  fold_left (store emb) documents (fold_left (store emb) documents m)
  = fold_left (store emb) documents m.
Proof.
  intros Hm. apply index_ext.
  - by do 2 apply store_all_NoDup.
  - apply store_all_keys_present. apply List.Forall_forall. intros doc Hdoc.
    apply store_all_keys. left. by apply in_map.
  - intros k. rewrite store_all_get. unfold stored_entry.
    rewrite store_all_get. unfold stored_entry.
    by destruct (latest k documents).
Qed.

(** X19. [initialize] on a newly constructed engine with embeddings: the
    vocabulary is built from the texts of all documents, and the index
    holds, under each id of a document, the last document with that id
    with its vector under that vocabulary, and nothing else. *)
Theorem initialize_builds_index config emb :
  cfg_embeddings config = Some emb ->
  let documents := getDocuments (cfg_dataSource config) in
  let built := buildVocabulary emb (List.map doc_content documents) in
  exists e,
    initialize (constructor config) = Return e
    /\ initialized e = true
    /\ embeddings e = Some built
    /\ index_consistent (documentVectors e)
    /\ List.NoDup (map_keys (documentVectors e))
    /\ forall k,
         map_get k (documentVectors e) = stored_entry built documents [] k.
Proof.
  intros Hemb documents built. unfold initialize, buildVectorIndex.
  cbn [constructor embeddings set_index dataSource documentVectors].
  rewrite Hemb. eexists. split; [reflexivity|].
  cbn [initialized set_initialized embeddings set_index documentVectors].
  fold documents. fold built. fold (store built).
  repeat split.
  - apply store_all_consistent. constructor.
  - apply store_all_NoDup. constructor.
  - intros k. apply store_all_get.
Qed.

(** X20. [refresh] with embeddings: the vocabulary is rebuilt from the texts of
    the reloaded documents; each id of a reloaded document holds the last
    document with that id, with its vector under the new vocabulary; every
    other id keeps the entry it had, vector included. *)
Theorem refresh_index e reloaded emb :
  embeddings e = Some emb ->
  let documents := getDocuments reloaded in
  let built := buildVocabulary emb (List.map doc_content documents) in
  exists e',
    refresh e reloaded = Return e'
    /\ dataSource e' = reloaded
    /\ embeddings e' = Some built
    /\ forall k,
         map_get k (documentVectors e')
         = stored_entry built documents (documentVectors e) k.
Proof.
  intros Hemb documents built. unfold refresh, buildVectorIndex.
  cbn [embeddings set_dataSource set_index dataSource documentVectors].
  rewrite Hemb. eexists. split; [reflexivity|].
  cbn [embeddings set_index set_dataSource dataSource documentVectors].
  fold documents. fold built. fold (store built).
  repeat split. intros k. apply store_all_get.
Qed.

(** X21. A second [refresh] from the same data source changes nothing. *)
Theorem refresh_idempotent e reloaded e' :
  List.NoDup (map_keys (documentVectors e)) ->
  refresh e reloaded = Return e' ->
  refresh e' reloaded = Return e'.
Proof.
  intros Hdup. unfold refresh, buildVectorIndex.
  cbn [embeddings set_dataSource set_index dataSource documentVectors].
  destruct (embeddings e) as [emb|] eqn:Hemb.
  - intros [= <-].
    cbn [embeddings set_dataSource set_index dataSource documentVectors].
    f_equal. unfold set_index, set_dataSource. cbn.
    f_equal.
    apply (store_all_again
             (buildVocabulary emb
                (List.map doc_content (getDocuments reloaded)))).
    done.
  - intros [= <-]. cbn. by rewrite Hemb.
Qed.

(** X22. [addDocument] with embeddings stores the document under the id that
    the data source gave it, with its vector under the vocabulary as it
    is, and leaves every other entry, the vocabulary and the consistency
    of the index as they were. *)
Theorem addDocument_index e document stored id emb :
  embeddings e = Some emb ->
  let e' := fst (addDocument e document stored id) in
  snd (addDocument e document stored id) = id
  /\ embeddings e' = Some emb
  /\ (forall k,
         map_get k (documentVectors e')
         = if String.eqb k id
           then Some {| doc_id := id; doc_content := doc_content document;
                        doc_metadata := doc_metadata document;
                        vector := Some (embed emb (doc_content document)) |}
           else map_get k (documentVectors e))
  /\ (index_consistent (documentVectors e) ->
      index_consistent (documentVectors e'))
  /\ (List.NoDup (map_keys (documentVectors e)) ->
      List.NoDup (map_keys (documentVectors e'))).
Proof.
  intros Hemb. unfold addDocument. cbn [embeddings set_dataSource].
  rewrite Hemb. cbn [fst snd embeddings set_index documentVectors set_dataSource].
  split; [done|]. split; [done|]. split; [intros k; apply map_get_set|].
  split; [by apply map_set_consistent|apply map_set_NoDup].
Qed.

End IndexContents.

(** ** Previews, the streaming variant and the configuration *)

Section Presentation.
Import JsString Guardrails RAGEngine.

Lemma take_length n s : String.length (take n s) = Nat.min n (String.length s).
Proof.
  unfold take. revert s. induction n as [|n IH]; intros [|c s]; cbn; try done.
  by rewrite IH.
Qed.

Lemma take_all n s : String.length s <= n -> take n s = s.
Proof.
  unfold take. revert s.
  induction n as [|n IH]; intros [|c s]; cbn; try done; [lia|].
  intros H. rewrite IH; [done|lia].
Qed.

Lemma take_append n s t : String.length s = n -> take n (s ++ t) = s.
Proof.
  unfold take. revert s. induction n as [|n IH]; intros [|c s]; try done.
  - intros _. by destruct t.
  - intros [= H]. rewrite append_cons. cbn [String.substring].
    by rewrite IH.
Qed.

(** X23. The preview of a source: at most 203 characters; the whole content
    when that has at most 200 characters; otherwise its first 200
    characters and three dots. The source of the streaming variant
    carries the same text as its content. *)
Theorem source_preview_bounded doc :
  let preview := Source.preview (source_of doc) in
  String.length preview <= 203
  /\ take 200 preview = take 200 (content doc)
  /\ (String.length (content doc) <= 200 -> preview = content doc)
  /\ content (stream_source_of doc) = preview.
Proof.
  cbn zeta. cbn [Source.preview source_of content stream_source_of].
  destruct (Nat.ltb_spec 200 (String.length (content doc))) as [Hlong|Hshort].
  - repeat split; [| |lia].
    + rewrite length_append, take_length.
      change (String.length "...") with 3. lia.
    + rewrite take_append; [done|]. rewrite take_length. lia.
  - rewrite append_empty, take_all by done.
    repeat split; [lia|by apply take_all].
Qed.








End Presentation.

(** ** Lengths and letter case in the guardrails *)

Section Lengths.
Import JsString Guardrails RAGEngine.

Lemma replace_from_shorter m rep skip s :
  String.length rep <= 1 ->
  String.length (replace_from m rep skip s) <= String.length s.
Proof.
  intros Hrep. revert skip.
  induction s as [|c s IH]; intros skip; [done|].
  cbn [replace_from]. destruct skip as [|k].
  - destruct (m (String c s)) as [[|k]|].
    + cbn [String.length]. specialize (IH 0). lia.
    + rewrite length_append. cbn [String.length]. specialize (IH k). lia.
    + cbn [String.length]. specialize (IH 0). lia.
  - cbn [String.length]. specialize (IH k). lia.
Qed.

Lemma trimStart_shorter s : String.length (trimStart s) <= String.length s.
Proof.
  induction s as [|c s IH]; [done|]. cbn [trimStart].
  destruct (is_space c); cbn [String.length]; lia.
Qed.

Lemma trimEnd_shorter s : String.length (trimEnd s) <= String.length s.
Proof.
  induction s as [|c s IH]; [done|]. cbn [trimEnd].
  destruct (trimEnd s); [destruct (is_space c)|]; cbn [String.length] in *; lia.
Qed.

Lemma sanitizeInput_shorter text :
  String.length (sanitizeInput text) <= String.length text.
Proof.
  unfold sanitizeInput. destruct text as [|c text]; [done|].
  cbn zeta. unfold trim, replace.
  etransitivity; [apply trimEnd_shorter|].
  etransitivity; [apply trimStart_shorter|].
  repeat (etransitivity; [apply replace_from_shorter; cbn; lia|]).
  done.
Qed.

(** X26. [sanitizeInput] never returns a text longer than the one it is
    given. *)
Theorem sanitizeInput_never_longer text :
  String.length (sanitizeInput text) <= String.length text.
Proof. apply sanitizeInput_shorter. Qed.

(** X27. The length check of [validateQuery] comes before the sanitizer, and
    still holds behind it: a sanitized query that enabled guardrails
    return, with an allowed query or with one rejected for a blocked
    term, is within [maxQueryLength]. *)
Theorem validateQuery_sanitized_within_limit g q uid now s :
  enabled g = true ->
  sanitized (fst (validateQuery g q uid now)) = Some s ->
  (Z.of_nat (String.length s) <= maxQueryLength g)%Z.
Proof.
  intros Hen. unfold validateQuery. rewrite Hen. cbn [negb].
  destruct (Z.gtb_spec (Z.of_nat (String.length q)) (maxQueryLength g))
    as [|Hfit]; [done|].
  pose proof (sanitizeInput_shorter q) as Hshort.
  assert (forall v : Validation * Guardrails.t,
             sanitized (fst v) = Some (sanitizeInput q) \/ sanitized (fst v) = None ->
             sanitized (fst v) = Some s ->
             (Z.of_nat (String.length s) <= maxQueryLength g)%Z) as Hboth.
  { intros v [H|H] Hs; rewrite H in Hs; [|done]. injection Hs as <-. lia. }
  apply Hboth.
  destruct (rateLimit g) as [rl|]; cbn zeta.
  - destruct (_ >=? _)%Z; [by right|].
    destruct (existsb _ _); by left.
  - destruct (existsb _ _); by left.
Qed.

Lemma lower_char_idempotent c : lower_char (lower_char c) = lower_char c.
Proof. by destruct c as [[] [] [] [] [] [] [] []]. Qed.

Lemma toLowerCase_idempotent s : toLowerCase (toLowerCase s) = toLowerCase s.
Proof.
  induction s as [|c s IH]; [done|]. cbn.
  by rewrite lower_char_idempotent, IH.
Qed.

Lemma toLowerCase_length s : String.length (toLowerCase s) = String.length s.
Proof. induction s as [|c s IH]; [done|]. cbn. by rewrite IH. Qed.

(** X28. The term checks do not see the case of letters: the moderation of a
    response and the filter of documents give the same verdict on a text
    and on the text in lower case. *)
Theorem term_checks_ignore_case cm g text :
  checkContentModeration cm (toLowerCase text) = checkContentModeration cm text
  /\ validateDocument g (toLowerCase text) = validateDocument g text.
Proof.
  unfold checkContentModeration, validateDocument.
  by rewrite toLowerCase_idempotent.
Qed.

(** X29. A text of 500 characters or more is never held to be violent: of the
    moderation rules only the one on explicit content can reject it. *)
Theorem long_text_not_moderated_for_violence cm text :
  500 <= String.length text ->
  checkContentModeration cm text = None
  \/ checkContentModeration cm text
     = Some "Response contains inappropriate content".
Proof.
  intros Hlong. unfold checkContentModeration.
  destruct (_ && _); [by right|]. left.
  rewrite toLowerCase_length.
  destruct (Nat.ltb_spec (String.length text) 500) as [|_]; [lia|].
  rewrite andb_comm. cbn [existsb]. by rewrite !andb_false_r.
Qed.

End Lengths.

(** ** Guardrails that are switched off *)

Section Disabled.
Import JsString Guardrails RAGEngine.

Lemma validateResponse_disabled g response :
  enabled g = false ->
  validateResponse g response
  = {| allowed := true; reason := None; sanitized := Some response;
       warnings := None |}.
Proof. intros H. unfold validateResponse. by rewrite H. Qed.

(** X30. Guardrails that are switched off validate, sanitize and filter
    nothing and count no request, yet [query] still runs the response
    through [applyResponsePolicies]: the answer is the response of the
    generation backend to the query as the caller wrote it, followed by
    the disclaimers that the query calls for. *)
Theorem query_disabled_guardrails_still_disclaim e g q options now result :
  guardrails e = Some g ->
  enabled g = false ->
  outcome (query e q options now) = Return result ->
  exists call,
    llmCalls (query e q options now) = [call]
    /\ call_query call = q
    /\ after (query e q options now) = set_guardrails e g
    /\ QueryResult.blocked result = None
    /\ QueryResult.answer result
       = applyResponsePolicies g
           (generateResponse (llm e) q (call_context call) (call_options call))
           q.
Proof.
  intros Hg Hen. unfold query.
  destruct (negb (initialized e)); [discriminate|].
  destruct (if negb (String.eqb (str_or (Options.mode options) "hybrid") "llm")
            then _ else _) as [[docs0 info]|m]; [|discriminate].
  destruct (selectPrompt _ _ _ _ _) as [[prompt docs] mode].
  rewrite Hg, (validateQuery_disabled g q (Options.userId options) now Hen).
  cbn [allowed negb outcome llmCalls after guardrails set_guardrails sanitized
       interpolate].
  intros [= <-]. eexists. split; [reflexivity|].
  cbn [call_query call_context call_options QueryResult.blocked
       QueryResult.answer llm set_guardrails].
  rewrite (validateResponse_disabled g) by done.
  cbn [allowed negb sanitized interpolate]. done.
Qed.

End Disabled.

(** * The further properties on the objects of the examples *)

(** [resetRateLimit_opens_window] on [Examples.single] after one call:
    the second call within the second is throttled, and is not once the
    user is reset. *)
Lemma resetRateLimit_opens_window_witness :
  let g := snd (Calls.validateQueries Examples.single [Examples.call "one" 0]) in
  let rl := {| Guardrails.requests := 1; Guardrails.window := 1000 |} in
  let run :=
    Guardrails.validateQuery (Guardrails.resetRateLimit g "default") "two"
      (Some "default") 5 in
  Calls.throttled rl (fst (Guardrails.validateQuery g "two" (Some "default") 5))
  /\ Guardrails.reason (fst run) <> Some (Guardrails.rateLimitReason rl)
  /\ Calls.recorded (snd run) "default" = [5%Z].
Proof.
  intros g rl run. split; [split; reflexivity|].
  apply (resetRateLimit_opens_window g rl "two" "default" 5).
  - reflexivity.
  - reflexivity.
  - reflexivity.
  - vm_compute. discriminate.
Defined.

(** [clearRateLimits_opens_windows] on [Examples.single] after one call. *)
Lemma clearRateLimits_opens_windows_witness :
  let g := snd (Calls.validateQueries Examples.single [Examples.call "one" 0]) in
  let rl := {| Guardrails.requests := 1; Guardrails.window := 1000 |} in
  let run :=
    Guardrails.validateQuery (Guardrails.clearRateLimits g) "two" None 5 in
  Guardrails.activeUsers (Guardrails.getStats g) = 1
  /\ Guardrails.activeUsers
       (Guardrails.getStats (Guardrails.clearRateLimits g)) = 0
  /\ Guardrails.reason (fst run) <> Some (Guardrails.rateLimitReason rl)
  /\ Calls.recorded (snd run) "default" = [5%Z].
Proof.
  intros g rl run. split; [vm_compute; reflexivity|].
  apply (clearRateLimits_opens_windows g rl "two" None 5).
  - reflexivity.
  - reflexivity.
  - reflexivity.
  - vm_compute. discriminate.
Defined.

(** [resetRateLimit_other_user] on [Examples.single]: resetting the
    anonymous user and a call of another user, in either order. *)
Lemma resetRateLimit_other_user_witness :
  let g := snd (Calls.validateQueries Examples.single [Examples.call "one" 0]) in
  Guardrails.validateQuery (Guardrails.resetRateLimit g "default") "two"
    (Some "ada") 5
  = (fst (Guardrails.validateQuery g "two" (Some "ada") 5),
     Guardrails.resetRateLimit
       (snd (Guardrails.validateQuery g "two" (Some "ada") 5)) "default").
Proof.
  intros g. apply (resetRateLimit_other_user g "two" (Some "ada") "default" 5).
  discriminate.
Defined.

(** [updatePolicies_only_tightens] on [Examples.strict] with one more
    blocked term: the query that names the old term is rejected as
    before. *)
Lemma updatePolicies_only_tightens_witness :
  let more :=
    {| Guardrails.new_blockedTerms := Some ["virus"];
       Guardrails.new_sensitiveTopics := None;
       Guardrails.new_rateLimit := None |} in
  Guardrails.allowed
    (fst (Guardrails.validateQuery Examples.strict "What is malware?" None 0))
  = false
  /\ fst (Guardrails.validateQuery
            (Guardrails.updatePolicies Examples.strict more)
            "What is malware?" None 0)
     = fst (Guardrails.validateQuery Examples.strict "What is malware?" None 0).
Proof.
  intros more. split; [reflexivity|].
  destruct (updatePolicies_only_tightens Examples.strict more)
    as (_ & _ & Hsame).
  apply Hsame; reflexivity.
Defined.

(** [query_answer_safe_markup] on the engine whose backend answers with
    markup: the tags [em] stay, the others are escaped. *)
Lemma query_answer_safe_markup_witness :
  exists result,
    RAGEngine.outcome
      (RAGEngine.query Examples.marked "What is machine learning?"
         Examples.plain 0) = Return result
    /\ RAGEngine.QueryResult.answer result
       = "&lt;b&gt;Learning&lt;/b&gt; from <em>data</em>&lt;img src=x alert(1)&gt;"
    /\ Guardrails.safe_markup (RAGEngine.QueryResult.answer result).
Proof.
  destruct (RAGEngine.outcome
              (RAGEngine.query Examples.marked "What is machine learning?"
                 Examples.plain 0)) as [result|m] eqn:Hout;
    [|vm_compute in Hout; discriminate Hout].
  exists result. split; [reflexivity|].
  split; [vm_compute in Hout; injection Hout as <-; reflexivity|].
  apply (query_answer_safe_markup Examples.marked Examples.strict
           "What is machine learning?" Examples.plain 0 result).
  - reflexivity.
  - reflexivity.
  - exact Hout.
Defined.

(** [query_generation_input_clean] on the guarded engine: the quotes
    and the semicolon of the query do not reach the backend. *)
Lemma query_generation_input_clean_witness :
  exists call,
    RAGEngine.llmCalls
      (RAGEngine.query Examples.guarded "What is 'machine' learning;"
         Examples.plain 0) = [call]
    /\ RAGEngine.call_query call = "What is machine learning"
    /\ Guardrails.validateDocument Examples.strict (RAGEngine.call_query call)
       = true
    /\ Forall
         (fun doc =>
            Guardrails.validateDocument Examples.strict (RAGEngine.content doc)
            = true)
         (RAGEngine.call_context call).
Proof.
  destruct (RAGEngine.llmCalls
              (RAGEngine.query Examples.guarded "What is 'machine' learning;"
                 Examples.plain 0)) as [|call [|]] eqn:Hcalls;
    try (vm_compute in Hcalls; discriminate Hcalls).
  exists call. split; [reflexivity|].
  destruct (query_generation_input_clean Examples.guarded Examples.strict
              "What is 'machine' learning;" Examples.plain 0 call)
    as (Hquery & _ & Hterm & Hdocs).
  - reflexivity.
  - reflexivity.
  - rewrite Hcalls. by left.
  - split; [rewrite Hquery; reflexivity|]. split; [exact Hterm|exact Hdocs].
Defined.

(** [query_sources_filtered] on the engine whose corpus has a document
    that names the blocked term: that document was retrieved second, and
    is not among the sources. *)
Lemma query_sources_filtered_witness :
  exists result,
    RAGEngine.outcome
      (RAGEngine.query Examples.screened "What is machine learning?"
         Examples.plain 0) = Return result
    /\ List.map RAGEngine.Source.id (RAGEngine.QueryResult.sources result)
       = ["doc1"]
    /\ Forall
         (fun source =>
            Guardrails.validateDocument Examples.strict
              (RAGEngine.Source.content source) = true)
         (RAGEngine.QueryResult.sources result).
Proof.
  destruct (RAGEngine.outcome
              (RAGEngine.query Examples.screened "What is machine learning?"
                 Examples.plain 0)) as [result|m] eqn:Hout;
    [|vm_compute in Hout; discriminate Hout].
  exists result. split; [reflexivity|].
  split; [vm_compute in Hout; injection Hout as <-; reflexivity|].
  apply (query_sources_filtered Examples.screened Examples.strict
           "What is machine learning?" Examples.plain 0 result).
  - reflexivity.
  - exact Hout.
Defined.

(** [query_llm_mode] on the engine of the examples. *)
Lemma query_llm_mode_witness :
  exists result,
    RAGEngine.outcome
      (RAGEngine.query Examples.engine "What is machine learning?"
         (Examples.with_mode "llm") 0) = Return result
    /\ RAGEngine.QueryResult.sources result = []
    /\ RAGEngine.QueryResult.routing result = None
    /\ RAGEngine.QueryResult.mode result = "llm"
    /\ Forall (fun call => RAGEngine.call_context call = [])
         (RAGEngine.llmCalls
            (RAGEngine.query Examples.engine "What is machine learning?"
               (Examples.with_mode "llm") 0)).
Proof.
  apply (query_llm_mode Examples.engine "What is machine learning?"
           (Examples.with_mode "llm") 0); reflexivity.
Defined.

(** [query_auto_mode] on the engine of the examples: a query that shares
    no keyword with a document is answered in the mode [llm], with the two
    documents of the fallback as its sources and an empty context. *)
Lemma query_auto_mode_witness :
  exists result,
    RAGEngine.outcome
      (RAGEngine.query Examples.engine "What is a compiler?"
         (Examples.with_mode "auto") 0) = Return result
    /\ RAGEngine.QueryResult.mode result = "llm"
    /\ List.map RAGEngine.Source.id (RAGEngine.QueryResult.sources result)
       = ["doc1"; "doc2"]
    /\ Forall (fun call => RAGEngine.call_context call = [])
         (RAGEngine.llmCalls
            (RAGEngine.query Examples.engine "What is a compiler?"
               (Examples.with_mode "auto") 0)).
Proof.
  destruct (RAGEngine.retrieve Examples.engine "What is a compiler?" 2)
    as [docs|m] eqn:Hret; [|vm_compute in Hret; discriminate Hret].
  destruct (query_auto_mode Examples.engine "What is a compiler?"
              (Examples.with_mode "auto") 0 docs)
    as (result & Hout & _ & Hsources & _ & Hlow); try discriminate; try done.
  exists result. split; [exact Hout|].
  vm_compute in Hret. injection Hret as <-.
  destruct Hlow as [Hmode Hcalls]; [reflexivity|].
  split; [exact Hmode|]. split; [|exact Hcalls].
  rewrite Hsources; [reflexivity|].
  clear -Hout. vm_compute in Hout. by injection Hout as <-.
Defined.

(** [retrieveByVector_above_threshold] on the engine of the examples: two
    documents share a keyword with the query, the third does not. *)
Lemma retrieveByVector_above_threshold_witness :
  exists results,
    RAGEngine.retrieveByVector Examples.engine "What is machine learning?" 2
    = Return results
    /\ List.map RAGEngine.id results = ["doc1"; "doc2"]
    /\ Forall
         (fun r =>
            (RAGEngine.similarityThreshold Examples.engine
             <= RAGEngine.score r)%Q)
         results.
Proof.
  destruct (retrieveByVector_above_threshold Examples.engine
              (LocalEmbeddings.make Examples.keywordVector Examples.overlap
                 (List.map RAGEngine.doc_content Examples.corpus))
              examples_embeddings (LocalEmbeddings_contract _ _ _)
              examples_index_consistent "What is machine learning?" 2)
    as (results & Hret & _ & _ & Habove).
  - lia.
  - vm_compute. discriminate.
  - exists results. split; [exact Hret|]. split; [|exact Habove].
    clear Habove. vm_compute in Hret. injection Hret as <-. reflexivity.
Defined.

(** [initialize_builds_index] on the configuration of the examples: the
    index holds the documents of the corpus, and no fourth. *)
Lemma initialize_builds_index_witness :
  exists e,
    RAGEngine.initialize (RAGEngine.constructor (Examples.config Examples.corpus))
    = Return e
    /\ RAGEngine.initialized e = true
    /\ option_map RAGEngine.doc_content
         (RAGEngine.map_get "doc2" (RAGEngine.documentVectors e))
       = Some "Deep Learning stacks layers of neurons"
    /\ RAGEngine.map_get "doc4" (RAGEngine.documentVectors e) = None.
Proof.
  destruct (initialize_builds_index (Examples.config Examples.corpus)
              Examples.embeddings eq_refl)
    as (e & Hinit & Hflag & _ & _ & _ & Hget).
  exists e. split; [exact Hinit|]. split; [exact Hflag|].
  rewrite !Hget. split; reflexivity.
Defined.

(** [refresh_index] on the engine of the examples and the reloaded
    corpus: [doc1] has its new text, and [doc2], which the reloaded corpus
    lacks, is still in the index. *)
Lemma refresh_index_witness :
  exists e',
    RAGEngine.refresh Examples.engine (Examples.source Examples.revised)
    = Return e'
    /\ option_map RAGEngine.doc_content
         (RAGEngine.map_get "doc1" (RAGEngine.documentVectors e'))
       = Some "Machine Learning learns from examples"
    /\ RAGEngine.map_get "doc2" (RAGEngine.documentVectors e')
       = RAGEngine.map_get "doc2" (RAGEngine.documentVectors Examples.engine).
Proof.
  destruct (refresh_index Examples.engine (Examples.source Examples.revised)
              (LocalEmbeddings.make Examples.keywordVector Examples.overlap
                 (List.map RAGEngine.doc_content Examples.corpus))
              examples_embeddings)
    as (e' & Hrefresh & _ & _ & Hget).
  exists e'. split; [exact Hrefresh|].
  rewrite !Hget. split; reflexivity.
Defined.

(** [refresh_idempotent] on the engine of the examples. *)
Lemma refresh_idempotent_witness :
  exists e',
    RAGEngine.refresh Examples.engine (Examples.source Examples.revised)
    = Return e'
    /\ RAGEngine.refresh e' (Examples.source Examples.revised) = Return e'.
Proof.
  destruct (RAGEngine.refresh Examples.engine (Examples.source Examples.revised))
    as [e'|m] eqn:Hrefresh; [|discriminate Hrefresh].
  exists e'. split; [reflexivity|].
  apply (refresh_idempotent Examples.engine); [|exact Hrefresh].
  change (List.NoDup ["doc1"; "doc2"; "doc3"]).
  repeat constructor; cbn; intuition discriminate.
Defined.

(** [addDocument_index] on the engine of the examples. *)
Lemma addDocument_index_witness :
  let added :=
    RAGEngine.addDocument Examples.engine Examples.doc4
      (Examples.source (Examples.corpus ++ [Examples.doc4])) "doc4" in
  snd added = "doc4"
  /\ option_map RAGEngine.doc_content
       (RAGEngine.map_get "doc4" (RAGEngine.documentVectors (fst added)))
     = Some "Machine learning detects malware"
  /\ RAGEngine.map_get "doc1" (RAGEngine.documentVectors (fst added))
     = RAGEngine.map_get "doc1" (RAGEngine.documentVectors Examples.engine).
Proof.
  intros added.
  destruct (addDocument_index Examples.engine Examples.doc4
              (Examples.source (Examples.corpus ++ [Examples.doc4])) "doc4"
              (LocalEmbeddings.make Examples.keywordVector Examples.overlap
                 (List.map RAGEngine.doc_content Examples.corpus))
              examples_embeddings)
    as (Hid & _ & Hget & _).
  split; [exact Hid|]. subst added. rewrite !Hget. split; reflexivity.
Defined.


(** [validateQuery_sanitized_within_limit] on [Examples.strict]. *)
Lemma validateQuery_sanitized_within_limit_witness :
  let validation :=
    fst (Guardrails.validateQuery Examples.strict
           "  What   is 'machine'  learning?  " None 0) in
  Guardrails.sanitized validation = Some "What is machine learning?"
  /\ (Z.of_nat (String.length "What is machine learning?")
      <= Guardrails.maxQueryLength Examples.strict)%Z.
Proof.
  intros validation. split; [reflexivity|].
  apply (validateQuery_sanitized_within_limit Examples.strict
           "  What   is 'machine'  learning?  " None 0).
  - reflexivity.
  - reflexivity.
Defined.

(** [long_text_not_moderated_for_violence] under the default rules: the
    word that blocks a short response does not block it behind 500 other
    characters. *)
Lemma long_text_not_moderated_for_violence_witness :
  let rules :=
    {| Guardrails.blockExplicit := true; Guardrails.blockViolence := true;
       Guardrails.blockHateSpeech := true |} in
  Guardrails.checkContentModeration rules "attack"
  = Some "Response may contain violent content"
  /\ Guardrails.checkContentModeration rules
       (Examples.repeated "a" 500 ++ " attack") = None.
Proof.
  intros rules. split; [reflexivity|].
  destruct (long_text_not_moderated_for_violence rules
              (Examples.repeated "a" 500 ++ " attack")) as [Hnone|Hexplicit].
  - apply Nat.leb_le. vm_compute. reflexivity.
  - exact Hnone.
  - vm_compute in Hexplicit. discriminate Hexplicit.
Defined.

(** [query_disabled_guardrails_still_disclaim] on the engine behind the
    guardrails [off]: the query is longer than their limit and is
    answered, with the medical disclaimer. *)
Lemma query_disabled_guardrails_still_disclaim_witness :
  exists result,
    RAGEngine.outcome
      (RAGEngine.query Examples.unguarded
         "What is the medical use of machine learning?" Examples.plain 0)
    = Return result
    /\ RAGEngine.QueryResult.answer result
       = Guardrails.applyResponsePolicies Examples.off
           "Machine learning is the study of programs that learn."
           "What is the medical use of machine learning?"
    /\ String.length (RAGEngine.QueryResult.answer result) = 145.
Proof.
  destruct (RAGEngine.outcome
              (RAGEngine.query Examples.unguarded
                 "What is the medical use of machine learning?"
                 Examples.plain 0)) as [result|m] eqn:Hout;
    [|vm_compute in Hout; discriminate Hout].
  exists result. split; [reflexivity|].
  destruct (query_disabled_guardrails_still_disclaim Examples.unguarded
              Examples.off "What is the medical use of machine learning?"
              Examples.plain 0 result)
    as (call & _ & _ & _ & _ & Hanswer).
  - reflexivity.
  - reflexivity.
  - exact Hout.
  - split; [exact Hanswer|]. rewrite Hanswer. vm_compute. reflexivity.
Defined.
